(** * Canvas Grabber: a shallow embedding of [canvas_grabber.py]

    The development follows the script function by function: the Python
    string primitives it relies on, [sanitize], [find_file_ids_in_html],
    [parse_choices], [get_all], [download_to] and the per-module part of
    [main].  Python [str] values are lists of characters.  For the text
    of HTTP headers, JSON values and file names the character type is
    [ascii], read as the code points U+0000..U+00FF; what reads the text
    of a page or a typed line takes lists of code points.  Integers are
    [Z], the set of file identifiers is a [gset Z], the local file system
    is a [gmap] from paths to nodes.  Network, clock and console are an
    explicit event trace threaded through a state-and-exception monad. *)

From Stdlib Require Import ZArith Ascii String DecimalString List Lia Bool.
From stdpp Require Import base option list sets gmap strings sorting.
Import ListNotations.

Local Open Scope Z_scope.
Local Open Scope list_scope.
Set Warnings "-register-all".

(** ** Python strings *)

Definition str := list ascii.

Definition pystr (s : string) : str := list_ascii_of_string s.
Coercion pystr : string >-> str.

(** The double quote character (U+0022). *)
Definition dquote : ascii := "034"%char.

Module Py.

Definition code (c : ascii) : N := N_of_ascii c.

Definition between (lo hi : N) (c : ascii) : bool :=
  ((lo <=? code c) && (code c <=? hi))%N.

(** The digits accepted by [int()] in the range U+0000..U+00FF: the ten
    ASCII digits, the only decimal digits (category Nd) of that range. *)
Definition is_digit (c : ascii) : bool := between 48 57 c.

(** [str.isspace]: the characters removed by [str.strip()] without
    argument. *)
Definition isspace (c : ascii) : bool :=
  between 9 13 c || between 28 32 c || (code c =? 133)%N || (code c =? 160)%N.

(** White space skipped by [int()] around the literal: as [isspace], but
    without the separators U+001C..U+001F. *)
Definition int_space (c : ascii) : bool :=
  between 9 13 c || (code c =? 32)%N || (code c =? 133)%N || (code c =? 160)%N.

(** [c in chars], the test used by [str.strip(chars)]. *)
Definition in_chars (chars : str) (c : ascii) : bool :=
  existsb (Ascii.eqb c) chars.

Fixpoint lstrip {A : Type} (p : A -> bool) (s : list A) : list A :=
  match s with
  | [] => []
  | c :: s' => if p c then lstrip p s' else s
  end.

Definition rstrip {A : Type} (p : A -> bool) (s : list A) : list A :=
  rev (lstrip p (rev s)).

(** [s.strip()] is [strip isspace s]; [s.strip(chars)] is
    [strip (in_chars chars) s]. *)
Definition strip {A : Type} (p : A -> bool) (s : list A) : list A :=
  rstrip p (lstrip p s).

(** [s.split(sep)] for a one-character separator. *)
Fixpoint split (sep : ascii) (s : str) : list str :=
  match s with
  | [] => [[]]
  | c :: s' =>
      if Ascii.eqb c sep then [] :: split sep s'
      else match split sep s' with
           | [] => [[c]]
           | w :: ws => (c :: w) :: ws
           end
  end.

(** [s.split(sep, 1)]: at most one cut, at the first separator. *)
Fixpoint split_max1 (sep : ascii) (s : str) : list str :=
  match s with
  | [] => [[]]
  | c :: s' =>
      if Ascii.eqb c sep then [[]; s']
      else match split_max1 sep s' with
           | w :: ws => (c :: w) :: ws
           | [] => [[c]]
           end
  end.

(** [prefix] is a prefix of [s]: [s.startswith(prefix)]. *)
Fixpoint startswith (prefix s : str) : bool :=
  match prefix, s with
  | [], _ => true
  | _ :: _, [] => false
  | a :: prefix', b :: s' => Ascii.eqb a b && startswith prefix' s'
  end.

Definition str_eqb (a b : str) : bool := bool_decide (a = b).

Definition digit_val (c : ascii) : Z := Z.of_N (code c) - 48.

(** The body of a decimal literal: digits, with single underscores allowed
    between two digits.  [prev] tells whether the previous character was a
    digit. *)
Fixpoint int_body (prev : bool) (acc : Z) (s : str) : option Z :=
  match s with
  | [] => if prev then Some acc else None
  | c :: s' =>
      if is_digit c then int_body true (10 * acc + digit_val c) s'
      else if Ascii.eqb c "_" then
             if prev then int_body false acc s' else None
      else None
  end.

(** A decimal literal: an optional sign, then the body. *)
Definition int_literal (s : str) : option Z :=
  match s with
  | "-"%char :: body => Z.opp <$> int_body false 0 body
  | "+"%char :: body => int_body false 0 body
  | body => int_body false 0 body
  end.

(** The most digits [int()] reads from a string: the interpreter's
    default, [sys.int_info.default_max_str_digits]. *)
Definition int_max_str_digits : N := 4300.

(** [int(s)] on a string: white space around, an optional sign, the
    digits, of which there may be at most [int_max_str_digits].  [None]
    stands for [ValueError]. *)
Definition int (s : str) : option Z :=
  let t := strip int_space s in
  if (int_max_str_digits <? N.of_nat (length (List.filter is_digit t)))%N
  then None
  else int_literal t.

(** [range(lo, hi)]. *)
Definition range (lo hi : Z) : list Z :=
  map (fun i => lo + Z.of_nat i) (seq 0 (Z.to_nat (hi - lo))).

(** Decimal rendering of an integer, as [str(n)] and f-strings give it. *)
Definition str_of_Z (n : Z) : str :=
  pystr (NilZero.string_of_int (Z.to_int n)).

End Py.

(** ** The [re] calls of the script *)

Module Re.

(** [re.sub(cls, repl, s)] for a pattern that is one character class. *)
Definition sub_class (cls : ascii -> bool) (repl : str) (s : str) : str :=
  flat_map (fun c => if cls c then repl else [c]) s.

End Re.

(** ** Python strings of arbitrary code points

    What the user types and what a page holds is not bound to
    U+0000..U+00FF.  What reads such text, [find_file_ids_in_html],
    [parse_choices] and the choice of a course, is modelled on the strings
    of Python as they are: lists of Unicode code points. *)

Definition ustr := list N.

(** A string of the range U+0000..U+00FF as a string of code points. *)
Definition widen (s : str) : ustr := map Py.code s.

Definition ustring (s : string) : ustr := widen s.
Coercion ustring : string >-> ustr.

Module Uni.

(** The code point of the digit zero of every decimal system: the
    characters of category Nd come in runs of ten, zero to nine.  The
    table is that of Unicode 14.0.0, which CPython 3.11 carries. *)
Definition decimal_zeros : list N :=
  [
   48; 1632; 1776; 1984; 2406; 2534; 2662; 2790;
   2918; 3046; 3174; 3302; 3430; 3558; 3664; 3792;
   3872; 4160; 4240; 6112; 6160; 6470; 6608; 6784;
   6800; 6992; 7088; 7232; 7248; 42528; 43216; 43264;
   43472; 43504; 43600; 44016; 65296; 66720; 68912; 69734;
   69872; 69942; 70096; 70384; 70736; 70864; 71248; 71360;
   71472; 71904; 72016; 72784; 73040; 73120; 92768; 92864;
   93008; 120782; 120792; 120802; 120812; 120822; 123200; 123632;
   125264; 130032
  ]%N.

(** [Py_UNICODE_TODECIMAL]: the value of a decimal digit. *)
Definition decimal (c : N) : option N :=
  (fun z => c - z)%N
    <$> List.find (fun z => (z <=? c) && (c <? z + 10))%N decimal_zeros.

(** [\d] of the [re] module on a [str] pattern, and the digits accepted
    by [int()]. *)
Definition is_digit (c : N) : bool :=
  match decimal c with Some _ => true | None => false end.

Definition digit_val (c : N) : Z := Z.of_N (default 0%N (decimal c)).

Definition between (lo hi c : N) : bool := ((lo <=? c) && (c <=? hi))%N.

(** [str.isspace]: the characters removed by [str.strip()] without
    argument. *)
Definition isspace (c : N) : bool :=
  between 9 13 c || between 28 32 c || (c =? 133)%N || (c =? 160)%N
  || (c =? 5760)%N || between 8192 8202 c || (c =? 8232)%N || (c =? 8233)%N
  || (c =? 8239)%N || (c =? 8287)%N || (c =? 12288)%N.

(** White space skipped by [int()] around the literal: the ASCII white
    space, and every space character from U+0080 on. *)
Definition int_space (c : N) : bool :=
  between 9 13 c || (c =? 32)%N || ((128 <=? c)%N && isspace c).

(** [c in s] *)
Definition contains (s : ustr) (c : N) : bool := existsb (N.eqb c) s.

(** [s.split(sep)] for a one-character separator. *)
Fixpoint split (sep : N) (s : ustr) : list ustr :=
  match s with
  | [] => [[]]
  | c :: s' =>
      if (c =? sep)%N then [] :: split sep s'
      else match split sep s' with
           | [] => [[c]]
           | w :: ws => (c :: w) :: ws
           end
  end.

(** [s.split(sep, 1)]: at most one cut, at the first separator. *)
Fixpoint split_max1 (sep : N) (s : ustr) : list ustr :=
  match s with
  | [] => [[]]
  | c :: s' =>
      if (c =? sep)%N then [[]; s']
      else match split_max1 sep s' with
           | w :: ws => (c :: w) :: ws
           | [] => [[c]]
           end
  end.

(** The body of a decimal literal: digits, with single underscores
    (U+005F) allowed between two digits.  [prev] tells whether the
    previous character was a digit. *)
Fixpoint int_body (prev : bool) (acc : Z) (s : ustr) : option Z :=
  match s with
  | [] => if prev then Some acc else None
  | c :: s' =>
      if is_digit c then int_body true (10 * acc + digit_val c) s'
      else if (c =? 95)%N then
             if prev then int_body false acc s' else None
      else None
  end.

(** A decimal literal: an optional sign (U+002D or U+002B), then the
    body. *)
Definition int_literal (s : ustr) : option Z :=
  match s with
  | [] => None
  | c :: body =>
      if (c =? 45)%N then Z.opp <$> int_body false 0 body
      else if (c =? 43)%N then int_body false 0 body
      else int_body false 0 s
  end.

(** [int(s)] on a string: white space around, an optional sign, the
    digits, of which there may be at most [Py.int_max_str_digits].
    [None] stands for [ValueError]. *)
Definition int (s : ustr) : option Z :=
  let t := Py.strip int_space s in
  if (Py.int_max_str_digits <? N.of_nat (length (List.filter is_digit t)))%N
  then None
  else int_literal t.

(** Remainder of [s] after the literal [lit], when [s] starts with it. *)
Fixpoint match_literal (lit s : ustr) : option ustr :=
  match lit, s with
  | [], _ => Some s
  | _ :: _, [] => None
  | a :: lit', b :: s' => if (a =? b)%N then match_literal lit' s' else None
  end.

(** The greedy [\d*] at the head of [s] and what follows it. *)
Fixpoint span_digits (s : ustr) : ustr * ustr :=
  match s with
  | [] => ([], [])
  | c :: s' =>
      if is_digit c then let '(d, r) := span_digits s' in (c :: d, r)
      else ([], s)
  end.

(** One attempt of the pattern [lit(\d+)] at the head of [s]: the captured
    group and the text after the match. *)
Definition match_at (lit s : ustr) : option (ustr * ustr) :=
  match match_literal lit s with
  | None => None
  | Some r =>
      match span_digits r with
      | ([], _) => None
      | (d, r') => Some (d, r')
      end
  end.

(** [re.finditer] for [lit(\d+)]: scanning resumes after each match, one
    character further where there is none.  The recursion is on [fuel];
    [finditer] gives it one more than the length of the text. *)
Fixpoint finditer_from (fuel : nat) (lit s : ustr) : list ustr :=
  match fuel with
  | O => []
  | S fuel' =>
      match s with
      | [] => []
      | _ :: s' =>
          match match_at lit s with
          | Some (d, r) => d :: finditer_from fuel' lit r
          | None => finditer_from fuel' lit s'
          end
      end
  end.

Definition finditer (lit s : ustr) : list ustr :=
  finditer_from (S (length s)) lit s.

End Uni.

(** ** [sanitize] *)

(** The character class of the pattern [_ILLEGAL]: the nine punctuation
    characters and the code points U+0000..U+001F. *)
Definition _ILLEGAL (c : ascii) : bool :=
  Py.in_chars ["<"; ">"; ":"; dquote; "/"; "\"; "|"; "?"; "*"]%char c
  || Py.between 0 31 c.

Definition sanitize (name : str) : str :=
  Py.strip (Py.in_chars " .") (Re.sub_class _ILLEGAL "_" name).

(** ** [find_file_ids_in_html] *)

(** One [for m in re.finditer(...)] loop: [int(m.group(1))] is added, a
    [ValueError] is passed over. *)
Definition add_matches (ids : gset Z) (groups : list ustr) : gset Z :=
  fold_left (fun ids g => match Uni.int g with
                          | Some n => {[n]} ∪ ids
                          | None => ids
                          end) groups ids.

Definition find_file_ids_in_html (html : ustr) : gset Z :=
  let ids := add_matches ∅ (Uni.finditer "/files/" html) in
  add_matches ids (Uni.finditer "/api/v1/files/" html).

(** ** [parse_choices] *)

(** [if 1 <= n <= maxnum and n not in seen: seen.add(n); nums.append(n)] *)
Definition add_choice (maxnum : Z) (st : list Z * gset Z) (n : Z)
  : list Z * gset Z :=
  let '(nums, seen) := st in
  if (1 <=? n) && (n <=? maxnum) && negb (bool_decide (n ∈ seen))
  then (nums ++ [n], {[n]} ∪ seen)
  else st.

(** The body of [for part in raw.split(",")], on the pair [(nums, seen)]. *)
Definition parse_part (maxnum : Z) (st : list Z * gset Z) (part0 : ustr)
  : list Z * gset Z :=
  let part := Py.strip Uni.isspace part0 in
  match part with
  | [] => st
  | _ :: _ =>
      if Uni.contains part 45 then
        match Uni.split_max1 45 part with
        | [start; end_] =>
            match Uni.int start, Uni.int end_ with
            | Some s, Some e =>
                let '(s, e) := if s >? e then (e, s) else (s, e) in
                fold_left (add_choice maxnum) (Py.range s (e + 1)) st
            | _, _ => st
            end
        | _ => st
        end
      else
        match Uni.int part with
        | Some n => add_choice maxnum st n
        | None => st
        end
  end.

Definition parse_choices (raw : ustr) (maxnum : Z) : list Z :=
  fst (fold_left (parse_part maxnum) (Uni.split 44 raw) ([], ∅)).


(** ** JSON values, exceptions, the outside world *)

(** What [resp.json()] returns.  JSON numbers with a fraction are not part
    of the model.  An object is its list of members, read by [dict_get]. *)
Inductive json : Type :=
| JNull
| JBool (b : bool)
| JInt (n : Z)
| JStr (s : str)
| JList (l : list json)
| JObj (kv : list (str * json)).

(** The exceptions the modelled code can meet.  [HTTPError] is raised by
    [raise_for_status]; [NetworkError] stands for every [RequestException]
    raised inside [session.get] or while a body is streamed. *)
Inductive exn : Type :=
| HTTPError (status : Z)
| NetworkError
| JSONDecodeError
| AttributeError
| TypeError
| ValueError
| KeyError
| IndexError
| OSError
| OverflowError.

(** [except requests.RequestException] *)
Definition is_RequestException (e : exn) : bool :=
  match e with
  | HTTPError _ | NetworkError | JSONDecodeError => true
  | _ => false
  end.

(** The address of a request.  [Url u] is a URL held in a Python value [u]
    (a continuation link, a download URL); the other constructors are the
    f-strings of [main], kept as their holes:
    [{base}/courses/{course_id}/modules/{mid}/items],
    [{base}/courses/{course_id}/pages/{slug}],
    [{base}/courses/{course_id}/assignments/{aid}] and
    [{base}/files/{fid}]. *)
Inductive endpoint : Type :=
| Url (u : json)
| ModuleItems (course_id : Z) (mid : json)
| PageOf (course_id : Z) (slug : json)
| AssignmentOf (course_id : Z) (aid : json)
| FileOf (fid : Z).

Record request : Type := Request {
  req_target : endpoint;
  req_params : option (list (str * json));
  req_stream : bool
}.

Record response : Type := Response {
  status_code : Z;
  headers : list (str * str);
  json_body : option json;          (* [None]: the body is not JSON *)
  content : list (list Byte.byte);  (* the chunks [iter_content] yields *)
  stream_ok : bool                  (* [false]: the stream breaks after them *)
}.

Definition path := list str.

Inductive node : Type :=
| File (bytes : list Byte.byte)
| Dir (st_size : Z).

Inductive message : Type :=
| MsgModule (title : str) (choice : Z)
| MsgSavingTo (dir : path)
| MsgNoItems
| MsgNoFiles
| MsgFailed (name : str) (e : exn)
| MsgModuleDone (downloaded skipped : Z)
| MsgAllDone (downloaded skipped : Z)
| MsgSavedUnder (dir : path).

Inductive event : Type :=
| EvGet (r : request)
| EvSleep (secs : Z)
| EvPrint (m : message).

Record world : Type := World {
  trace : list event;
  fs : gmap path node
}.

(** The remote side: what [session.get] returns for a request, given all
    that happened before; [None] when the call raises instead. *)
Definition server := list event -> request -> option response.

(** ** The monad of the script: state, exceptions, and running out of fuel *)

Inductive outcome (A : Type) : Type :=
| Val (a : A)
| Exc (e : exn)
| OutOfFuel.
Arguments Val {A} a.
Arguments Exc {A} e.
Arguments OutOfFuel {A}.

Definition M (A : Type) : Type := world -> world * outcome A.

#[global] Instance M_ret : MRet M := fun A a w => (w, Val a).

#[global] Instance M_bind : MBind M := fun A B f m w =>
  match m w with
  | (w', Val a) => f a w'
  | (w', Exc e) => (w', Exc e)
  | (w', OutOfFuel) => (w', OutOfFuel)
  end.

Definition raise {A} (e : exn) : M A := fun w => (w, Exc e).

Definition out_of_fuel {A} : M A := fun w => (w, OutOfFuel).

(** [try: body  except <handles> as e: handler e] *)
Definition try_except {A} (body : M A) (handles : exn -> bool)
    (handler : exn -> M A) : M A := fun w =>
  match body w with
  | (w', Exc e) => if handles e then handler e w' else (w', Exc e)
  | r => r
  end.

Definition emit (ev : event) : M unit := fun w =>
  (World (trace w ++ [ev]) (fs w), Val tt).

Definition print (m : message) : M unit := emit (EvPrint m).

Definition get_fs : M (gmap path node) := fun w => (w, Val (fs w)).

Definition set_fs (f : gmap path node) : M unit := fun w =>
  (World (trace w) f, Val tt).

(** [for x in l: acc = body acc x] *)
Fixpoint for_each {A B} (body : B -> A -> M B) (acc : B) (l : list A) : M B :=
  match l with
  | [] => mret acc
  | x :: l' => acc' ← body acc x; for_each body acc' l'
  end.

(** The value an outcome carries, if any. *)
Definition value_of {A} (r : world * outcome A) : option A :=
  match r.2 with Val a => Some a | _ => None end.

(** ** Python values *)

Fixpoint dict_get (k : str) (kv : list (str * json)) : option json :=
  match kv with
  | [] => None
  | (k', v) :: kv' => if Py.str_eqb k k' then Some v else dict_get k kv'
  end.

(** [d.get(k)]: [None] of Python is [JNull]; a value without [get] raises. *)
Definition py_get (d : json) (k : str) : M json :=
  match d with
  | JObj kv => mret (default JNull (dict_get k kv))
  | _ => raise AttributeError
  end.

Definition truthy (v : json) : bool :=
  match v with
  | JNull => false
  | JBool b => b
  | JInt n => negb (n =? 0)
  | JStr s => negb (bool_decide (s = []))
  | JList l => negb (bool_decide (length l = 0%nat))
  | JObj kv => negb (bool_decide (length kv = 0%nat))
  end.

(** [v == s] for a string literal [s]. *)
Definition json_is_str (s : str) (v : json) : bool :=
  match v with
  | JStr t => Py.str_eqb t s
  | _ => false
  end.

(** [int(v)]: the value, or the exception it raises. *)
Definition json_int (v : json) : outcome Z :=
  match v with
  | JInt n => Val n
  | JBool b => Val (Z.b2z b)
  | JStr s => match Py.int s with Some n => Val n | None => Exc ValueError end
  | _ => Exc TypeError
  end.

Definition int_of_json (v : json) : M Z := fun w => (w, json_int v).

(** [for x in v]: the elements of a list, the keys of an object, the
    characters of a string. *)
Definition iterate (v : json) : M (list json) :=
  match v with
  | JList l => mret l
  | JObj kv => mret (map (fun p => JStr p.1) kv)
  | JStr s => mret (map (fun c => JStr [c]) s)
  | _ => raise TypeError
  end.

(** An argument that must be a [str] ([re.sub], [re.finditer]). *)
Definition expect_str (v : json) : M str :=
  match v with
  | JStr s => mret s
  | _ => raise TypeError
  end.

(** [l[i]] with Python's negative indices. *)
Definition py_index {A} (l : list A) (i : Z) : M A :=
  let n := Z.of_nat (length l) in
  let j := if i <? 0 then i + n else i in
  if (0 <=? j) && (j <? n) then
    match l !! Z.to_nat j with
    | Some x => mret x
    | None => raise IndexError
    end
  else raise IndexError.

(** ** The HTTP session *)

Definition lower (c : ascii) : ascii :=
  if Py.between 65 90 c then ascii_of_N (Py.code c + 32) else c.

(** [resp.headers.get(name)]; header names compare without case. *)
Fixpoint headers_get (name : str) (hs : list (str * str)) : option str :=
  match hs with
  | [] => None
  | (k, v) :: hs' =>
      if Py.str_eqb (map lower k) (map lower name) then Some v
      else headers_get name hs'
  end.

Definition raise_for_status (resp : response) : M unit :=
  if (400 <=? status_code resp) && (status_code resp <? 600)
  then raise (HTTPError (status_code resp))
  else mret tt.

Definition resp_json (resp : response) : M json :=
  match json_body resp with
  | Some v => mret v
  | None => raise JSONDecodeError
  end.

(** ** The functions that talk to the network *)

Section Network.

Variable srv : server.

(** [session.get(url, params=..., stream=...)]: the request is recorded,
    the reply comes from the remote side. *)
Definition session_get (r : request) : M response := fun w =>
  let w' := World (trace w ++ [EvGet r]) (fs w) in
  match srv (trace w) r with
  | Some resp => (w', Val resp)
  | None => (w', Exc NetworkError)
  end.

(** *** [get_all] *)

(** [results.extend(...)] for the body [data] of one page. *)
Definition extend_results (results : list json) (data : json) : M (list json) :=
  match data with
  | JList l => mret (results ++ l)
  | JObj kv =>
      match dict_get "items" kv with
      | Some (JList items) => mret (results ++ items)
      | _ => mret results
      end
  | _ => raise AttributeError
  end.

(** The inner loop [for attr in segs[1:]]. *)
Definition link_rel (attrs : list str) : option str :=
  fold_left (fun rel attr =>
               if Py.startswith "rel=" attr
               then Some (Py.strip (Py.in_chars [dquote])
                            (nth 1 (Py.split_max1 "=" attr) []))
               else rel) attrs None.

(** The body of [for part in link.split(",")], on [next_url]. *)
Definition next_link_part (next_url : option str) (part : str) : option str :=
  match map (Py.strip Py.isspace) (Py.split ";" part) with
  | seg0 :: (_ :: _) as attrs =>
      let href := Py.strip (Py.in_chars "<> ") seg0 in
      if bool_decide (link_rel attrs = Some ("next" : str))
      then Some href else next_url
  | _ => next_url
  end.

(** The value the loop leaves in [next_url]. *)
Definition next_link (link : str) : option str :=
  fold_left next_link_part (Py.split "," link) None.

(** [while url:] *)
Definition url_truthy (url : option endpoint) : bool :=
  match url with
  | None => false
  | Some (Url u) => truthy u
  | Some _ => true
  end.

(** The body of the [while] loop: one page is fetched; the result is the
    extended list and the next value of [url]. *)
Definition get_page (url : endpoint) (params : option (list (str * json)))
    (results : list json) : M (list json * option endpoint) :=
  resp ← session_get (Request url params false);
  _ ← raise_for_status resp;
  data ← resp_json resp;
  results' ← extend_results results data;
  let link := default ([] : str) (headers_get "Link" (headers resp)) in
  mret (results', (fun u => Url (JStr u)) <$> next_link link).

Fixpoint get_all_loop (fuel : nat) (url : option endpoint)
    (params : option (list (str * json))) (results : list json)
  : M (list json) :=
  match fuel with
  | O => out_of_fuel
  | S fuel' =>
      match url with
      | Some u =>
          if url_truthy url then
            '(results', next_url) ← get_page u params results;
            get_all_loop fuel' next_url None results'
          else mret results
      | None => mret results
      end
  end.

Definition get_all (fuel : nat) (url : endpoint)
    (params : option (list (str * json))) : M (list json) :=
  get_all_loop fuel (Some url) params [].

(** *** [download_to] *)

Definition parent (p : path) : path := removelast p.

(** [open(target_path, "wb")]: the file is created or truncated. *)
Definition open_wb (target : path) : M unit :=
  f ← get_fs;
  match f !! target, f !! parent target with
  | Some (Dir _), _ => raise OSError
  | _, Some (Dir _) => set_fs (<[target := File []]> f)
  | _, _ => raise OSError
  end.

(** [if chunk: fh.write(chunk)] *)
Definition write_chunk (target : path) (_ : unit) (chunk : list Byte.byte)
  : M unit :=
  match chunk with
  | [] => mret tt
  | _ :: _ =>
      f ← get_fs;
      match f !! target with
      | Some (File old) => set_fs (<[target := File (old ++ chunk)]> f)
      | _ => raise OSError
      end
  end.

(** [int(h.get(name) or 0)] on a header value *)
Definition int_header_or_0 (v : option str) : M Z :=
  match v with
  | None | Some [] => mret 0
  | Some s => match Py.int s with Some n => mret n | None => raise ValueError end
  end.

(** The part shared by both branches of [download_to]: the length is read,
    the target opened, the chunks written in order. *)
Definition stream_to (target : path) (resp : response) : M unit :=
  _ ← int_header_or_0 (headers_get "Content-Length" (headers resp));
  _ ← open_wb target;
  _ ← for_each (write_chunk target) tt (content resp);
  if stream_ok resp then mret tt else raise NetworkError.

(** The most seconds [time.sleep] takes: the clock counts nanoseconds in
    a signed 64-bit integer. *)
Definition sleep_max : Z := 9223372036.

(** [time.sleep(secs)] for an integer: a number of seconds that does not
    fit the clock is an [OverflowError], a negative one that fits a
    [ValueError]. *)
Definition sleep (secs : Z) : M unit :=
  if (secs <? - sleep_max) || (sleep_max <? secs) then raise OverflowError
  else if secs <? 0 then raise ValueError
  else emit (EvSleep secs).

Definition download_to (url : json) (target_path : path) : M unit :=
  resp ← session_get (Request (Url url) None true);
  if status_code resp =? 429 then
    secs ← int_of_json (JStr (default ("3" : str)
                                (headers_get "Retry-After" (headers resp))));
    _ ← sleep secs;
    r2 ← session_get (Request (Url url) None true);
    _ ← raise_for_status r2;
    stream_to target_path r2
  else
    _ ← raise_for_status resp;
    stream_to target_path resp.

(** *** The per-module part of [main] *)

(** A) direct File items *)
Definition harvest_file_items (items : list json) (file_ids : gset Z)
  : M (gset Z) :=
  for_each (fun ids it =>
    ty ← py_get it "type";
    if json_is_str "File" ty then
      cid ← py_get it "content_id";
      if truthy cid then
        try_except (n ← int_of_json cid; mret ({[n]} ∪ ids))
          (fun e => match e with
                    | KeyError | ValueError | TypeError => true
                    | _ => false
                    end)
          (fun _ => mret ids)
      else mret ids
    else mret ids) file_ids items.

(** B) Page items: the page body is scraped for file links *)
Definition harvest_page_items (course_id : Z) (items : list json)
    (file_ids : gset Z) : M (gset Z) :=
  for_each (fun ids it =>
    ty ← py_get it "type";
    if json_is_str "Page" ty then
      slug ← py_get it "page_url";
      if negb (truthy slug) then mret ids else
      pr ← session_get (Request (PageOf course_id slug) None false);
      if status_code pr =? 403 then mret ids else
      _ ← raise_for_status pr;
      page ← resp_json pr;
      b ← py_get page "body";
      body ← expect_str (if truthy b then b else JStr []);
      mret (ids ∪ find_file_ids_in_html (widen body))
    else mret ids) file_ids items.

(** C) Assignment items: the attachments *)
Definition harvest_assignment_items (course_id : Z) (items : list json)
    (file_ids : gset Z) : M (gset Z) :=
  for_each (fun ids it =>
    ty ← py_get it "type";
    if json_is_str "Assignment" ty then
      aid ← py_get it "content_id";
      if negb (truthy aid) then mret ids else
      ar ← session_get (Request (AssignmentOf course_id aid) None false);
      if status_code ar =? 403 then mret ids else
      _ ← raise_for_status ar;
      adata ← resp_json ar;
      a ← py_get adata "attachments";
      atts ← iterate (if truthy a then a else JList []);
      for_each (fun ids att =>
        fid ← py_get att "id";
        match fid with
        | JInt n => mret ({[n]} ∪ ids)
        | JBool b => mret ({[Z.b2z b]} ∪ ids)
        | _ => mret ids
        end) ids atts
    else mret ids) file_ids items.

Inductive strategy : Type := FileItems | PageItems | AssignmentItems.

Definition run_strategy (course_id : Z) (items : list json) (s : strategy)
  : gset Z -> M (gset Z) :=
  match s with
  | FileItems => harvest_file_items items
  | PageItems => harvest_page_items course_id items
  | AssignmentItems => harvest_assignment_items course_id items
  end.

(** The three loops run in a given order on one set. *)
Definition harvest_in_order (order : list strategy) (course_id : Z)
    (items : list json) : M (gset Z) :=
  for_each (fun ids s => run_strategy course_id items s ids) ∅ order.

(** Lines 308 to 342 of [main]. *)
Definition harvest (course_id : Z) (items : list json) : M (gset Z) :=
  harvest_in_order [FileItems; PageItems; AssignmentItems] course_id items.

(** [p / name] of [pathlib], for a [name] without separator, as
    [sanitize] returns them: an empty name adds nothing. *)
Definition path_div (p : path) (name : str) : path :=
  match name with
  | [] => p
  | _ :: _ => p ++ [name]
  end.

Definition st_size (n : node) : Z :=
  match n with
  | File bytes => Z.of_nat (length bytes)
  | Dir size => size
  end.

(** [sorted(file_ids)] *)
Definition sorted (ids : gset Z) : list Z := merge_sort Z.le (elements ids).

(** The body of [for fid in sorted(file_ids)] on the pair
    [(downloaded, skipped)]. *)
Definition download_one (mod_dir : path) (counts : Z * Z) (fid : Z)
  : M (Z * Z) :=
  let '(downloaded, skipped) := counts in
  fr ← session_get (Request (FileOf fid) None false);
  if status_code fr =? 403 then mret counts else
  _ ← raise_for_status fr;
  meta ← resp_json fr;
  dn ← py_get meta "display_name";
  fn ← py_get meta "filename";
  let name := if truthy dn then dn
              else if truthy fn then fn
              else JStr (("file_" : str) ++ Py.str_of_Z fid) in
  u ← py_get meta "url";
  du ← py_get meta "download_url";
  let url := if truthy u then u else du in
  sz ← py_get meta "size";
  size ← int_of_json (if truthy sz then sz else JInt 0);
  if negb (truthy url) then mret counts else
  name ← expect_str name;
  let target := path_div mod_dir (sanitize name) in
  f ← get_fs;
  if bool_decide (is_Some (f !! target)) && negb (size =? 0)
     && bool_decide (st_size <$> f !! target = Some size)
  then mret (downloaded, skipped + 1)
  else
    try_except (_ ← download_to url target; mret (downloaded + 1, skipped))
      is_RequestException
      (fun e => _ ← print (MsgFailed name e); mret counts).

(** Lines 348 to 371 of [main]. *)
Definition download_files (mod_dir : path) (file_ids : gset Z) : M (Z * Z) :=
  for_each (download_one mod_dir) (0, 0) (sorted file_ids).

(** Size reported for a directory that [mkdir] creates. *)
Variable new_dir_size : Z.

(** [p.mkdir(parents=True, exist_ok=True)]: every missing directory on
    the way is created; a file in the way is an error. *)
Definition mkdir_p (p : path) : M unit :=
  for_each (fun _ n =>
    f ← get_fs;
    match f !! take n p with
    | Some (File _) => raise OSError
    | Some (Dir _) => mret tt
    | None => set_fs (<[take n p := Dir new_dir_size]> f)
    end) tt (seq 0 (S (length p))).

(** The head of the body of [for choice in choices]: the module is looked
    up, its directory created, its items listed. *)
Definition open_module (fuel : nat) (course_id : Z) (modules : list json)
    (base_out_dir : path) (choice : Z) : M (path * list json) :=
  mod_ ← py_index modules (choice - 1);
  mid ← py_get mod_ "id";
  nm ← py_get mod_ "name";
  let mod_title := if truthy nm then nm
                   else JStr (("Module " : str) ++ Py.str_of_Z choice) in
  title ← expect_str mod_title;
  let mod_dir := path_div base_out_dir (sanitize title) in
  _ ← mkdir_p mod_dir;
  _ ← print (MsgModule title choice);
  _ ← print (MsgSavingTo mod_dir);
  items ← get_all fuel (ModuleItems course_id mid)
            (Some [("per_page" : str, JInt 100)]);
  mret (mod_dir, items).

(** The body of [for choice in choices] on the pair
    [(grand_downloaded, grand_skipped)]. *)
Definition process_module (fuel : nat) (course_id : Z) (modules : list json)
    (base_out_dir : path) (grand : Z * Z) (choice : Z) : M (Z * Z) :=
  '(mod_dir, items) ← open_module fuel course_id modules base_out_dir choice;
  match items with
  | [] => _ ← print MsgNoItems; mret grand
  | _ :: _ =>
      file_ids ← harvest course_id items;
      if bool_decide (file_ids = ∅) then _ ← print MsgNoFiles; mret grand
      else
        '(downloaded, skipped) ← download_files mod_dir file_ids;
        _ ← print (MsgModuleDone downloaded skipped);
        mret (grand.1 + downloaded, grand.2 + skipped)
  end.

(** Lines 290 to 378 of [main]: the selected modules in turn, then the
    summary. *)
Definition run_modules (fuel : nat) (course_id : Z) (modules : list json)
    (base_out_dir : path) (choices : list Z) : M (Z * Z) :=
  totals ← for_each (process_module fuel course_id modules base_out_dir)
             (0, 0) choices;
  _ ← print (MsgAllDone totals.1 totals.2);
  _ ← print (MsgSavedUnder base_out_dir);
  mret totals.

End Network.

(** ** The specification side: its notions in its own words, and the
    scenarios the statements are tried on *)

Module Spec.

(** The characters the specification lists as illegal in a file name. *)
Definition forbidden (c : ascii) : Prop :=
  c ∈ ["<"; ">"; ":"; dquote; "/"; "\"; "|"; "?"; "*"]%char
  ∨ (Py.code c < 32)%N.

#[global] Instance forbidden_dec c : Decision (forbidden c).
Proof. unfold forbidden. apply _. Defined.

Definition dot_or_space (c : ascii) : bool :=
  Ascii.eqb c "." || Ascii.eqb c " ".

(** Every forbidden character becomes an underscore. *)
Definition replace_forbidden (name : str) : str :=
  map (fun c => if decide (forbidden c) then "_"%char else c) name.

(** Sanitization as the specification words it: the replacement, then
    dots and spaces removed at the end of the name, and nothing else. *)
Definition sanitize_as_specified (name : str) : str :=
  Py.rstrip dot_or_space (replace_forbidden name).

(** A string starts with a decimal digit. *)
Definition starts_with_digit (s : ustr) : bool :=
  match s with
  | [] => false
  | c :: _ => Uni.is_digit c
  end.

(** The text [html] holds the literal [lit] followed by the digits [digs],
    and the run of digits ends there. *)
Definition occurs (lit html digs : ustr) : Prop :=
  ∃ pre rest : ustr,
    html = pre ++ lit ++ digs ++ rest
    ∧ digs ≠ []
    ∧ forallb Uni.is_digit digs = true
    ∧ starts_with_digit rest = false.

(** The number a run of decimal digits denotes. *)
Definition value (digs : ustr) : Z :=
  fold_left (fun acc c => 10 * acc + Uni.digit_val c) digs 0.

(** A run of digits that [int()] reads: it is not longer than the
    interpreter allows. *)
Definition readable (digs : ustr) : Prop :=
  (N.of_nat (length digs) <= Py.int_max_str_digits)%N.

(** The captured groups of [lit(\d+)] at every position of the text where
    the pattern matches, without regard to earlier matches. *)
Fixpoint all_matches (lit s : ustr) : list ustr :=
  match s with
  | [] => []
  | _ :: s' =>
      match Uni.match_at lit s with
      | Some (d, _) => d :: all_matches lit s'
      | None => all_matches lit s'
      end
  end.

(** The numbers one token of a selection denotes: a single number, or
    every number of an inclusive range written in either direction;
    anything else denotes nothing. *)
Definition token_numbers (token : ustr) : list Z :=
  let part := Py.strip Uni.isspace token in
  if Uni.contains part 45 then
    match Uni.split_max1 45 part with
    | [a; b] =>
        match Uni.int a, Uni.int b with
        | Some x, Some y => Py.range (Z.min x y) (Z.max x y + 1)
        | _, _ => []
        end
    | _ => []
    end
  else
    match Uni.int part with
    | Some n => [n]
    | None => []
    end.

Definition in_range (maxnum n : Z) : bool := (1 <=? n) && (n <=? maxnum).

(** The elements of [l] not in [seen], each kept where it comes first. *)
Fixpoint first_occurrences (seen l : list Z) : list Z :=
  match l with
  | [] => []
  | x :: l' =>
      if bool_decide (x ∈ seen) then first_occurrences seen l'
      else x :: first_occurrences (seen ++ [x]) l'
  end.

(** The loop invariant of [parse_choices]: [seen] holds exactly the
    numbers of [nums]. *)
Definition consistent (st : list Z * gset Z) : Prop :=
  ∀ x, x ∈ st.2 <-> x ∈ st.1.

(** The selection a string denotes among [maxnum] modules. *)
Definition selection (raw : ustr) (maxnum : Z) : list Z :=
  first_occurrences []
    (List.filter (in_range maxnum)
       (flat_map token_numbers (Uni.split 44 raw))).

(** *** Link headers *)

(** One link value, [<url>; rel=...] with the relation between double
    quotes. *)
Definition render_entry (e : str * str) : str :=
  ("<" : str) ++ e.1 ++ (">; rel=" : str) ++ [dquote] ++ e.2 ++ [dquote].

(** A Link header: the link values separated by commas. *)
Fixpoint render_link (entries : list (str * str)) : str :=
  match entries with
  | [] => []
  | [e] => render_entry e
  | e :: es => render_entry e ++ ("," : str) ++ render_link es
  end.

(** A URL without comma, semicolon, angle bracket or space. *)
Definition plain_url (u : str) : bool :=
  forallb (fun c => negb (Py.in_chars ",;<> " c)) u.

(** A relation name without comma, semicolon, double quote or white
    space. *)
Definition plain_rel (r : str) : bool :=
  forallb (fun c => negb (Py.in_chars [","; ";"; dquote]%char c)
                    && negb (Py.isspace c)) r.

Definition plain_entries (entries : list (str * str)) : bool :=
  forallb (fun e => plain_url e.1 && plain_rel e.2) entries.

(** The URL a list of link values gives for the relation [next]: the one
    of the last entry with that relation. *)
Definition next_of (entries : list (str * str)) : option str :=
  fold_left (fun acc e => if bool_decide (e.2 = ("next" : str))
                          then Some e.1 else acc) entries None.

(** *** Paginated collections *)

(** One page of a collection: the URL it is served at, the records it
    holds and the link values of its Link header. *)
Record page : Type := Page {
  pg_url : str;
  pg_records : list json;
  pg_links : list (str * str)
}.

(** The body is a raw list of records, or an object holding them under
    the key [items]. *)
Definition holds_records (body : json) (recs : list json) : Prop :=
  body = JList recs
  ∨ ∃ kv, body = JObj kv ∧ dict_get "items" kv = Some (JList recs).

Definition page_request (p : page) (params : option (list (str * json)))
  : request :=
  Request (Url (JStr (pg_url p))) params false.

(** A successful reply that carries the page [p]. *)
Definition page_reply (resp : response) (p : page) : Prop :=
  (status_code resp < 400 ∨ 600 <= status_code resp)
  ∧ (∃ body, json_body resp = Some body ∧ holds_records body (pg_records p))
  ∧ default ([] : str) (headers_get "Link" (headers resp))
    = render_link (pg_links p)
  ∧ plain_entries (pg_links p) = true.

(** Three mock pages: the first and the third are raw lists, the second
    an object with its records under [items]. *)
Definition mock_url (n : Z) : str :=
  ("https://canvas.example.edu/api/v1/courses?page=" : str) ++ Py.str_of_Z n.

Definition mock_pages : list page :=
  [ Page (mock_url 1) [JInt 11; JInt 12]
      [(mock_url 1, "current" : str); (mock_url 2, "next" : str);
       (mock_url 1, "first" : str); (mock_url 3, "last" : str)];
    Page (mock_url 2) [JInt 21]
      [(mock_url 2, "current" : str); (mock_url 3, "next" : str);
       (mock_url 1, "prev" : str); (mock_url 1, "first" : str);
       (mock_url 3, "last" : str)];
    Page (mock_url 3) [JInt 31; JInt 32]
      [(mock_url 3, "current" : str); (mock_url 2, "prev" : str);
       (mock_url 1, "first" : str); (mock_url 3, "last" : str)] ].

Definition mock_server : server := fun _ r =>
  match req_target r with
  | Url (JStr u) =>
      (fun p =>
         Response 200 [("Link" : str, render_link (pg_links p))]
           (Some (if bool_decide (u = mock_url 2)
                  then JObj [("items" : str, JList (pg_records p))]
                  else JList (pg_records p)))
           [] true)
        <$> List.find (fun p => bool_decide (pg_url p = u)) mock_pages
  | _ => None
  end.

Definition mock_params : option (list (str * json)) :=
  Some [("per_page" : str, JInt 100)].

(** *** Link headers as they are written *)

(** One parameter of a link value: a [rel] parameter, its value between
    double quotes or bare, or any other text. *)
Inductive link_param : Type :=
| Rel (quoted : bool) (value : str)
| Other (text : str).

Definition render_param (a : link_param) : str :=
  match a with
  | Rel true v => ("rel=" : str) ++ [dquote] ++ v ++ [dquote]
  | Rel false v => ("rel=" : str) ++ v
  | Other t => t
  end.

(** A link value: a URL and its parameters. *)
Record link_value : Type := LinkValue {
  lv_url : str;
  lv_params : list link_param
}.

(** The segments of a link value: the URL between angle brackets, then
    the parameters. *)
Definition segments (lv : link_value) : list str :=
  (("<" : str) ++ lv_url lv ++ (">" : str)) :: map render_param (lv_params lv).

Fixpoint join (sep : ascii) (parts : list str) : str :=
  match parts with
  | [] => []
  | [p] => p
  | p :: ps => p ++ sep :: join sep ps
  end.

(** [s] is [t] with white space before and after it. *)
Definition padded (s t : str) : Prop :=
  ∃ l r, forallb Py.isspace l = true ∧ forallb Py.isspace r = true
         ∧ s = l ++ t ++ r.

(** [part] writes the link value [lv]: its segments, with any white space
    around each, separated by semicolons. *)
Definition writes_value (part : str) (lv : link_value) : Prop :=
  ∃ segs, Forall2 padded segs (segments lv) ∧ part = join ";" segs.

(** [link] writes the link values [lvs], separated by commas. *)
Definition writes_header (link : str) (lvs : list link_value) : Prop :=
  ∃ parts, Forall2 writes_value parts lvs ∧ link = join "," parts.

(** Neither the first nor the last character of [s] satisfies [p]. *)
Definition clear_ends (p : ascii -> bool) (s : str) : bool :=
  match s with [] => true | c :: _ => negb (p c) end
  && match rev s with [] => true | c :: _ => negb (p c) end.

(** No comma and no semicolon. *)
Definition unbroken (s : str) : bool :=
  forallb (fun c => negb (Py.in_chars ",;" c)) s.

(** A parameter the code reads as it is meant: no comma or semicolon in
    it and no white space at its ends; a [rel] value neither starts nor
    ends with a double quote; any other text does not start with
    [rel=]. *)
Definition plain_param (a : link_param) : bool :=
  unbroken (render_param a) && clear_ends Py.isspace (render_param a)
  && match a with
     | Rel _ v => clear_ends (Py.in_chars [dquote]) v
     | Other t => negb (Py.startswith "rel=" t)
     end.

(** The URL holds no comma or semicolon and neither starts nor ends with
    an angle bracket or a space. *)
Definition plain_value (lv : link_value) : bool :=
  unbroken (lv_url lv) && clear_ends (Py.in_chars "<> ") (lv_url lv)
  && forallb plain_param (lv_params lv).

(** The relation of a link value: the value of its last [rel]
    parameter. *)
Definition rel_of (params : list link_param) : option str :=
  fold_left (fun rel a => match a with Rel _ v => Some v | Other _ => rel end)
    params None.

(** The URL of the last link value whose relation is [next]. *)
Definition next_target (lvs : list link_value) : option str :=
  fold_left (fun next lv =>
               if bool_decide (rel_of (lv_params lv) = Some ("next" : str))
               then Some (lv_url lv) else next) lvs None.

(** *** Pages as they are served *)

(** The records of a body: the list itself, or the list an object holds
    under the key [items]; an object without such a list has none. *)
Definition records_of (body : json) : list json :=
  match body with
  | JList l => l
  | JObj kv => match dict_get "items" kv with
               | Some (JList l) => l
               | _ => []
               end
  | _ => []
  end.

Definition is_collection (body : json) : bool :=
  match body with
  | JList _ | JObj _ => true
  | _ => false
  end.

(** One page as it is served: its URL, its body and the link values of
    its Link header. *)
Record served_page : Type := ServedPage {
  sp_url : str;
  sp_body : json;
  sp_links : list link_value
}.

Definition sp_request (p : served_page) (params : option (list (str * json)))
  : request :=
  Request (Url (JStr (sp_url p))) params false.

(** A successful reply that carries the page [p]; a reply without Link
    header writes no link value. *)
Definition carries (resp : response) (p : served_page) : Prop :=
  (status_code resp < 400 ∨ 600 <= status_code resp)
  ∧ json_body resp = Some (sp_body p)
  ∧ is_collection (sp_body p) = true
  ∧ writes_header (default ([] : str) (headers_get "Link" (headers resp)))
      (sp_links p)
  ∧ forallb plain_value (sp_links p) = true.

(** The remote side serves the pages one after the other: each page but
    the last names the URL of the following one under the relation
    [next], the last one names none. *)
Fixpoint paginates (srv : server) (tr : list event)
    (params : option (list (str * json))) (pages : list served_page) : Prop :=
  match pages with
  | [] => True
  | p :: rest =>
      sp_url p ≠ []
      ∧ (∃ resp, srv tr (sp_request p params) = Some resp ∧ carries resp p)
      ∧ next_target (sp_links p) = sp_url <$> head rest
      ∧ paginates srv (tr ++ [EvGet (sp_request p params)]) None rest
  end.

(** A remote side that answers from a table of URLs. *)
Definition table_server (table : list (str * response)) : server := fun _ r =>
  match req_target r with
  | Url (JStr u) =>
      snd <$> List.find (fun e => bool_decide (e.1 = u)) table
  | _ => None
  end.

(** Three pages whose headers use white space, bare and quoted values and
    further parameters; the second is an object with its records under
    [items], the third an object without that key. *)
Definition wide_link (n : Z) : str :=
  match n with
  | 1 => ("<" : str) ++ mock_url 1 ++ (">; rel=" : str) ++ [dquote]
         ++ ("current" : str) ++ [dquote] ++ (", <" : str) ++ mock_url 2
         ++ (">;rel=next;type=json , <" : str) ++ mock_url 3
         ++ (">; rel=" : str) ++ [dquote] ++ ("last" : str) ++ [dquote]
  | 2 => (" <" : str) ++ mock_url 3 ++ ("> ; title=third ; rel=" : str)
         ++ [dquote] ++ ("next" : str) ++ [dquote]
  | _ => ("<" : str) ++ mock_url 2 ++ (">; rel=" : str) ++ [dquote]
         ++ ("prev" : str) ++ [dquote] ++ (",<" : str) ++ mock_url 1
         ++ (">; REL=next" : str)
  end.

Definition wide_pages : list served_page :=
  [ ServedPage (mock_url 1) (JList [JInt 11; JInt 12])
      [ LinkValue (mock_url 1) [Rel true "current"];
        LinkValue (mock_url 2) [Rel false "next"; Other "type=json"];
        LinkValue (mock_url 3) [Rel true "last"] ];
    ServedPage (mock_url 2)
      (JObj [("total" : str, JInt 3); ("items" : str, JList [JInt 21])])
      [ LinkValue (mock_url 3) [Other "title=third"; Rel true "next"] ];
    ServedPage (mock_url 3) (JObj [("total" : str, JInt 3)])
      [ LinkValue (mock_url 2) [Rel true "prev"];
        LinkValue (mock_url 1) [Other "REL=next"] ] ].

Definition wide_server : server :=
  table_server
    (imap (fun i p =>
             (sp_url p,
              Response 200 [("link" : str, wide_link (Z.of_nat i + 1))]
                (Some (sp_body p)) [] true)) wide_pages).

(** A first page that names the second one under the relation types
    [next] and [last] at once. *)
Definition two_rel_link : str :=
  ("<" : str) ++ mock_url 2 ++ (">; rel=" : str) ++ [dquote]
  ++ ("next last" : str) ++ [dquote].

Definition two_rel_server : server :=
  table_server
    [ (mock_url 1,
       Response 200 [("Link" : str, two_rel_link)]
         (Some (JList [JInt 11; JInt 12])) [] true);
      (mock_url 2, Response 200 [] (Some (JList [JInt 21])) [] true) ].

(** A first page whose next page has a comma in its URL. *)
Definition comma_url : str :=
  "https://canvas.example.edu/api/v1/courses?ids=1,2&page=2".

Definition comma_link : str :=
  ("<" : str) ++ comma_url ++ (">; rel=" : str) ++ [dquote]
  ++ ("next" : str) ++ [dquote].

Definition comma_server : server :=
  table_server
    [ (mock_url 1,
       Response 200 [("Link" : str, comma_link)]
         (Some (JList [JInt 11; JInt 12])) [] true);
      (comma_url, Response 200 [] (Some (JList [JInt 21])) [] true) ].

(** A single page, an object with its records under the key
    [courses]. *)
Definition keyed_server : server :=
  table_server
    [ (mock_url 1,
       Response 200 []
         (Some (JObj [("courses" : str, JList [JInt 11; JInt 12])])) [] true) ].

(** A reply [get_all] can take a page from. *)
Definition page_ok (resp : response) : bool :=
  negb ((400 <=? status_code resp) && (status_code resp <? 600))
  && match json_body resp with
     | Some (JList _) | Some (JObj _) => true
     | _ => false
     end.

Definition next_of_reply (resp : response) : option endpoint :=
  (fun u => Url (JStr u))
    <$> next_link (default ([] : str) (headers_get "Link" (headers resp))).

(** The chain of [next] links that starts at [url] comes to an end: at an
    empty link, at a reply that cannot be used, or after a further page
    whose own chain ends. *)
Inductive chain_ends (srv : server)
  : list event -> option endpoint -> option (list (str * json)) -> Prop :=
| chain_stop tr url params :
    url_truthy url = false -> chain_ends srv tr url params
| chain_broken tr u params :
    url_truthy (Some u) = true ->
    match srv tr (Request u params false) with
    | Some resp => page_ok resp = false
    | None => True
    end ->
    chain_ends srv tr (Some u) params
| chain_next tr u params resp :
    url_truthy (Some u) = true ->
    srv tr (Request u params false) = Some resp ->
    page_ok resp = true ->
    chain_ends srv (tr ++ [EvGet (Request u params false)])
      (next_of_reply resp) None ->
    chain_ends srv tr (Some u) params.

Definition loop_url : str := "https://canvas.example.edu/api/v1/courses?page=1".

(** A remote side whose every page names [loop_url] as the next one. *)
Definition loop_server : server := fun _ _ =>
  Some (Response 200 [("Link" : str, render_link [(loop_url, "next" : str)])]
          (Some (JList [JObj [("id" : str, JInt 1)]])) [] true).

(** A remote side that names a next page until [n] requests were made. *)
Definition counting_server (n : nat) : server := fun tr _ =>
  Some (Response 200
          (if (length tr + 1 <? n)%nat
           then [("Link" : str, render_link [(loop_url, "next" : str)])]
           else [])
          (Some (JList [JInt (Z.of_nat (length tr))])) [] true).

(** *** Downloads *)

(** A computation that leaves the trace as it is: no request, no sleep,
    no output. *)
Definition silent {A} (m : M A) : Prop := ∀ w, trace (m w).1 = trace w.

(** The target can be opened for writing: it is no directory and the
    directory above it exists. *)
Definition writable (f : gmap path node) (target : path) : bool :=
  match f !! target, f !! parent target with
  | Some (Dir _), _ => false
  | _, Some (Dir _) => true
  | _, _ => false
  end.

(** The Content-Length header, if there is one, is a number. *)
Definition length_ok (resp : response) : bool :=
  match headers_get "Content-Length" (headers resp) with
  | None | Some [] => true
  | Some s => bool_decide (is_Some (Py.int s))
  end.

Definition error_status (resp : response) : bool :=
  (400 <=? status_code resp) && (status_code resp <? 600).

Definition download_request (url : json) : request :=
  Request (Url url) None true.

(** The exception a Retry-After value ends a retry with, if any: the
    value is no integer, or [time.sleep] refuses it. *)
Definition retry_after_error (v : option Z) : option exn :=
  match v with
  | None => Some ValueError
  | Some secs =>
      if (secs <? - sleep_max) || (sleep_max <? secs) then Some OverflowError
      else if secs <? 0 then Some ValueError
      else None
  end.

(** A computation that only adds to the trace. *)
Definition extending {A} (m : M A) : Prop :=
  ∀ w, ∃ evs, trace (m w).1 = trace w ++ evs.

(** A remote side that answers 429 with [Retry-After: 7] until the client
    has slept, and with the file afterwards. *)
Definition retry_body : list (list Byte.byte) :=
  [[Byte.x25; Byte.x50; Byte.x44; Byte.x46]; []; [Byte.x2d; Byte.x31]].



Definition retry_dir : path := ["Documents" : str; "Logic" : str; "Week 1" : str].

Definition retry_world : world :=
  World [] (<[retry_dir := Dir 4096]> ∅).

(** *** File metadata *)

(** [display_name], else [filename], else [file_<fid>]. *)
Definition meta_name (fid : Z) (meta : list (str * json)) : json :=
  let dn := default JNull (dict_get "display_name" meta) in
  let fn := default JNull (dict_get "filename" meta) in
  if truthy dn then dn
  else if truthy fn then fn
  else JStr (("file_" : str) ++ Py.str_of_Z fid).

(** [url], else [download_url]. *)
Definition meta_url (meta : list (str * json)) : json :=
  let u := default JNull (dict_get "url" meta) in
  if truthy u then u else default JNull (dict_get "download_url" meta).

(** The reported size, 0 when there is none. *)
Definition meta_size (meta : list (str * json)) : outcome Z :=
  let sz := default JNull (dict_get "size" meta) in
  json_int (if truthy sz then sz else JInt 0).

Definition meta_request (fid : Z) : request :=
  Request (FileOf fid) None false.

(** A file whose metadata reports the size [size], and a world in which
    its target already holds the six bytes of [retry_body]. *)
Definition file_url_text : str := "https://files.example.edu/f/501".

Definition file_url : json := JStr file_url_text.

Definition file_members (size : json) : list (str * json) :=
  [("id" : str, JInt 501);
   ("display_name" : str, JStr "Week 1: Intro/Notes. ");
   ("filename" : str, JStr "notes.pdf");
   ("url" : str, file_url);
   ("size" : str, size)].

Definition file_members_6 : list (str * json) := file_members (JInt 6).

Definition file_meta (size : json) : json := JObj (file_members size).

Definition file_server (size : json) : server := fun _ r =>
  match req_target r with
  | FileOf 501 => Some (Response 200 [] (Some (file_meta size)) [] true)
  | Url _ => Some (Response 200 [] None retry_body true)
  | _ => None
  end.

Definition synced_world : world :=
  World [] (<[retry_dir ++ ["Week 1_ Intro_Notes" : str]
              := File (concat retry_body)]>
              (<[retry_dir := Dir 4096]> ∅)).

(** The skip rule in the specification's words: the target exists, the
    reported size is not zero, and the local size equals it. *)
Definition already_synced (f : gmap path node) (target : path) (size : Z)
  : Prop :=
  ∃ n, f !! target = Some n ∧ size ≠ 0 ∧ st_size n = size.

(** *** Harvesting *)

(** The replies of the remote side do not depend on what happened
    before. *)
Definition stateless (srv : server) : Prop :=
  ∀ tr tr' r, srv tr r = srv tr' r.

(** A step on the set of identifiers that only adds to it, the same
    identifiers whatever the set and the world it starts from; [None] when
    it raises. *)
Definition additive (f : gset Z -> M (gset Z)) : Prop :=
  ∃ c : option (gset Z),
    ∀ ids w, value_of (f ids w) = (fun x => ids ∪ x) <$> c.

(** The module of the end-to-end scenario. *)
Definition scenario_body : str :=
  "<p><a href='https://canvas.example.edu/courses/42/files/502/download'>Slides</a> <img src='x.png' data-api-endpoint='https://canvas.example.edu/api/v1/files/503'></p>".

Definition scenario_items : list json :=
  [ JObj [("id" : str, JInt 1); ("type" : str, JStr "File");
          ("content_id" : str, JInt 501)];
    JObj [("id" : str, JInt 2); ("type" : str, JStr "Page");
          ("page_url" : str, JStr "week-1-overview")];
    JObj [("id" : str, JInt 3); ("type" : str, JStr "Assignment");
          ("content_id" : str, JInt 77)];
    JObj [("id" : str, JInt 4); ("type" : str, JStr "ExternalUrl")] ].

Definition scenario_server : server := fun _ r =>
  match req_target r with
  | PageOf 42 (JStr s) =>
      if bool_decide (s = ("week-1-overview" : str))
      then Some (Response 200 []
                   (Some (JObj [("body" : str, JStr scenario_body)])) [] true)
      else None
  | AssignmentOf 42 (JInt 77) =>
      Some (Response 200 []
              (Some (JObj [("attachments" : str,
                            JList [JObj [("id" : str, JInt 504)]])]))
              [] true)
  | _ => None
  end.

Definition is_object (v : json) : bool :=
  match v with
  | JObj _ => true
  | _ => false
  end.

(** *** Two runs of the module loop *)

Definition run_modules_list : list json :=
  [ JObj [("id" : str, JInt 10); ("name" : str, JStr "Week 1")];
    JObj [("id" : str, JInt 20); ("name" : str, JStr "Week 2")] ].

Definition items_params : option (list (str * json)) :=
  Some [("per_page" : str, JInt 100)].

(** The first module holds a page the remote side fails to serve
    (status 500); the second holds one file that downloads without
    trouble. *)
Definition broken_page_server : server := fun _ r =>
  match req_target r with
  | ModuleItems 42 (JInt 10) =>
      Some (Response 200 []
              (Some (JList [JObj [("id" : str, JInt 2);
                                  ("type" : str, JStr "Page");
                                  ("page_url" : str, JStr "week-1-overview")]]))
              [] true)
  | ModuleItems 42 (JInt 20) =>
      Some (Response 200 []
              (Some (JList [JObj [("id" : str, JInt 1);
                                  ("type" : str, JStr "File");
                                  ("content_id" : str, JInt 501)]]))
              [] true)
  | PageOf 42 _ => Some (Response 500 [] None [] true)
  | FileOf 501 => Some (Response 200 [] (Some (file_meta (JInt 6))) [] true)
  | Url _ => Some (Response 200 [] None retry_body true)
  | _ => None
  end.

Definition course_dir : path := ["Documents" : str; "Logic" : str].

(** Two modules of one file each; the connection breaks when the first
    file is requested. *)
Definition second_file_members : list (str * json) :=
  [("display_name" : str, JStr "b.pdf");
   ("url" : str, JStr "https://files.example.edu/f/502");
   ("size" : str, JInt 6)].

Definition flaky_server : server := fun _ r =>
  match req_target r with
  | ModuleItems 42 (JInt 10) =>
      Some (Response 200 []
              (Some (JList [JObj [("type" : str, JStr "File");
                                  ("content_id" : str, JInt 501)]]))
              [] true)
  | ModuleItems 42 (JInt 20) =>
      Some (Response 200 []
              (Some (JList [JObj [("type" : str, JStr "File");
                                  ("content_id" : str, JInt 502)]]))
              [] true)
  | FileOf 501 => Some (Response 200 [] (Some (file_meta (JInt 6))) [] true)
  | FileOf 502 => Some (Response 200 [] (Some (JObj second_file_members)) [] true)
  | Url (JStr u) =>
      if bool_decide (u = file_url_text) then None
      else Some (Response 200 [] None retry_body true)
  | _ => None
  end.

End Spec.

(** ** Further notions used by the additional properties *)

Module Ext.

(** No entry of a list of link values carries the relation [next]. *)
Definition no_next (entries : list (str * str)) : bool :=
  forallb (fun e => negb (bool_decide (e.2 = ("next" : str)))) entries.

(** The remote side serves the pages one after the other, and the last of
    them names [next] as the URL that follows. *)
Fixpoint serves_until (srv : server) (tr : list event)
    (params : option (list (str * json))) (pages : list Spec.page)
    (next : str) : Prop :=
  match pages with
  | [] => True
  | p :: rest =>
      Spec.pg_url p ≠ []
      ∧ (∃ resp, srv tr (Spec.page_request p params) = Some resp
                 ∧ Spec.page_reply resp p)
      ∧ Spec.next_of (Spec.pg_links p)
        = Some (match rest with [] => next | q :: _ => Spec.pg_url q end)
      ∧ serves_until srv (tr ++ [EvGet (Spec.page_request p params)]) None
          rest next
  end.

(** The requests [get_all] makes for a list of pages. *)
Definition page_requests (params : option (list (str * json)))
    (pages : list Spec.page) : list event :=
  match pages with
  | [] => []
  | p :: rest =>
      EvGet (Spec.page_request p params)
      :: map (fun q => EvGet (Spec.page_request q None)) rest
  end.

Definition first_url (pages : list Spec.page) (next : str) : str :=
  match pages with
  | [] => next
  | p :: _ => Spec.pg_url p
  end.

(** The parameters sent with the request that follows the pages. *)
Definition params_after (params : option (list (str * json)))
    (pages : list Spec.page) : option (list (str * json)) :=
  match pages with
  | [] => params
  | _ :: _ => None
  end.

(** The mock collection of three pages, the third of which is answered
    with status 503. *)
Definition broken_mock_server : server := fun tr r =>
  match req_target r with
  | Url (JStr u) =>
      if bool_decide (u = Spec.mock_url 3)
      then Some (Response 503 [] None [] true)
      else Spec.mock_server tr r
  | _ => None
  end.

(** A remote side whose download stream breaks after two chunks, and one
    that answers 429 with a date in Retry-After. *)
Definition breaking_server : server := fun _ r =>
  match req_target r with
  | FileOf _ => Some (Response 200 [] (Some (Spec.file_meta (JInt 6))) [] true)
  | Url _ =>
      Some (Response 200 []
              None [[Byte.x25; Byte.x50]; [Byte.x44]] false)
  | _ => None
  end.

Definition retry_date : str := "Wed, 21 Oct 2015 07:28:00 GMT".

Definition dated_retry_server : server := fun _ r =>
  match req_target r with
  | FileOf _ => Some (Response 200 [] (Some (Spec.file_meta (JInt 6))) [] true)
  | Url _ => Some (Response 429 [("Retry-After" : str, retry_date)] None [] true)
  | _ => None
  end.

(** Three files that cannot be downloaded: a locked one, one without
    URL, and one without URL whose size is no number. *)
Definition no_url_members : list (str * json) :=
  [("display_name" : str, JInt 7); ("url" : str, JStr []);
   ("size" : str, JStr "12")].

Definition bad_size_members : list (str * json) :=
  [("display_name" : str, JStr "c.pdf"); ("size" : str, JStr "12 KB")].

Definition locked_server : server := fun _ r =>
  match req_target r with
  | FileOf 501 => Some (Response 403 [] None [] true)
  | FileOf 502 => Some (Response 200 [] (Some (JObj no_url_members)) [] true)
  | FileOf 503 => Some (Response 200 [] (Some (JObj bad_size_members)) [] true)
  | _ => None
  end.

(** Every value a computation can return satisfies [Q]. *)
Definition yields {A} (Q : A -> Prop) (m : M A) : Prop :=
  ∀ w w' a, m w = (w', Val a) -> Q a.

(** One step of the download loop leaves the counters as they are or adds
    one to one of them. *)
Definition counted_once (counts counts' : Z * Z) : Prop :=
  counts' = counts
  ∨ counts' = (counts.1 + 1, counts.2)
  ∨ counts' = (counts.1, counts.2 + 1).

(** The file identifiers of the metadata requests among some events, in
    the order of the events. *)
Definition meta_fids (evs : list event) : list Z :=
  flat_map (fun ev => match ev with
                      | EvGet (Request (FileOf fid) _ _) => [fid]
                      | _ => []
                      end) evs.

(** A computation that makes no metadata request. *)
Definition no_meta {A} (m : M A) : Prop :=
  ∀ w, ∃ evs, trace (m w).1 = trace w ++ evs ∧ meta_fids evs = [].

(** A computation that leaves the file system as it is. *)
Definition keeps_fs {A} (m : M A) : Prop := ∀ w, fs (m w).1 = fs w.



(** A module with a locked page (403), a page without slug, a locked
    assignment and a file. *)
Definition locked_items : list json :=
  [ JObj [("type" : str, JStr "Page"); ("page_url" : str, JStr "locked")];
    JObj [("type" : str, JStr "Page")];
    JObj [("type" : str, JStr "Assignment"); ("content_id" : str, JInt 9)];
    JObj [("type" : str, JStr "File"); ("content_id" : str, JStr " 77 ")];
    JObj [("type" : str, JStr "File"); ("content_id" : str, JStr "n/a")] ].

Definition locked_module_server : server := fun _ r =>
  match req_target r with
  | PageOf _ _ => Some (Response 403 [] None [] true)
  | AssignmentOf _ _ => Some (Response 403 [] None [] true)
  | _ => None
  end.

(** Two entries of the same kind: the same directory, or two files. *)
Definition same_kind (n n' : node) : Prop :=
  match n, n' with
  | Dir a, Dir b => a = b
  | File _, File _ => True
  | _, _ => False
  end.

(** Every entry of [f] is still there in [f'], a directory as it was, a
    file as a file. *)
Definition fs_le (f f' : gmap path node) : Prop :=
  ∀ p n, f !! p = Some n -> ∃ n', f' !! p = Some n' ∧ same_kind n n'.

(** A computation that removes no entry and replaces no directory,
    whether it returns or raises. *)
Definition never_deletes {A} (m : M A) : Prop :=
  ∀ w, fs_le (fs w) (fs (m w).1).

(** The title [main] gives a selected module: its name, or
    [Module <choice>] for a missing or empty name; nothing when the module
    is no object or its name no string. *)
Definition module_title (mod_ : json) (choice : Z) : option str :=
  match mod_ with
  | JObj kv =>
      let nm := default JNull (dict_get "name" kv) in
      match (if truthy nm then nm
             else JStr (("Module " : str) ++ Py.str_of_Z choice)) with
      | JStr title => Some title
      | _ => None
      end
  | _ => None
  end.

(** Every directory on the way to [p], and [p], is there. *)
Definition dirs_to (f : gmap path node) (p : path) : Prop :=
  ∀ n, ∃ sz, f !! take n p = Some (Dir sz).

(** A computation that adds to the trace only events that satisfy [P]. *)
Definition emits_only {A} (P : event -> Prop) (m : M A) : Prop :=
  ∀ w, ∃ evs, trace (m w).1 = trace w ++ evs ∧ Forall P evs.

(** The counts an event reports for a module: those of the line printed
    at the end of a module, nothing for any other event. *)
Definition module_done (ev : event) : Z * Z :=
  match ev with
  | EvPrint (MsgModuleDone downloaded skipped) => (downloaded, skipped)
  | _ => (0, 0)
  end.

(** The sums of the counts reported per module among some events. *)
Definition reported (evs : list event) : Z * Z :=
  foldr (fun ev acc => ((module_done ev).1 + acc.1, (module_done ev).2 + acc.2))
    (0, 0) evs.

End Ext.

(** ** [normalize_domain] *)

(** [sub in s] *)
Fixpoint str_contains (sub s : str) : bool :=
  Py.startswith sub s
  || match s with
     | [] => false
     | _ :: s' => str_contains sub s'
     end.

Section NormalizeDomain.

(** [urlparse(d).netloc] of [urllib.parse] *)
Variable netloc : str -> str.

Definition normalize_domain (d : str) : str :=
  let d := Py.strip Py.isspace d in
  if str_contains "://" d then netloc d
  else hd [] (Py.split "/" d).

End NormalizeDomain.

(** ** The choice of a course in [main] *)

(** What the loop prints for a line it does not accept. *)
Inductive notice : Type :=
  | NotInList       (* Please enter a valid number from the list. *)
  | NotANumber.     (* Please enter a valid number. *)

(** The loop [while True: raw = input(...).strip() ...] on the lines that
    remain on the standard input, for a list of [count] courses: the
    notices printed, and the number chosen with the lines left; no number
    when the input ends first ([input] raises [EOFError]). *)
Fixpoint select_course (count : Z) (lines : list ustr)
  : list notice * option (Z * list ustr) :=
  match lines with
  | [] => ([], None)
  | line :: rest =>
      let raw := Py.strip Uni.isspace line in
      match Uni.int raw with
      | Some idx =>
          if (1 <=? idx) && (idx <=? count) then ([], Some (idx, rest))
          else let '(out, r) := select_course count rest in
               (NotInList :: out, r)
      | None =>
          let '(out, r) := select_course count rest in
          (NotANumber :: out, r)
      end
  end.

(** The notice a rejected line gets. *)
Definition notice_for (line : ustr) : notice :=
  match Uni.int (Py.strip Uni.isspace line) with
  | Some _ => NotInList
  | None => NotANumber
  end.

(** The line reads as a number of the list. *)
Definition accepted (count : Z) (line : ustr) : Prop :=
  ∃ idx, Uni.int (Py.strip Uni.isspace line) = Some idx ∧ 1 <= idx <= count.

(** ** [get_all] of [list_canvas_course_content.py] *)

Module Listing.

Section Network.

Variable srv : server.

(** The body of the [while] loop, with its three explicit status tests
    before [raise_for_status]. *)
Definition get_page (url : endpoint) (params : option (list (str * json)))
    (results : list json) : M (list json * option endpoint) :=
  resp ← session_get srv (Request url params false);
  if status_code resp =? 401 then raise (HTTPError 401) else
  if status_code resp =? 403 then raise (HTTPError 403) else
  if status_code resp =? 404 then raise (HTTPError 404) else
  _ ← raise_for_status resp;
  data ← resp_json resp;
  results' ← extend_results results data;
  let link := default ([] : str) (headers_get "Link" (headers resp)) in
  mret (results', (fun u => Url (JStr u)) <$> next_link link).

Fixpoint get_all_loop (fuel : nat) (url : option endpoint)
    (params : option (list (str * json))) (results : list json)
  : M (list json) :=
  match fuel with
  | O => out_of_fuel
  | S fuel' =>
      match url with
      | Some u =>
          if url_truthy url then
            '(results', next_url) ← get_page u params results;
            get_all_loop fuel' next_url None results'
          else mret results
      | None => mret results
      end
  end.

Definition get_all (fuel : nat) (url : endpoint)
    (params : option (list (str * json))) : M (list json) :=
  get_all_loop fuel (Some url) params [].

End Network.

(** [str.lower] on one character of the range U+0000..U+00FF. *)
Definition lower_char (c : ascii) : ascii :=
  if Py.between 65 90 c || (Py.between 192 222 c && negb (Py.code c =? 215)%N)
  then ascii_of_N (Py.code c + 32) else c.

(** [s.replace(a, b)] for single characters. *)
Definition replace_char (a b : ascii) (s : str) : str :=
  map (fun c => if Ascii.eqb c a then b else c) s.

(** The name [main] prints for a folder, from its [full_name] (a string;
    the empty one when there is none): backslashes become slashes, a
    leading [course files/] in any case is cut off, slashes are stripped
    at both ends, and an empty rest is the root. *)
Definition folder_rel (full_name : str) : str :=
  let full := replace_char "\" "/" full_name in
  let prefix : str := "course files/" in
  let rel := if Py.startswith prefix (map lower_char full)
             then drop (length prefix) full else full in
  match Py.strip (Py.in_chars "/") rel with
  | [] => "(Root)" : str
  | rel' => rel'
  end.

End Listing.

(** * Properties *)

Set Warnings "-clear-no-such-hyp".

Arguments Py.is_digit : simpl never.
Arguments Py.isspace : simpl never.
Arguments Py.int_space : simpl never.
Arguments Uni.is_digit : simpl never.
Arguments Uni.isspace : simpl never.
Arguments Uni.int_space : simpl never.

(** ** Stripping *)

Section Strip.

Context {A : Type}.

Variable p : A -> bool.

Lemma lstrip_decompose (s : list A) :
  ∃ lead, s = lead ++ Py.lstrip p s ∧ forallb p lead = true.
Proof.
  induction s as [|c s [lead [IH1 IH2]]]; simpl.
  - by exists [].
  - destruct (p c) eqn:Hc.
    + exists (c :: lead). simpl. rewrite Hc, IH2. by rewrite <- IH1.
    + by exists [].
Qed.

Lemma lstrip_head (s : list A) :
  match Py.lstrip p s with [] => True | c :: _ => p c = false end.
Proof.
  induction s as [|c s IH]; simpl; [done|].
  destruct (p c) eqn:Hc; [done|]. exact Hc.
Qed.

Lemma lstrip_fixed (s : list A) :
  match s with [] => True | c :: _ => p c = false end -> Py.lstrip p s = s.
Proof. destruct s as [|c s]; simpl; [done|]. by intros ->. Qed.

Lemma lstrip_all (s : list A) : forallb p s = true -> Py.lstrip p s = [].
Proof.
  induction s as [|c s IH]; simpl; [done|].
  intros [-> H]%andb_prop. auto.
Qed.

Lemma lstrip_app_keep (s t : list A) c :
  p c = false -> Py.lstrip p (s ++ c :: t) = Py.lstrip p (s ++ [c]) ++ t.
Proof.
  intros Hc. induction s as [|a s IH]; simpl.
  - by rewrite Hc.
  - destruct (p a); [exact IH|]. simpl. by rewrite <- app_assoc.
Qed.

(** [rstrip] unfolds along the string. *)
Lemma rstrip_cons c (s : list A) :
  Py.rstrip p (c :: s) =
    match Py.rstrip p s with
    | [] => if p c then [] else [c]
    | r => c :: r
    end.
Proof.
  unfold Py.rstrip. simpl rev.
  destruct (lstrip_decompose (rev s)) as [lead [Hs Hlead]].
  destruct (Py.lstrip p (rev s)) as [|d r] eqn:Hl.
  - rewrite app_nil_r in Hs. subst lead.
    assert (Py.lstrip p (rev s ++ [c]) = if p c then [] else [c]) as ->.
    { clear Hl. induction (rev s) as [|a l IH]; simpl; [by destruct (p c)|].
      simpl in Hlead. apply andb_prop in Hlead as [-> H]. auto. }
    simpl. by destruct (p c).
  - pose proof (lstrip_head (rev s)) as Hd. rewrite Hl in Hd.
    assert (Py.lstrip p (rev s ++ [c]) = (d :: r) ++ [c]) as ->.
    { rewrite Hs at 1. rewrite <- app_assoc. simpl.
      clear Hs Hl. induction lead as [|a l IH]; simpl.
      - by rewrite Hd.
      - simpl in Hlead. apply andb_prop in Hlead as [-> H]. auto. }
    rewrite rev_app_distr. simpl.
    destruct (rev r ++ [d]) eqn:E; [by destruct (rev r)|done].
Qed.

Lemma rstrip_nil : Py.rstrip p [] = [].
Proof. reflexivity. Qed.

Lemma rstrip_decompose (s : list A) :
  ∃ trail, s = Py.rstrip p s ++ trail ∧ forallb p trail = true.
Proof.
  induction s as [|c s [trail [IH1 IH2]]].
  - by exists [].
  - rewrite rstrip_cons. destruct (Py.rstrip p s) as [|d r] eqn:E.
    + simpl in IH1. subst trail. destruct (p c) eqn:Hc.
      * exists (c :: s). simpl. by rewrite Hc, IH2.
      * by exists s.
    + exists trail. split; [|done]. simpl. by rewrite IH1 at 1.
Qed.

Lemma rstrip_last (s : list A) :
  match rev (Py.rstrip p s) with [] => True | c :: _ => p c = false end.
Proof.
  unfold Py.rstrip. rewrite rev_involutive. apply lstrip_head.
Qed.

Lemma rstrip_fixed (s : list A) :
  match rev s with [] => True | c :: _ => p c = false end ->
  Py.rstrip p s = s.
Proof.
  intros H. unfold Py.rstrip. rewrite lstrip_fixed by done.
  apply rev_involutive.
Qed.

Lemma rstrip_head (s : list A) :
  match s with [] => True | c :: _ => p c = false end ->
  match Py.rstrip p s with [] => s = [] | c :: _ => p c = false end.
Proof.
  destruct s as [|c s]; [done|]. intros Hc. rewrite rstrip_cons.
  destruct (Py.rstrip p s); [by rewrite Hc|done].
Qed.

Lemma strip_head (s : list A) :
  match Py.strip p s with [] => True | c :: _ => p c = false end.
Proof.
  unfold Py.strip. pose proof (lstrip_head s) as H.
  apply rstrip_head in H. by destruct (Py.rstrip p (Py.lstrip p s)).
Qed.

Lemma strip_last (s : list A) :
  match rev (Py.strip p s) with [] => True | c :: _ => p c = false end.
Proof. apply rstrip_last. Qed.

Lemma strip_fixed (s : list A) :
  match s with [] => True | c :: _ => p c = false end ->
  match rev s with [] => True | c :: _ => p c = false end ->
  Py.strip p s = s.
Proof.
  intros H1 H2. unfold Py.strip. rewrite lstrip_fixed by done.
  by apply rstrip_fixed.
Qed.

Lemma strip_idempotent (s : list A) : Py.strip p (Py.strip p s) = Py.strip p s.
Proof. apply strip_fixed; [apply strip_head | apply strip_last]. Qed.

Lemma strip_decompose (s : list A) :
  ∃ lead trail, s = lead ++ Py.strip p s ++ trail
                ∧ forallb p lead = true ∧ forallb p trail = true.
Proof.
  destruct (lstrip_decompose s) as [lead [H1 H2]].
  destruct (rstrip_decompose (Py.lstrip p s)) as [trail [H3 H4]].
  exists lead, trail. unfold Py.strip. by rewrite <- H3.
Qed.

Lemma strip_all (s : list A) : forallb p s = true -> Py.strip p s = [].
Proof. intros H. unfold Py.strip. by rewrite lstrip_all. Qed.

Lemma strip_Forall (P : A -> Prop) (s : list A) :
  Forall P s -> Forall P (Py.strip p s).
Proof.
  intros H. destruct (strip_decompose s) as [lead [trail [E _]]].
  rewrite E in H. apply Forall_app in H as [_ H].
  by apply Forall_app in H as [H _].
Qed.

End Strip.

(** ** [sanitize] *)

Lemma ILLEGAL_forbidden c : _ILLEGAL c = bool_decide (Spec.forbidden c).
Proof. destruct c as [[] [] [] [] [] [] [] []]; vm_compute; reflexivity. Qed.

Lemma sub_class_replace (name : str) :
  Re.sub_class _ILLEGAL "_" name = Spec.replace_forbidden name.
Proof.
  induction name as [|c name IH]; [done|].
  change (Re.sub_class _ILLEGAL "_" (c :: name))
    with ((if _ILLEGAL c then pystr "_" else [c])
            ++ Re.sub_class _ILLEGAL "_" name).
  rewrite IH, ILLEGAL_forbidden. unfold bool_decide. simpl.
  unfold decide. by destruct (Spec.forbidden_dec c).
Qed.

Lemma underscore_allowed : ¬ Spec.forbidden "_".
Proof. by apply (bool_decide_unpack (¬ Spec.forbidden "_")). Qed.

Lemma replace_forbidden_clean (name : str) :
  Forall (fun c => ¬ Spec.forbidden c) (Spec.replace_forbidden name).
Proof.
  induction name as [|c name IH]; simpl; constructor; [|exact IH].
  destruct (decide (Spec.forbidden c)); [apply underscore_allowed|done].
Qed.

Lemma replace_forbidden_id (name : str) :
  Forall (fun c => ¬ Spec.forbidden c) name -> Spec.replace_forbidden name = name.
Proof.
  induction 1 as [|c name Hc _ IH]; simpl; [done|].
  rewrite IH. by destruct (decide (Spec.forbidden c)).
Qed.

Lemma in_chars_dot_space c : Py.in_chars " ." c = Spec.dot_or_space c.
Proof.
  unfold Py.in_chars, Spec.dot_or_space. simpl.
  rewrite orb_false_r. apply orb_comm.
Qed.

Lemma sanitize_unfold (name : str) :
  sanitize name = Py.strip Spec.dot_or_space (Spec.replace_forbidden name).
Proof.
  unfold sanitize. rewrite sub_class_replace.
  unfold Py.strip, Py.rstrip. f_equal.
  assert (∀ s, Py.lstrip (Py.in_chars " .") s = Py.lstrip Spec.dot_or_space s) as E.
  { induction s as [|c s IH]; [done|]. cbn [Py.lstrip].
    by rewrite in_chars_dot_space, IH. }
  by rewrite !E.
Qed.

Lemma sanitize_clean (name : str) :
  Forall (fun c => ¬ Spec.forbidden c) (sanitize name).
Proof.
  rewrite sanitize_unfold. apply strip_Forall, replace_forbidden_clean.
Qed.

Lemma sanitize_idempotent (name : str) : sanitize (sanitize name) = sanitize name.
Proof.
  rewrite (sanitize_unfold (sanitize name)).
  rewrite replace_forbidden_id by apply sanitize_clean.
  rewrite sanitize_unfold. apply strip_idempotent.
Qed.

Lemma replace_forbidden_dots (name : str) :
  forallb Spec.dot_or_space name = true ->
  Spec.replace_forbidden name = name.
Proof.
  intros H. apply replace_forbidden_id.
  apply Forall_forall. intros c Hc.
  rewrite forallb_forall in H. specialize (H c).
  rewrite <- list_elem_of_In in H. specialize (H Hc).
  unfold Spec.dot_or_space in H. apply orb_prop in H.
  destruct H as [H|H]; apply Ascii.eqb_eq in H; subst c;
    [apply (bool_decide_unpack (¬ Spec.forbidden "."))
    |apply (bool_decide_unpack (¬ Spec.forbidden " "))]; done.
Qed.

Lemma sanitize_dots (name : str) :
  forallb Spec.dot_or_space name = true -> sanitize name = [].
Proof.
  intros H. rewrite sanitize_unfold, replace_forbidden_dots by done.
  by apply strip_all.
Qed.

(** C8, as the code has it.  Every character of the nine listed ones and
    every character below U+0020 is replaced by an underscore; from the
    result, dots and spaces are removed at both ends, the leading ones as
    well as the trailing ones; what is left neither starts nor ends with a
    dot or a space, and nothing else is changed.  The name of the
    specification's example becomes the expected one. *)
Theorem C8_sanitize_trims_both_ends :
  (∀ name : str,
      ∃ lead trail : str,
        Spec.replace_forbidden name = lead ++ sanitize name ++ trail
        ∧ forallb Spec.dot_or_space lead = true
        ∧ forallb Spec.dot_or_space trail = true
        ∧ match sanitize name with
          | [] => True
          | c :: _ => Spec.dot_or_space c = false
          end
        ∧ match rev (sanitize name) with
          | [] => True
          | c :: _ => Spec.dot_or_space c = false
          end)
  ∧ sanitize "Week 1: Intro/Notes. " = ("Week 1_ Intro_Notes" : str).
Proof.
  split; [|reflexivity].
  intros name. rewrite sanitize_unfold.
  destruct (strip_decompose Spec.dot_or_space (Spec.replace_forbidden name))
    as [lead [trail [E [H1 H2]]]].
  exists lead, trail. repeat split; try done.
  - apply strip_head.
  - apply strip_last.
Qed.

(** C8 as the specification states it fails: on [.env] the code also
    removes the leading dot, where replacement and trimming at the end
    alone would leave the name as it is. *)
Lemma C8_sanitize_not_trailing_only :
  sanitize ".env" = ("env" : str)
  ∧ Spec.sanitize_as_specified ".env" = (".env" : str)
  ∧ sanitize ".env" ≠ Spec.sanitize_as_specified ".env".
Proof. repeat split; try reflexivity. vm_compute. discriminate. Qed.

(** What is neither replaced nor stripped stays. *)
Lemma sanitize_keeps (s : str) (c : ascii) :
  ¬ Spec.forbidden c -> Spec.dot_or_space c = false ->
  c ∈ s -> c ∈ sanitize s.
Proof.
  intros Hf Hd Hc. rewrite sanitize_unfold.
  assert (c ∈ Spec.replace_forbidden s) as Hr.
  { unfold Spec.replace_forbidden. apply list_elem_of_In, in_map_iff.
    exists c. split; [by rewrite decide_False|by apply list_elem_of_In]. }
  destruct (strip_decompose Spec.dot_or_space (Spec.replace_forbidden s))
    as (lead & trail & E & Hl & Ht).
  rewrite E in Hr. rewrite forallb_forall in Hl, Ht.
  apply elem_of_app in Hr as [Hr|Hr].
  { apply list_elem_of_In, Hl in Hr. congruence. }
  apply elem_of_app in Hr as [Hr|Hr]; [done|].
  apply list_elem_of_In, Ht in Hr. congruence.
Qed.

Lemma upper_controls_allowed (c : ascii) :
  (127 <= Py.code c <= 159)%N ->
  ¬ Spec.forbidden c ∧ Spec.dot_or_space c = false.
Proof.
  intros H.
  assert (bool_decide (¬ Spec.forbidden c) && negb (Spec.dot_or_space c)
          = true) as E.
  { destruct c as [[] [] [] [] [] [] [] []];
      first [ reflexivity | exfalso; vm_compute in H; destruct H; congruence ]. }
  apply andb_prop in E as [E1 E2]. apply bool_decide_eq_true in E1.
  by apply negb_true_iff in E2.
Qed.

(** C10, as the code has it.  The result of [sanitize] holds none of the
    nine listed characters and no character below U+0020; the control
    characters U+007F to U+009F are not in the pattern and stay where they
    are; [sanitize] is idempotent; a name made of dots and spaces only is
    mapped to the empty string, and the target path built from it is the
    module directory itself. *)
Theorem C10_sanitize_safe_idempotent :
  (∀ s : str, Forall (fun c => ¬ Spec.forbidden c) (sanitize s))
  ∧ (∀ (s : str) (c : ascii),
        (127 <= Py.code c <= 159)%N -> c ∈ s -> c ∈ sanitize s)
  ∧ (∀ s : str, sanitize (sanitize s) = sanitize s)
  ∧ (∀ (s : str) (mod_dir : path),
        forallb Spec.dot_or_space s = true ->
        sanitize s = [] ∧ path_div mod_dir (sanitize s) = mod_dir).
Proof.
  split; [exact sanitize_clean|]. split.
  { intros s c Hc. destruct (upper_controls_allowed c Hc).
    by apply sanitize_keeps. }
  split; [exact sanitize_idempotent|].
  intros s mod_dir H. rewrite sanitize_dots by done. by split.
Qed.

Lemma C10_sanitize_safe_idempotent_witness :
  sanitize ". ." = []
  ∧ path_div ["Documents" : str; "Course" : str; "Week 1" : str] (sanitize ". .")
    = ["Documents" : str; "Course" : str; "Week 1" : str].
Proof.
  apply (proj2 (proj2 (proj2 C10_sanitize_safe_idempotent)) (". ." : str)).
  reflexivity.
Defined.

(** C10 as the specification states it fails.  U+007F (delete) and
    U+0085 (next line) are control characters; the pattern [_ILLEGAL]
    ends at U+001F, so [sanitize] returns a name that holds them
    unchanged. *)
Lemma C10_sanitize_keeps_controls :
  sanitize ["a"; "127"; "b"; "133"; "c"]%char
  = ["a"; "127"; "b"; "133"; "c"]%char
  ∧ Py.code "127" = 127%N ∧ Py.code "133" = 133%N.
Proof. repeat split. Qed.

(** ** The page-body scraper *)

Lemma match_literal_spec (lit s r : ustr) :
  Uni.match_literal lit s = Some r <-> s = lit ++ r.
Proof.
  revert s. induction lit as [|a lit IH]; intros s; simpl.
  - split; [by intros [= ->]|by intros ->].
  - destruct s as [|b s]; [done|].
    destruct (N.eqb_spec a b) as [->|E].
    + rewrite IH. split; [by intros ->|by intros [= ->]].
    + split; [done|]. intros [= -> _]. done.
Qed.

Lemma span_digits_spec (s : ustr) :
  s = (Uni.span_digits s).1 ++ (Uni.span_digits s).2
  ∧ forallb Uni.is_digit (Uni.span_digits s).1 = true
  ∧ Spec.starts_with_digit (Uni.span_digits s).2 = false.
Proof.
  induction s as [|c s (IH1 & IH2 & IH3)]; simpl; [done|].
  destruct (Uni.is_digit c) eqn:Hc.
  - destruct (Uni.span_digits s) as [d r]. simpl in *.
    rewrite Hc, IH2. by rewrite IH1 at 1.
  - repeat split. exact Hc.
Qed.

Lemma span_digits_app (d r : ustr) :
  forallb Uni.is_digit d = true -> Spec.starts_with_digit r = false ->
  Uni.span_digits (d ++ r) = (d, r).
Proof.
  intros Hd Hr. induction d as [|c d IH].
  - destruct r as [|c r]; [done|]. cbn in *. by rewrite Hr.
  - cbn in *. apply andb_prop in Hd as [-> Hd]. by rewrite IH.
Qed.

Lemma match_at_spec (lit s d r : ustr) :
  Uni.match_at lit s = Some (d, r) <->
  s = lit ++ d ++ r ∧ d ≠ [] ∧ forallb Uni.is_digit d = true
  ∧ Spec.starts_with_digit r = false.
Proof.
  unfold Uni.match_at. split.
  - destruct (Uni.match_literal lit s) as [t|] eqn:E; [|done].
    apply match_literal_spec in E.
    destruct (span_digits_spec t) as (H1 & H2 & H3).
    destruct (Uni.span_digits t) as [[|c d'] r']; [done|].
    intros [= <- <-]. simpl in *. by rewrite E, H1.
  - intros (-> & Hd & Hdig & Hr).
    assert (Uni.match_literal lit (lit ++ d ++ r) = Some (d ++ r)) as ->
      by by apply match_literal_spec.
    rewrite span_digits_app by done. by destruct d.
Qed.

Lemma match_at_nil (lit : ustr) : Uni.match_at lit [] = None.
Proof. unfold Uni.match_at. by destruct lit. Qed.

(** Whatever the literal, each reported group is a match of the pattern
    somewhere in the text. *)
Lemma finditer_sound (lit html d : ustr) :
  d ∈ Uni.finditer lit html -> Spec.occurs lit html d.
Proof.
  unfold Uni.finditer. generalize (S (length html)) as fuel. intros fuel.
  revert html. induction fuel as [|fuel IH]; intros html; simpl.
  - by intros ?%elem_of_nil.
  - destruct html as [|c s]; [by intros ?%elem_of_nil|].
    destruct (Uni.match_at lit (c :: s)) as [[g r]|] eqn:E.
    + apply match_at_spec in E as (E & Hne & Hd & Hr).
      intros [->|H]%elem_of_cons.
      * by exists [], r.
      * destruct (IH r H) as (pre & rest & -> & H'). rewrite E.
        exists (lit ++ g ++ pre), rest. by rewrite <- !app_assoc.
    + intros H. destruct (IH s H) as (pre & rest & -> & H').
      by exists (c :: pre), rest.
Qed.

Section Scan.

Variable lit : ustr.
Hypothesis lit_nonempty : lit ≠ [].
Hypothesis lit_no_digit : forallb (fun c => negb (Uni.is_digit c)) lit = true.

(** No match of the literal can start so late that a digit of the text
    falls inside the literal. *)
Lemma match_literal_inside (w x : ustr) c :
  (length w < length lit)%nat -> Uni.is_digit c = true ->
  Uni.match_literal lit (w ++ c :: x) = None.
Proof.
  clear lit_nonempty. revert lit lit_no_digit.
  induction w as [|a w IH]; intros l Hl Hlen Hc; simpl in *.
  - destruct l as [|b l]; [simpl in Hlen; lia|]. simpl in *.
    apply andb_prop in Hl as [Hb _].
    destruct (N.eqb_spec b c) as [->|E]; [|done].
    by rewrite Hc in Hb.
  - destruct l as [|b l]; [simpl in Hlen; lia|]. simpl in *.
    apply andb_prop in Hl as [_ Hl].
    destruct (b =? a)%N; [|done]. apply IH; [done|lia|done].
Qed.

Lemma match_at_inside (w x : ustr) c :
  (length w < length lit)%nat -> Uni.is_digit c = true ->
  Uni.match_at lit (w ++ c :: x) = None.
Proof.
  intros. unfold Uni.match_at. by rewrite match_literal_inside.
Qed.

(** Positions inside a match report nothing. *)
Lemma all_matches_skip (w d r : ustr) :
  (length w < length lit)%nat -> d ≠ [] -> forallb Uni.is_digit d = true ->
  Spec.all_matches lit (w ++ d ++ r) = Spec.all_matches lit r.
Proof.
  intros Hlen Hne Hd.
  assert (Spec.all_matches lit (d ++ r) = Spec.all_matches lit r) as Hdigits.
  { clear Hne. induction d as [|c d IH]; [done|].
    simpl in Hd. apply andb_prop in Hd as [Hc Hd].
    change (Spec.all_matches lit ((c :: d) ++ r))
      with (match Uni.match_at lit ([] ++ c :: d ++ r) with
            | Some (g, _) => g :: Spec.all_matches lit (d ++ r)
            | None => Spec.all_matches lit (d ++ r)
            end).
    rewrite match_at_inside; [auto| |done].
    destruct lit; [done|simpl; lia]. }
  induction w as [|a w IH]; [exact Hdigits|].
  destruct d as [|c d]; [done|].
  simpl in Hd. apply andb_prop in Hd as [Hc Hd].
  change (Spec.all_matches lit ((a :: w) ++ (c :: d) ++ r))
    with (match Uni.match_at lit ((a :: w) ++ c :: d ++ r) with
          | Some (g, _) => g :: Spec.all_matches lit (w ++ (c :: d) ++ r)
          | None => Spec.all_matches lit (w ++ (c :: d) ++ r)
          end).
  rewrite match_at_inside by done.
  apply IH. simpl in Hlen. lia.
Qed.

(** The scan that resumes after each match finds every position where the
    pattern matches. *)
Lemma finditer_from_all (fuel : nat) (s : ustr) :
  (length s < fuel)%nat ->
  Uni.finditer_from fuel lit s = Spec.all_matches lit s.
Proof.
  revert s. induction fuel as [|fuel IH]; intros s Hlen; [lia|].
  destruct s as [|c s]; [done|]. simpl in Hlen.
  cbn [Uni.finditer_from Spec.all_matches].
  destruct (Uni.match_at lit (c :: s)) as [[d r]|] eqn:E.
  - apply match_at_spec in E as (E & Hne & Hd & Hr).
    assert (∃ w : ustr, length lit = S (length w) ∧ s = w ++ d ++ r)
      as (w & Hw & ->).
    { clear -E lit_nonempty. destruct lit as [|b l]; [done|].
      simpl in E. injection E as -> ->. eauto. }
    rewrite IH by (rewrite !length_app in Hlen; lia).
    f_equal. symmetry. apply all_matches_skip; [lia|done|done].
  - apply IH. lia.
Qed.

Lemma finditer_all (s : ustr) : Uni.finditer lit s = Spec.all_matches lit s.
Proof. apply finditer_from_all. lia. Qed.

Lemma all_matches_elem (s d : ustr) :
  d ∈ Spec.all_matches lit s <->
  ∃ pre t r : ustr, s = pre ++ t ∧ Uni.match_at lit t = Some (d, r).
Proof.
  split.
  - induction s as [|c s IH]; [by intros ?%elem_of_nil|].
    cbn [Spec.all_matches].
    destruct (Uni.match_at lit (c :: s)) as [[g r]|] eqn:E.
    + intros [->|H]%elem_of_cons.
      * by exists [], (c :: s), r.
      * destruct (IH H) as (pre & t & r' & -> & Ht).
        by exists (c :: pre), t, r'.
    + intros H. destruct (IH H) as (pre & t & r' & -> & Ht).
      by exists (c :: pre), t, r'.
  - intros (pre & t & r & -> & Ht).
    induction pre as [|a pre IH].
    + destruct t as [|c t]; [by rewrite match_at_nil in Ht|].
      simpl. rewrite Ht. apply elem_of_cons. by left.
    + cbn [app Spec.all_matches].
      destruct (Uni.match_at lit (a :: pre ++ t)) as [[g r']|];
        [apply elem_of_cons; by right|done].
Qed.

Lemma finditer_occurs (html d : ustr) :
  d ∈ Uni.finditer lit html <-> Spec.occurs lit html d.
Proof.
  rewrite finditer_all, all_matches_elem. unfold Spec.occurs. split.
  - intros (pre & t & r & -> & Ht). apply match_at_spec in Ht as (-> & ?).
    by exists pre, r.
  - intros (pre & rest & -> & H). exists pre, (lit ++ d ++ rest), rest.
    split; [done|]. by apply match_at_spec.
Qed.

End Scan.

(** *** The decimal digits *)

Lemma decimal_range (c d : N) :
  Uni.decimal c = Some d ->
  ∃ z, In z Uni.decimal_zeros ∧ (c = z + d ∧ d < 10)%N.
Proof.
  unfold Uni.decimal.
  destruct (List.find _ Uni.decimal_zeros) as [z|] eqn:E; [|done].
  apply find_some in E as [Hz Hc]. intros [= <-]. exists z. split; [done|].
  apply andb_prop in Hc as [H1%N.leb_le H2%N.ltb_lt]. lia.
Qed.

(** No digit is white space, a sign or an underscore. *)
Lemma digits_apart :
  forallb (fun z =>
             forallb (fun d => negb (Uni.int_space (z + d))
                               && negb (Uni.isspace (z + d))
                               && negb (z + d =? 45)%N
                               && negb (z + d =? 43)%N
                               && negb (z + d =? 95)%N)
               [0; 1; 2; 3; 4; 5; 6; 7; 8; 9]%N)
    Uni.decimal_zeros = true.
Proof. vm_compute. reflexivity. Qed.

Lemma digit_apart (c : N) :
  Uni.is_digit c = true ->
  Uni.int_space c = false ∧ Uni.isspace c = false
  ∧ c ≠ 45%N ∧ c ≠ 43%N ∧ c ≠ 95%N.
Proof.
  unfold Uni.is_digit. destruct (Uni.decimal c) as [d|] eqn:E; [|done].
  intros _. apply decimal_range in E as (z & Hz & -> & Hd).
  pose proof digits_apart as H. rewrite forallb_forall in H.
  specialize (H z Hz). rewrite forallb_forall in H.
  assert (In d [0; 1; 2; 3; 4; 5; 6; 7; 8; 9]%N) as Hin.
  { assert (d = 0 ∨ d = 1 ∨ d = 2 ∨ d = 3 ∨ d = 4 ∨ d = 5 ∨ d = 6 ∨ d = 7
            ∨ d = 8 ∨ d = 9)%N as Hc by lia.
    cbn. intuition auto. }
  specialize (H d Hin).
  apply andb_prop in H as [[[[H1 H0]%andb_prop H2]%andb_prop H3]%andb_prop H4].
  apply negb_true_iff in H0, H1, H2, H3, H4.
  apply N.eqb_neq in H2, H3, H4. done.
Qed.

(** *** [int] on a run of digits *)

Lemma int_body_digits (d : ustr) (acc : Z) (prev : bool) :
  forallb Uni.is_digit d = true -> d ≠ [] ∨ prev = true ->
  Uni.int_body prev acc d
  = Some (fold_left (fun a c => 10 * a + Uni.digit_val c) d acc).
Proof.
  revert acc prev. induction d as [|c d IH]; intros acc prev Hd Hne.
  - destruct Hne as [?| ->]; done.
  - cbn in *. apply andb_prop in Hd as [-> Hd]. apply IH; auto.
Qed.

Lemma int_literal_digit c (d : ustr) :
  Uni.is_digit c = true ->
  Uni.int_literal (c :: d) = Uni.int_body false 0 (c :: d).
Proof.
  intros (_ & _ & H1 & H2 & _)%digit_apart. unfold Uni.int_literal.
  apply N.eqb_neq in H1, H2. by rewrite H1, H2.
Qed.

Lemma filter_all {A} (p : A -> bool) (l : list A) :
  forallb p l = true -> List.filter p l = l.
Proof.
  induction l as [|x l IH]; [done|]. cbn.
  intros [-> H]%andb_prop. by rewrite IH.
Qed.

Lemma int_digits (d : ustr) :
  d ≠ [] -> forallb Uni.is_digit d = true ->
  Uni.int d
  = if (Py.int_max_str_digits <? N.of_nat (length d))%N then None
    else Some (Spec.value d).
Proof.
  intros Hne Hd. unfold Uni.int. cbv zeta.
  assert (Forall (fun c => Uni.int_space c = false) d) as Hsp.
  { apply Forall_forall. intros c Hc. apply digit_apart.
    rewrite forallb_forall in Hd. apply Hd. by apply list_elem_of_In. }
  rewrite strip_fixed.
  - rewrite filter_all by done.
    destruct (_ <? _)%N; [done|].
    destruct d as [|c d]; [done|].
    rewrite int_literal_digit by (simpl in Hd; by apply andb_prop in Hd as [? _]).
    by apply int_body_digits; [|left].
  - destruct d as [|c d]; [done|]. by inversion Hsp.
  - apply Forall_rev in Hsp. destruct (rev d) as [|c r]; [done|]. by inversion Hsp.
Qed.

Lemma int_digits_Some (d : ustr) (n : Z) :
  d ≠ [] -> forallb Uni.is_digit d = true ->
  Uni.int d = Some n <-> Spec.readable d ∧ n = Spec.value d.
Proof.
  intros Hne Hd. rewrite int_digits by done. unfold Spec.readable.
  destruct (N.ltb_spec Py.int_max_str_digits (N.of_nat (length d))).
  - split; [done|]. intros [? _]. lia.
  - split; [by intros [= <-]|]. by intros [_ ->].
Qed.

Lemma add_matches_elem (n : Z) (ids : gset Z) (groups : list ustr) :
  n ∈ add_matches ids groups <->
  n ∈ ids ∨ ∃ g : ustr, g ∈ groups ∧ Uni.int g = Some n.
Proof.
  unfold add_matches. revert ids.
  induction groups as [|g groups IH]; intros ids; simpl.
  - split; [by left|]. intros [H|(g & Hg & _)]; [done|].
    by apply elem_of_nil in Hg.
  - rewrite IH. split.
    + intros [H|(g' & Hg' & Hn)].
      * destruct (Uni.int g) as [m|] eqn:E; [|by left].
        apply elem_of_union in H as [->%elem_of_singleton|H]; [|by left].
        right. exists g. split; [apply elem_of_cons; by left|done].
      * right. exists g'. split; [apply elem_of_cons; by right|done].
    + intros [H|(g' & [->|Hg']%elem_of_cons & Hn)].
      * left. destruct (Uni.int g); [|done]. apply elem_of_union. by right.
      * left. rewrite Hn. apply elem_of_union. left. by apply elem_of_singleton.
      * right. by exists g'.
Qed.

Lemma occurs_int (lit html : ustr) (n : Z) :
  (∃ g : ustr, Spec.occurs lit html g ∧ Uni.int g = Some n) <->
  (∃ digs : ustr,
      Spec.occurs lit html digs ∧ Spec.readable digs ∧ n = Spec.value digs).
Proof.
  split.
  - intros (g & Hocc & Hn). exists g. split; [done|].
    destruct Hocc as (pre & rest & _ & Hne & Hd & _).
    by apply int_digits_Some.
  - intros (g & Hocc & Hr & Hn). exists g. split; [done|].
    destruct Hocc as (pre & rest & _ & Hne & Hd & _).
    by apply int_digits_Some.
Qed.

Lemma occurs_api_files (html digs : ustr) :
  Spec.occurs "/api/v1/files/" html digs -> Spec.occurs "/files/" html digs.
Proof.
  intros (pre & rest & -> & H). exists (pre ++ ("/api/v1" : ustr)), rest.
  split; [|done]. by rewrite <- app_assoc.
Qed.

Lemma finditer_files (html d : ustr) :
  d ∈ Uni.finditer "/files/" html <-> Spec.occurs "/files/" html d.
Proof. apply finditer_occurs; [discriminate|vm_compute; reflexivity]. Qed.

Lemma finditer_api_files (html d : ustr) :
  d ∈ Uni.finditer "/api/v1/files/" html -> Spec.occurs "/files/" html d.
Proof. intros H. by apply occurs_api_files, finditer_sound. Qed.

Lemma find_file_ids_elem (html : ustr) (n : Z) :
  n ∈ find_file_ids_in_html html <->
  ∃ digs : ustr,
    (Spec.occurs "/files/" html digs ∨ Spec.occurs "/api/v1/files/" html digs)
    ∧ Spec.readable digs ∧ n = Spec.value digs.
Proof.
  unfold find_file_ids_in_html. rewrite !add_matches_elem.
  setoid_rewrite finditer_files. split.
  - intros [[H|H]|(g & H1%finditer_api_files & H2)]; [set_solver| |].
    + apply occurs_int in H as (d & H & Hn). eauto.
    + destruct (proj1 (occurs_int _ _ _) (ex_intro _ g (conj H1 H2)))
        as (d & H & Hn). eauto.
  - intros (d & [H|H%occurs_api_files] & Hn); left; right;
      apply occurs_int; eauto.
Qed.

(** C2, as the code has it.  The characters of a text are Unicode code
    points and its digits the decimal digits of Unicode.  An integer is
    returned exactly when the text holds [/files/] or [/api/v1/files/]
    followed by a run of digits with that value which [int()] reads, that
    is, one of at most 4300 digits; the second shape adds nothing the first
    has not found; whatever follows the run of digits does not matter;
    repeated references collapse, the [/download] form is covered and
    [/filestore/123] gives nothing. *)
Theorem C2_find_file_ids_exact :
  (∀ (html : ustr) (n : Z),
      n ∈ find_file_ids_in_html html <->
      ∃ digs : ustr,
        (Spec.occurs "/files/" html digs
         ∨ Spec.occurs "/api/v1/files/" html digs)
        ∧ Spec.readable digs
        ∧ n = Spec.value digs)
  ∧ (∀ html : ustr,
        find_file_ids_in_html html
        = add_matches ∅ (Uni.finditer "/files/" html))
  ∧ (∀ pre digs rest : ustr,
        digs ≠ [] -> forallb Uni.is_digit digs = true ->
        Spec.readable digs ->
        Spec.starts_with_digit rest = false ->
        Spec.value digs
          ∈ find_file_ids_in_html (pre ++ ("/files/" : ustr) ++ digs ++ rest))
  ∧ elements (find_file_ids_in_html
                "<a href='/files/7'>a</a> /files/7/download /api/v1/files/007")
    = [7]
  ∧ elements (find_file_ids_in_html "/courses/1/files/502/download") = [502]
  ∧ elements (find_file_ids_in_html "/filestore/123") = []
  ∧ elements (find_file_ids_in_html
                (("/files/" : ustr) ++ [1633; 1634; 1779]%N ++ ("/x" : ustr)))
    = [123].
Proof.
  split; [exact find_file_ids_elem|]. split; [|split].
  - intros html. apply set_eq. intros n.
    rewrite find_file_ids_elem, add_matches_elem.
    setoid_rewrite finditer_files. rewrite occurs_int. split.
    + intros (d & [H|H%occurs_api_files] & Hn); right; eauto.
    + intros [H|(d & H & Hn)]; [set_solver|eauto].
  - intros pre digs rest Hne Hd Hrd Hr. apply find_file_ids_elem.
    exists digs. split; [left|done]. by exists pre, rest.
  - repeat split; vm_compute; reflexivity.
Qed.

Lemma C2_find_file_ids_exact_witness :
  502 ∈ find_file_ids_in_html "see /courses/1/files/502/download".
Proof.
  apply (proj1 (proj2 (proj2 C2_find_file_ids_exact))
           ("see /courses/1" : ustr) ("502" : ustr) ("/download" : ustr));
    [discriminate|reflexivity|vm_compute; discriminate|reflexivity].
Defined.

(** C2 as the specification states it fails.  The text holds [/files/]
    followed by 4301 digits, 4300 zeros and a seven: one occurrence, whose
    digits denote 7.  [int()] rejects a string of more than 4300 digits,
    the [ValueError] is passed over, and nothing is returned. *)
Lemma C2_long_digit_run_dropped :
  let digs : ustr := repeat 48%N 4300 ++ [55%N] in
  let html : ustr := ("/files/" : ustr) ++ digs in
  Spec.occurs "/files/" html digs
  ∧ Spec.value digs = 7
  ∧ find_file_ids_in_html html = ∅.
Proof.
  intros digs html. split; [|split].
  - exists [], []. split; [by rewrite app_nil_r|].
    split; [done|]. split; [vm_compute; reflexivity|done].
  - vm_compute. reflexivity.
  - vm_compute. reflexivity.
Qed.

(** ** [parse_choices] *)

Lemma range_elem (lo hi n : Z) : n ∈ Py.range lo hi <-> lo <= n < hi.
Proof.
  unfold Py.range. rewrite list_elem_of_In, in_map_iff. split.
  - intros (i & <- & Hi). apply in_seq in Hi. lia.
  - intros H. exists (Z.to_nat (n - lo)). split; [lia|].
    apply in_seq. lia.
Qed.

Lemma first_occurrences_elem (seen l : list Z) (x : Z) :
  x ∈ Spec.first_occurrences seen l <-> x ∈ l ∧ x ∉ seen.
Proof.
  revert seen. induction l as [|y l IH]; intros seen; simpl.
  - split; [by intros ?%elem_of_nil|by intros [?%elem_of_nil _]].
  - case_bool_decide as Hy.
    + rewrite IH, elem_of_cons. intuition (subst; try done; auto).
    + rewrite !elem_of_cons, IH, elem_of_app, list_elem_of_singleton.
      destruct (decide (x = y)); intuition (subst; try done; auto).
Qed.

Lemma first_occurrences_NoDup (seen l : list Z) :
  NoDup (Spec.first_occurrences seen l).
Proof.
  revert seen. induction l as [|y l IH]; intros seen; simpl.
  - constructor.
  - case_bool_decide; [apply IH|]. constructor; [|apply IH].
    rewrite first_occurrences_elem, elem_of_app, list_elem_of_singleton.
    intros [_ []]. auto.
Qed.

Section Choices.

Variable maxnum : Z.

Lemma add_choice_fold (l : list Z) (st : list Z * gset Z) :
  Spec.consistent st ->
  (fold_left (add_choice maxnum) l st).1
  = st.1 ++ Spec.first_occurrences st.1 (List.filter (Spec.in_range maxnum) l)
  ∧ Spec.consistent (fold_left (add_choice maxnum) l st).
Proof.
  revert st. induction l as [|n l IH]; intros [nums seen] Hst; simpl.
  - by rewrite app_nil_r.
  - unfold Spec.in_range at 1 3.
    destruct ((1 <=? n) && (n <=? maxnum)) eqn:Hr; simpl.
    + case_bool_decide as Hn; simpl.
      * rewrite bool_decide_true by by apply Hst. by apply IH.
      * rewrite bool_decide_false by (intros ?; by apply Hn, Hst).
        destruct (IH (nums ++ [n], {[n]} ∪ seen)) as [E1 E2].
        { intros x. simpl. rewrite elem_of_union, elem_of_singleton,
            elem_of_app, list_elem_of_singleton. specialize (Hst x).
          simpl in Hst. tauto. }
        split; [|done]. rewrite E1. simpl. by rewrite <- app_assoc.
    + by apply IH.
Qed.

(** One token adds its numbers in order. *)
Lemma parse_part_tokens (st : list Z * gset Z) (part : ustr) :
  parse_part maxnum st part
  = fold_left (add_choice maxnum) (Spec.token_numbers part) st.
Proof.
  unfold parse_part, Spec.token_numbers.
  destruct (Py.strip Uni.isspace part) as [|c s] eqn:E; [done|].
  destruct (Uni.contains (c :: s) 45).
  - destruct (Uni.split_max1 45 (c :: s)) as [|a [|b [|? ?]]]; try done.
    destruct (Uni.int a) as [x|]; [|done].
    destruct (Uni.int b) as [y|]; [|done].
    destruct (x >? y) eqn:Hxy.
    + by rewrite Z.min_r, Z.max_l by lia.
    + by rewrite Z.min_l, Z.max_r by lia.
  - by destruct (Uni.int (c :: s)).
Qed.

Lemma parse_parts_tokens (parts : list ustr) (st : list Z * gset Z) :
  fold_left (parse_part maxnum) parts st
  = fold_left (add_choice maxnum) (flat_map Spec.token_numbers parts) st.
Proof.
  revert st. induction parts as [|p parts IH]; intros st; simpl; [done|].
  by rewrite fold_left_app, IH, parse_part_tokens.
Qed.

Lemma parse_choices_selection (raw : ustr) :
  parse_choices raw maxnum = Spec.selection raw maxnum.
Proof.
  unfold parse_choices, Spec.selection. rewrite parse_parts_tokens.
  by destruct (add_choice_fold (flat_map Spec.token_numbers (Uni.split 44 raw))
                 ([], ∅)) as [-> _]; [intros x; set_solver|].
Qed.

End Choices.

(** A token that is a run of digits denotes their value when [int()]
    reads it, and nothing when it is too long. *)
Lemma token_numbers_digits (token : ustr) :
  token ≠ [] -> forallb Uni.is_digit token = true ->
  Spec.token_numbers token
  = if (Py.int_max_str_digits <? N.of_nat (length token))%N then []
    else [Spec.value token].
Proof.
  intros Hne Hd. unfold Spec.token_numbers. cbv zeta.
  assert (Forall (fun c => Uni.isspace c = false ∧ c ≠ 45%N) token) as Hsp.
  { apply Forall_forall. intros c Hc.
    rewrite forallb_forall in Hd. specialize (Hd c).
    rewrite <- list_elem_of_In in Hd.
    destruct (digit_apart c (Hd Hc)) as (_ & ? & ? & _). done. }
  rewrite strip_fixed.
  - replace (Uni.contains token 45) with false.
    + rewrite int_digits by done. by destruct (_ <? _)%N.
    + symmetry. apply not_true_is_false. unfold Uni.contains.
      intros (c & Hc & E%N.eqb_eq)%existsb_exists. subst c.
      rewrite Forall_forall in Hsp. apply list_elem_of_In in Hc.
      by destruct (Hsp _ Hc).
  - destruct token as [|c d]; [done|]. by inversion Hsp as [|?? [? _]].
  - apply Forall_rev in Hsp. destruct (rev token) as [|c r]; [done|].
    by inversion Hsp as [|?? [? _]].
Qed.

(** C7, as the code has it.  The characters of a selection are Unicode
    code points.  [parse_choices] returns the numbers the tokens denote,
    restricted to 1..maxnum, each once and in the order of first
    occurrence; a token denotes what [int()] reads from it or from the two
    sides of its first hyphen, so that a run of digits denotes its value
    when it has at most 4300 digits and nothing when it has more; the
    examples of the specification come out as stated. *)
Theorem C7_parse_choices_selection :
  (∀ (raw : ustr) (maxnum : Z),
      parse_choices raw maxnum = Spec.selection raw maxnum
      ∧ NoDup (parse_choices raw maxnum)
      ∧ ∀ n : Z, n ∈ parse_choices raw maxnum <->
                 1 <= n <= maxnum
                 ∧ ∃ token : ustr, token ∈ Uni.split 44 raw
                                   ∧ n ∈ Spec.token_numbers token)
  ∧ (∀ token : ustr,
        token ≠ [] -> forallb Uni.is_digit token = true ->
        Spec.token_numbers token
        = if (Py.int_max_str_digits <? N.of_nat (length token))%N then []
          else [Spec.value token])
  ∧ (∀ maxnum : Z,
        9 <= maxnum ->
        parse_choices "8,9,6" maxnum = [8; 9; 6]
        ∧ parse_choices "5-7" maxnum = [5; 6; 7]
        ∧ parse_choices "7-5" maxnum = [5; 6; 7])
  ∧ parse_choices "8, 0,9,77777777,x,6 ,8,3-y" 9 = [8; 9; 6]
  ∧ parse_choices [1640; 44; 8195; 1785; 12288]%N 9 = [8; 9]
  ∧ (∀ maxnum : Z, parse_choices "abc" maxnum = []).
Proof.
  split; [|split; [exact token_numbers_digits|split; [|split; [reflexivity|]]]].
  - intros raw maxnum. rewrite parse_choices_selection. unfold Spec.selection.
    split; [done|]. split; [apply first_occurrences_NoDup|].
    intros n. rewrite first_occurrences_elem, list_elem_of_In, filter_In.
    rewrite in_flat_map. unfold Spec.in_range.
    rewrite andb_true_iff, !Z.leb_le. split.
    + intros [[(t & Ht & Hn) Hr] _]. split; [done|].
      exists t. by rewrite !list_elem_of_In.
    + intros [Hr (t & Ht & Hn)]. split; [|by intros ?%elem_of_nil].
      split; [|done]. exists t. by rewrite <- !list_elem_of_In.
  - intros maxnum H. rewrite !parse_choices_selection. unfold Spec.selection.
    repeat split.
    all: match goal with
         | |- Spec.first_occurrences [] (List.filter _ ?l) = _ =>
             let l' := eval vm_compute in l in change l with l'
         end.
    all: unfold Spec.in_range; cbn [List.filter].
    all: repeat match goal with
           | |- context [?a <=? ?b] =>
               first [ rewrite (Zle_imp_le_bool a b) by lia
                     | replace (a <=? b) with false by lia ]
           end.
    all: reflexivity.
  - split; [reflexivity|].
    intros maxnum. rewrite parse_choices_selection. reflexivity.
Qed.

Lemma C7_parse_choices_selection_witness :
  parse_choices "8,9,6" 12 = [8; 9; 6]
  ∧ parse_choices "5-7" 12 = [5; 6; 7]
  ∧ parse_choices "7-5" 12 = [5; 6; 7].
Proof.
  apply (proj1 (proj2 (proj2 C7_parse_choices_selection)) 12). lia.
Defined.

(** C7 as the specification states it fails.  The selection is one
    token of 4301 digits, 4300 zeros and a five: a numeric token, whose
    number 5 lies in 1..9.  [int()] rejects a string of more than 4300
    digits, the [ValueError] is passed over, and nothing is selected. *)
Lemma C7_long_number_dropped :
  let raw : ustr := repeat 48%N 4300 ++ [53%N] in
  forallb Uni.is_digit raw = true
  ∧ Spec.value raw = 5
  ∧ parse_choices raw 9 = [].
Proof. split; [|split]; vm_compute; reflexivity. Qed.

(** ** Splitting and the Link header *)

Lemma split_no_sep (sep : ascii) (s : str) :
  Py.in_chars s sep = false -> Py.split sep s = [s].
Proof.
  induction s as [|c s IH]; simpl; [done|].
  rewrite Ascii.eqb_sym. destruct (Ascii.eqb c sep); [done|].
  simpl. intros H. by rewrite IH.
Qed.

Lemma split_app_sep (sep : ascii) (a b : str) :
  Py.in_chars a sep = false ->
  Py.split sep (a ++ sep :: b) = a :: Py.split sep b.
Proof.
  induction a as [|c a IH]; simpl.
  - by rewrite Ascii.eqb_refl.
  - rewrite Ascii.eqb_sym. destruct (Ascii.eqb c sep); [done|].
    simpl. intros H. by rewrite IH.
Qed.

Lemma in_chars_app (a b : str) c :
  Py.in_chars (a ++ b) c = Py.in_chars a c || Py.in_chars b c.
Proof. unfold Py.in_chars. apply existsb_app. Qed.

Lemma rstrip_snoc (p : ascii -> bool) (s : str) c :
  Py.rstrip p (s ++ [c]) = if p c then Py.rstrip p s else s ++ [c].
Proof.
  unfold Py.rstrip. rewrite rev_app_distr. simpl.
  destruct (p c); [done|]. simpl. by rewrite rev_involutive.
Qed.

(** Stripping a set of characters off a string that is wrapped in two of
    them and holds none. *)
Lemma strip_wrapped (p : ascii -> bool) (s : str) a b :
  p a = true -> p b = true -> forallb (fun c => negb (p c)) s = true ->
  Py.strip p (a :: s ++ [b]) = s.
Proof.
  intros Ha Hb Hs. unfold Py.strip. simpl. rewrite Ha.
  destruct s as [|c s]; simpl.
  - by rewrite Hb.
  - simpl in Hs. apply andb_prop in Hs as [Hc Hs].
    apply negb_true_iff in Hc. rewrite Hc.
    change (c :: s ++ [b]) with ((c :: s) ++ [b]).
    rewrite rstrip_snoc, Hb. apply rstrip_fixed.
    assert (Forall (fun c => p c = false) (rev (c :: s))) as H.
    { apply Forall_rev. constructor; [done|].
      apply Forall_forall. intros x Hx. apply negb_true_iff.
      rewrite forallb_forall in Hs. apply Hs. by apply list_elem_of_In. }
    destruct (rev (c :: s)); [done|]. by inversion H.
Qed.

Section Link.

Implicit Types (u r : str) (e : str * str).

Lemma plain_url_chars u c :
  Spec.plain_url u = true -> Py.in_chars ",;<> " c = true ->
  Py.in_chars u c = false.
Proof.
  intros Hu Hc. apply not_true_is_false. intros H.
  apply existsb_exists in H as (x & Hx & E).
  apply Ascii.eqb_eq in E as <-.
  unfold Spec.plain_url in Hu. rewrite forallb_forall in Hu.
  specialize (Hu c Hx). by rewrite Hc in Hu.
Qed.

Lemma plain_rel_chars r c :
  Spec.plain_rel r = true ->
  Py.in_chars [","; ";"; dquote]%char c = true ∨ Py.isspace c = true ->
  Py.in_chars r c = false.
Proof.
  intros Hr Hc. apply not_true_is_false. intros H.
  apply existsb_exists in H as (x & Hx & E).
  apply Ascii.eqb_eq in E as <-.
  unfold Spec.plain_rel in Hr. rewrite forallb_forall in Hr.
  specialize (Hr c Hx). apply andb_prop in Hr as [H1 H2].
  destruct Hc as [Hc|Hc]; rewrite Hc in *; done.
Qed.

Lemma render_entry_no_comma e :
  Spec.plain_url e.1 = true -> Spec.plain_rel e.2 = true ->
  Py.in_chars (Spec.render_entry e) "," = false.
Proof.
  intros Hu Hr. unfold Spec.render_entry.
  rewrite !in_chars_app, (plain_url_chars e.1), (plain_rel_chars e.2); auto.
Qed.

(** The segments of one link value, stripped. *)
Lemma entry_segments e :
  Spec.plain_url e.1 = true -> Spec.plain_rel e.2 = true ->
  map (Py.strip Py.isspace) (Py.split ";" (Spec.render_entry e))
  = [("<" : str) ++ e.1 ++ (">" : str);
     ("rel=" : str) ++ [dquote] ++ e.2 ++ [dquote]].
Proof.
  intros Hu Hr. unfold Spec.render_entry.
  change (("<" : str) ++ e.1 ++ (">; rel=" : str) ++ [dquote] ++ e.2 ++ [dquote])
    with ("<"%char :: e.1 ++ ">"%char :: ";"%char
            :: (" rel=" : str) ++ [dquote] ++ e.2 ++ [dquote]).
  assert ("<"%char :: e.1 ++ ">"%char :: ";"%char
            :: (" rel=" : str) ++ [dquote] ++ e.2 ++ [dquote]
          = (("<" : str) ++ e.1 ++ (">" : str)) ++ ";"%char
              :: (" rel=" : str) ++ [dquote] ++ e.2 ++ [dquote]) as ->
    by (by rewrite <- !app_assoc).
  rewrite split_app_sep
    by (rewrite !in_chars_app, (plain_url_chars e.1); auto).
  rewrite split_no_sep
    by (rewrite !in_chars_app, (plain_rel_chars e.2); auto).
  cbn [map]. f_equal; [|f_equal].
  - apply strip_fixed; [done|].
    change (("<" : str) ++ e.1 ++ (">" : str)) with (("<"%char :: e.1) ++ [">"%char]).
    by rewrite rev_app_distr.
  - unfold Py.strip.
    change (Py.lstrip Py.isspace ((" rel=" : str) ++ [dquote] ++ e.2 ++ [dquote]))
      with (("rel=" : str) ++ [dquote] ++ e.2 ++ [dquote]).
    apply rstrip_fixed.
    change (("rel=" : str) ++ [dquote] ++ e.2 ++ [dquote])
      with ((("rel=" : str) ++ [dquote] ++ e.2) ++ [dquote]).
    by rewrite rev_app_distr.
Qed.

Lemma entry_href e :
  Spec.plain_url e.1 = true ->
  Py.strip (Py.in_chars "<> ") (("<" : str) ++ e.1 ++ (">" : str)) = e.1.
Proof.
  intros Hu. apply (strip_wrapped _ e.1 "<" ">"); [done..|].
  unfold Spec.plain_url in Hu. rewrite forallb_forall in *.
  intros c Hc. specialize (Hu c Hc). apply negb_true_iff in Hu.
  apply negb_true_iff, not_true_is_false. intros H.
  apply not_true_iff_false in Hu. apply Hu.
  unfold Py.in_chars in *. simpl in *.
  destruct (Ascii.eqb c "<"), (Ascii.eqb c ">"), (Ascii.eqb c " ");
    simpl in *; try done; by rewrite !orb_true_r.
Qed.

Lemma entry_rel e :
  Spec.plain_rel e.2 = true ->
  link_rel [("rel=" : str) ++ [dquote] ++ e.2 ++ [dquote]] = Some e.2.
Proof.
  intros Hr.
  pose (attr := ("rel=" : str) ++ [dquote] ++ e.2 ++ [dquote]).
  assert (Py.startswith "rel=" attr = true) as E1 by reflexivity.
  assert (nth 1 (Py.split_max1 "=" attr) [] = dquote :: e.2 ++ [dquote])
    as E2 by reflexivity.
  unfold link_rel. cbn [fold_left]. fold attr. rewrite E1, E2. f_equal.
  apply (strip_wrapped _ e.2 dquote dquote); [done..|].
  unfold Spec.plain_rel in Hr. rewrite forallb_forall in *.
  intros c Hc. specialize (Hr c Hc). apply andb_prop in Hr as [Hr _].
  apply negb_true_iff in Hr. apply negb_true_iff, not_true_is_false.
  intros H. apply not_true_iff_false in Hr. apply Hr.
  unfold Py.in_chars in *. simpl in *. by rewrite H, !orb_true_r.
Qed.

Lemma next_link_part_entry (acc : option str) e :
  Spec.plain_url e.1 = true -> Spec.plain_rel e.2 = true ->
  next_link_part acc (Spec.render_entry e)
  = if bool_decide (e.2 = ("next" : str)) then Some e.1 else acc.
Proof.
  intros Hu Hr. unfold next_link_part. rewrite entry_segments by done.
  cbn [tl]. rewrite entry_href, entry_rel by done.
  case_bool_decide as H1; case_bool_decide as H2; try done.
  - injection H1 as H1. destruct (H2 H1).
  - destruct H1. f_equal. exact H2.
Qed.

Lemma split_render_link (entries : list (str * str)) e :
  Spec.plain_entries (e :: entries) = true ->
  Py.split "," (Spec.render_link (e :: entries))
  = map Spec.render_entry (e :: entries).
Proof.
  revert e. induction entries as [|e' entries IH]; intros e H.
  - simpl in H. rewrite andb_true_r in H. apply andb_prop in H as [Hu Hr].
    apply split_no_sep. by apply render_entry_no_comma.
  - cbn [Spec.plain_entries forallb] in H.
    apply andb_prop in H as [[Hu Hr]%andb_prop H].
    change (Spec.render_link (e :: e' :: entries))
      with (Spec.render_entry e ++ ","%char :: Spec.render_link (e' :: entries)).
    rewrite split_app_sep by by apply render_entry_no_comma.
    by rewrite IH.
Qed.

(** The header parser finds the [next] URL of a well-formed header. *)
Lemma next_link_render (entries : list (str * str)) :
  Spec.plain_entries entries = true ->
  next_link (Spec.render_link entries) = Spec.next_of entries.
Proof.
  intros H. destruct entries as [|e entries]; [done|].
  unfold next_link. rewrite split_render_link by done.
  unfold Spec.next_of. generalize (@None str) as acc.
  revert H. generalize (e :: entries) as l. clear.
  induction l as [|e l IH]; intros H acc; [done|].
  cbn [Spec.plain_entries forallb] in H.
  apply andb_prop in H as [[Hu Hr]%andb_prop H].
  cbn [map fold_left]. rewrite next_link_part_entry by done. by apply IH.
Qed.

End Link.

(** ** Link headers as they are written *)

Lemma split_join (sep : ascii) (parts : list str) :
  parts ≠ [] -> Forall (fun s => Py.in_chars s sep = false) parts ->
  Py.split sep (Spec.join sep parts) = parts.
Proof.
  induction parts as [|a parts IH]; [done|]. intros _ H.
  apply Forall_cons in H as [Ha H]. destruct parts as [|b parts].
  - by apply split_no_sep.
  - change (Spec.join sep (a :: b :: parts))
      with (a ++ sep :: Spec.join sep (b :: parts)).
    rewrite split_app_sep by done. by rewrite IH.
Qed.

Lemma lstrip_lead {A} (p : A -> bool) (l s : list A) :
  forallb p l = true -> Py.lstrip p (l ++ s) = Py.lstrip p s.
Proof.
  induction l as [|c l IH]; simpl; [done|].
  intros [-> H]%andb_prop. auto.
Qed.

Lemma forallb_rev_true {A} (p : A -> bool) (l : list A) :
  forallb p l = true -> forallb p (rev l) = true.
Proof.
  rewrite !forallb_forall. intros H x Hx. by apply H, in_rev.
Qed.

(** Stripping gives back what the stripped characters were put around. *)
Lemma strip_padded (p : ascii -> bool) (l t r : str) :
  forallb p l = true -> forallb p r = true -> Spec.clear_ends p t = true ->
  Py.strip p (l ++ t ++ r) = t.
Proof.
  intros Hl Hr [H1 H2]%andb_prop. unfold Py.strip.
  rewrite lstrip_lead by done. destruct t as [|c t].
  - simpl. by rewrite lstrip_all.
  - apply negb_true_iff in H1. rewrite lstrip_fixed by done.
    unfold Py.rstrip. rewrite rev_app_distr.
    rewrite lstrip_lead by by apply forallb_rev_true.
    rewrite lstrip_fixed; [apply rev_involutive|].
    destruct (rev (c :: t)); [done|]. by apply negb_true_iff in H2.
Qed.

Lemma strip_clear (p : ascii -> bool) (t : str) :
  Spec.clear_ends p t = true -> Py.strip p t = t.
Proof.
  intros H. pose proof (strip_padded p [] t [] eq_refl eq_refl H) as E.
  by rewrite app_nil_r in E.
Qed.

Lemma padded_strip (s t : str) : Py.strip Py.isspace s = t -> Spec.padded s t.
Proof.
  intros <-. destruct (strip_decompose Py.isspace s) as (l & r & E & Hl & Hr).
  by exists l, r.
Qed.

Lemma space_not_in (l : str) c :
  forallb Py.isspace l = true -> Py.isspace c = false ->
  Py.in_chars l c = false.
Proof.
  intros Hl Hc. apply not_true_is_false. intros H.
  apply existsb_exists in H as (x & Hx & E).
  apply Ascii.eqb_eq in E as <-.
  rewrite forallb_forall in Hl. specialize (Hl c Hx). congruence.
Qed.

Lemma unbroken_chars (s : str) c :
  Spec.unbroken s = true -> Py.in_chars ",;" c = true ->
  Py.in_chars s c = false.
Proof.
  intros Hs Hc. apply not_true_is_false. intros H.
  apply existsb_exists in H as (x & Hx & E).
  apply Ascii.eqb_eq in E as <-.
  unfold Spec.unbroken in Hs. rewrite forallb_forall in Hs.
  specialize (Hs c Hx). by rewrite Hc in Hs.
Qed.

Lemma padded_chars (s t : str) c :
  Spec.padded s t -> Spec.unbroken t = true ->
  Py.in_chars ",;" c = true -> Py.in_chars s c = false.
Proof.
  intros (l & r & Hl & Hr & ->) Ht Hc.
  assert (Py.isspace c = false) as Hsp.
  { unfold Py.in_chars in Hc. simpl in Hc.
    destruct (Ascii.eqb_spec c ",") as [->|]; [done|].
    destruct (Ascii.eqb_spec c ";") as [->|]; done. }
  by rewrite !in_chars_app, (space_not_in l), (space_not_in r),
    (unbroken_chars t).
Qed.

Section LinkValue.

Implicit Types (lv : Spec.link_value) (a : Spec.link_param).

Lemma unbroken_target lv :
  Spec.unbroken (Spec.lv_url lv) = true ->
  Spec.unbroken (("<" : str) ++ Spec.lv_url lv ++ (">" : str)) = true.
Proof.
  intros H. unfold Spec.unbroken in *. rewrite forallb_forall in *.
  intros c Hc. simpl in Hc. destruct Hc as [<-|Hc]; [done|].
  apply in_app_iff in Hc as [Hc|[<-|[]]]; auto.
Qed.

Lemma segments_unbroken lv :
  Spec.plain_value lv = true ->
  Forall (fun t => Spec.unbroken t = true
                   ∧ Spec.clear_ends Py.isspace t = true) (Spec.segments lv).
Proof.
  intros [[Hu He]%andb_prop Hp]%andb_prop. constructor.
  - split; [by apply unbroken_target|].
    unfold Spec.clear_ends. simpl.
    change ("<"%char :: Spec.lv_url lv ++ (">" : str))
      with (("<"%char :: Spec.lv_url lv) ++ [">"%char]).
    by rewrite rev_app_distr.
  - apply Forall_forall. intros t Ht.
    apply list_elem_of_In, in_map_iff in Ht as (a & <- & Ha).
    rewrite forallb_forall in Hp.
    by apply Hp in Ha as [[H1 H2]%andb_prop _]%andb_prop.
Qed.

Lemma segments_split lv (part : str) :
  Spec.writes_value part lv -> Spec.plain_value lv = true ->
  Py.in_chars part "," = false
  ∧ map (Py.strip Py.isspace) (Py.split ";" part) = Spec.segments lv.
Proof.
  intros (segs & Hsegs & ->) Hlv.
  pose proof (segments_unbroken lv Hlv) as Hwf.
  assert (∀ c, Py.in_chars ",;" c = true ->
               Forall (fun s => Py.in_chars s c = false) segs
               ∧ map (Py.strip Py.isspace) segs = Spec.segments lv) as H.
  { intros c Hc. revert Hsegs Hwf. generalize (Spec.segments lv) as ts.
    intros ts Hsegs Hwf. induction Hsegs as [|s t ss ts' Hp Hsegs IH];
      [done|]. apply Forall_cons in Hwf as [[Ht1 Ht2] Hwf].
    destruct (IH Hwf) as [IH1 IH2]. split.
    - constructor; [|done]. by apply (padded_chars s t).
    - cbn [map]. rewrite IH2. f_equal.
      destruct Hp as (l & r & Hl & Hr & ->). by apply strip_padded. }
  assert (segs ≠ []) as Hne.
  { intros ->. inversion Hsegs. }
  split.
  - destruct (H ","%char eq_refl) as [Hc _]. clear -Hc Hne.
    induction segs as [|s segs IH]; [done|].
    apply Forall_cons in Hc as [Hs Hc]. destruct segs as [|s' segs]; [done|].
    change (Spec.join ";" (s :: s' :: segs))
      with (s ++ ";"%char :: Spec.join ";" (s' :: segs)).
    rewrite in_chars_app, Hs. simpl. by apply IH.
  - destruct (H ";"%char eq_refl) as [Hc Hm]. by rewrite split_join.
Qed.

Lemma href_target lv :
  Spec.clear_ends (Py.in_chars "<> ") (Spec.lv_url lv) = true ->
  Py.strip (Py.in_chars "<> ") (("<" : str) ++ Spec.lv_url lv ++ (">" : str))
  = Spec.lv_url lv.
Proof. intros H. by apply (strip_padded _ "<" _ ">"). Qed.

Lemma link_rel_params (params : list Spec.link_param) :
  forallb Spec.plain_param params = true ->
  link_rel (map Spec.render_param params) = Spec.rel_of params.
Proof.
  unfold link_rel, Spec.rel_of.
  change (@None (list ascii)) with (@None str). generalize (@None str) as acc.
  induction params as [|a params IH]; intros acc H; [done|].
  cbn [forallb] in H. apply andb_prop in H as [Ha H].
  cbn [map fold_left]. rewrite <- IH by done. f_equal.
  apply andb_prop in Ha as [[_ Hsp]%andb_prop Ha].
  destruct a as [[] v|t].
  - change (Py.startswith "rel=" (Spec.render_param (Spec.Rel true v)))
      with true.
    change (nth 1 (Py.split_max1 "=" (Spec.render_param (Spec.Rel true v))) [])
      with ([dquote] ++ v ++ [dquote]).
    by rewrite strip_padded.
  - change (Py.startswith "rel=" (Spec.render_param (Spec.Rel false v)))
      with true.
    change (nth 1 (Py.split_max1 "=" (Spec.render_param (Spec.Rel false v))) [])
      with v.
    by rewrite strip_clear.
  - cbn [Spec.render_param]. apply negb_true_iff in Ha. by rewrite Ha.
Qed.

Lemma next_link_part_value (acc : option str) lv (part : str) :
  Spec.writes_value part lv -> Spec.plain_value lv = true ->
  next_link_part acc part
  = if bool_decide (Spec.rel_of (Spec.lv_params lv) = Some ("next" : str))
    then Some (Spec.lv_url lv) else acc.
Proof.
  intros Hw Hlv. destruct (segments_split lv part Hw Hlv) as [_ Hs].
  unfold next_link_part. rewrite Hs. unfold Spec.segments.
  apply andb_prop in Hlv as [[_ He]%andb_prop Hp].
  destruct (Spec.lv_params lv) as [|a params] eqn:E; [done|].
  cbn [map]. rewrite href_target by done.
  change (Spec.render_param a :: map Spec.render_param params)
    with (map Spec.render_param (a :: params)).
  by rewrite link_rel_params.
Qed.

(** The header parser finds the [next] URL of every header written with
    plain link values. *)
Lemma next_link_written (link : str) (lvs : list Spec.link_value) :
  Spec.writes_header link lvs -> forallb Spec.plain_value lvs = true ->
  next_link link = Spec.next_target lvs.
Proof.
  intros (parts & Hparts & ->) Hlvs. unfold next_link.
  destruct Hparts as [|part lv parts lvs Hw Hparts]; [done|].
  rewrite split_join.
  - unfold Spec.next_target. generalize (@None str) as acc.
    assert (Forall2 Spec.writes_value (part :: parts) (lv :: lvs)) as H
      by by constructor.
    revert H Hlvs. generalize (part :: parts) as ps, (lv :: lvs) as ls. clear.
    intros ps ls H. induction H as [|p l ps ls Hw H IH]; intros Hlvs acc;
      [done|]. cbn [forallb] in Hlvs. apply andb_prop in Hlvs as [Hl Hlvs].
    cbn [fold_left]. rewrite (next_link_part_value acc l p) by done.
    by apply IH.
  - done.
  - assert (Forall2 Spec.writes_value (part :: parts) (lv :: lvs)) as H
      by by constructor.
    revert H Hlvs. generalize (part :: parts) as ps, (lv :: lvs) as ls. clear.
    intros ps ls H. induction H as [|p l ps ls Hw H IH]; intros Hlvs;
      [done|]. cbn [forallb] in Hlvs. apply andb_prop in Hlvs as [Hl Hlvs].
    constructor; [|by apply IH]. by apply (segments_split l p).
Qed.

End LinkValue.

(** ** [get_all] *)

(** Unfolding the monad. *)
Ltac munfold :=
  unfold mbind, M_bind, mret, M_ret, raise, out_of_fuel, emit, print,
    get_fs, set_fs, try_except.

Lemma bind_val {A B} (m : M A) (k : A -> M B) w w' a :
  m w = (w', Val a) -> (x ← m; k x) w = k a w'.
Proof. munfold. by intros ->. Qed.

Lemma bind_exc {A B} (m : M A) (k : A -> M B) w w' e :
  m w = (w', Exc e) -> (x ← m; k x) w = (w', Exc e).
Proof. munfold. by intros ->. Qed.

Lemma bind_out_of_fuel {A B} (m : M A) (k : A -> M B) w w' :
  m w = (w', OutOfFuel) -> (x ← m; k x) w = (w', OutOfFuel).
Proof. munfold. by intros ->. Qed.

Section GetAll.

Variable srv : server.

Lemma get_page_unfold u params results w :
  get_page srv u params results w
  = let w' := World (trace w ++ [EvGet (Request u params false)]) (fs w) in
    match srv (trace w) (Request u params false) with
    | None => (w', Exc NetworkError)
    | Some resp =>
        if (400 <=? status_code resp) && (status_code resp <? 600)
        then (w', Exc (HTTPError (status_code resp)))
        else match json_body resp with
             | None => (w', Exc JSONDecodeError)
             | Some (JList l) =>
                 (w', Val (results ++ l, Spec.next_of_reply resp))
             | Some (JObj kv) =>
                 (w', Val (match dict_get "items" kv with
                           | Some (JList items) => results ++ items
                           | _ => results
                           end, Spec.next_of_reply resp))
             | Some _ => (w', Exc AttributeError)
             end
    end.
Proof.
  unfold get_page, session_get, raise_for_status, resp_json, extend_results.
  munfold. cbn zeta.
  destruct (srv (trace w) (Request u params false)) as [resp|]; [|done].
  destruct ((400 <=? status_code resp) && (status_code resp <? 600)); [done|].
  destruct (json_body resp) as [[| | | | |kv]|]; try done.
  by destruct (dict_get "items" kv) as [[]|].
Qed.

(** A page that is served as [Spec.page_reply] says. *)
Lemma get_page_reply (p : Spec.page) params results w resp :
  srv (trace w) (Spec.page_request p params) = Some resp ->
  Spec.page_reply resp p ->
  get_page srv (Url (JStr (Spec.pg_url p))) params results w
  = (World (trace w ++ [EvGet (Spec.page_request p params)]) (fs w),
     Val (results ++ Spec.pg_records p,
          (fun u => Url (JStr u)) <$> Spec.next_of (Spec.pg_links p))).
Proof.
  intros Hsrv (Hst & (body & Hbody & Hrecs) & Hlink & Hplain).
  rewrite get_page_unfold. cbn zeta.
  unfold Spec.page_request in Hsrv. rewrite Hsrv.
  replace ((400 <=? status_code resp) && (status_code resp <? 600))
    with false by (symmetry; apply andb_false_iff; lia).
  rewrite Hbody. unfold Spec.next_of_reply.
  rewrite Hlink, next_link_render by done.
  destruct Hrecs as [->|(kv & -> & ->)]; done.
Qed.

(** A page that is served as [Spec.carries] says. *)
Lemma get_page_carries (p : Spec.served_page) params results w resp :
  srv (trace w) (Spec.sp_request p params) = Some resp ->
  Spec.carries resp p ->
  get_page srv (Url (JStr (Spec.sp_url p))) params results w
  = (World (trace w ++ [EvGet (Spec.sp_request p params)]) (fs w),
     Val (results ++ Spec.records_of (Spec.sp_body p),
          (fun u => Url (JStr u)) <$> Spec.next_target (Spec.sp_links p))).
Proof.
  intros Hsrv (Hst & Hbody & Hcoll & Hlink & Hplain).
  rewrite get_page_unfold. cbn zeta.
  unfold Spec.sp_request in Hsrv. rewrite Hsrv.
  replace ((400 <=? status_code resp) && (status_code resp <? 600))
    with false by (symmetry; apply andb_false_iff; lia).
  rewrite Hbody. unfold Spec.next_of_reply.
  rewrite (next_link_written _ _ Hlink Hplain).
  destruct (Spec.sp_body p) as [| | | |l|kv]; try done.
  cbn [Spec.records_of].
  by destruct (dict_get "items" kv) as [[]|]; rewrite ?app_nil_r.
Qed.

Lemma get_all_loop_paginated (pages : list Spec.served_page) :
  ∀ (p : Spec.served_page) (fuel : nat) params results w,
    Spec.paginates srv (trace w) params (p :: pages) ->
    (length (p :: pages) < fuel)%nat ->
    get_all_loop srv fuel (Some (Url (JStr (Spec.sp_url p)))) params results w
    = (World (trace w ++ EvGet (Spec.sp_request p params)
                :: map (fun q => EvGet (Spec.sp_request q None)) pages)
         (fs w),
       Val (results
            ++ concat (map (fun q => Spec.records_of (Spec.sp_body q))
                         (p :: pages)))).
Proof.
  induction pages as [|q pages IH];
    intros p fuel params results w (Hurl & (resp & Hsrv & Hreply) & Hnext & Hrest) Hfuel.
  - destruct fuel as [|[|fuel]]; [simpl in Hfuel; lia..|].
    cbn [get_all_loop]. unfold url_truthy, truthy.
    rewrite bool_decide_false by done. cbn [negb].
    rewrite (bind_val _ _ _ _ _ (get_page_carries p params results w resp Hsrv Hreply)).
    rewrite Hnext. cbn. by rewrite !app_nil_r.
  - destruct fuel as [|fuel]; [simpl in Hfuel; lia|].
    cbn [get_all_loop]. unfold url_truthy, truthy.
    rewrite bool_decide_false by done. cbn [negb].
    rewrite (bind_val _ _ _ _ _ (get_page_carries p params results w resp Hsrv Hreply)).
    rewrite Hnext. cbn [head fmap option_fmap option_map].
    rewrite (IH q fuel None (results ++ Spec.records_of (Spec.sp_body p))
               (World (trace w ++ [EvGet (Spec.sp_request p params)]) (fs w)))
      by (done || simpl in *; lia).
    cbn [trace fs map concat]. by rewrite <- !app_assoc.
Qed.

End GetAll.

(** C3, as the code has it.  The remote side serves a finite sequence of
    pages; each body is a raw list of records or an object, whose records
    are the list under the key [items], if there is one; each Link header
    is written as link values [<url>; param; ...] separated by commas,
    with any white space around the segments and no comma or semicolon
    inside them, and a link value names the next page when its last
    parameter that starts with [rel=] has the value [next], bare or
    between double quotes; each page but the last names the following
    one so, the last one names none.  Then [get_all] returns the records
    of all pages in order; the trace shows one request per page, the first
    with the caller's parameters and the others without, and nothing after
    the page that names no next one. *)
Theorem C3_get_all_concatenates (srv : server) (w : world)
    (params : option (list (str * json))) (p : Spec.served_page)
    (pages : list Spec.served_page) (fuel : nat) :
  Spec.paginates srv (trace w) params (p :: pages) ->
  (length (p :: pages) < fuel)%nat ->
  get_all srv fuel (Url (JStr (Spec.sp_url p))) params w
  = (World (trace w ++ EvGet (Request (Url (JStr (Spec.sp_url p))) params false)
              :: map (fun q => EvGet (Request (Url (JStr (Spec.sp_url q))) None
                                        false)) pages)
       (fs w),
     Val (concat (map (fun q => Spec.records_of (Spec.sp_body q)) (p :: pages)))).
Proof.
  intros Hs Hf. unfold get_all.
  by rewrite (get_all_loop_paginated srv pages p fuel params [] w Hs Hf).
Qed.

Lemma wide_pages_served :
  Spec.paginates Spec.wide_server [] Spec.mock_params Spec.wide_pages.
Proof.
  unfold Spec.wide_pages. cbn [Spec.paginates].
  repeat match goal with
         | |- _ ∧ _ => split
         | |- ∃ resp, _ = Some resp ∧ _ => eexists; split; [vm_compute; reflexivity|]
         | |- Spec.carries _ _ => unfold Spec.carries
         | |- _ ∨ _ => left; vm_compute; reflexivity
         | |- _ ≠ [] => discriminate
         | |- True => exact I
         | |- Spec.writes_header ?h _ =>
             let hv := eval vm_compute in h in
             exists (Py.split "," hv); split; [|vm_compute; reflexivity];
             cbn [Spec.sp_links]
         | |- Spec.writes_value ?part _ =>
             exists (Py.split ";" part); split; [|vm_compute; reflexivity];
             unfold Spec.segments; cbn [Spec.lv_params map]
         | |- Forall2 _ (_ :: _) (_ :: _) => apply Forall2_cons
         | |- Forall2 _ [] [] => apply Forall2_nil
         | |- Forall2 ?R ?xs ?ys =>
             let xv := eval vm_compute in xs in
             change (Forall2 R xv ys)
         | |- Spec.padded _ _ => apply padded_strip; vm_compute; reflexivity
         | |- _ = _ => vm_compute; reflexivity
         end.
Qed.

Lemma C3_get_all_concatenates_witness :
  get_all Spec.wide_server 4 (Url (JStr (Spec.mock_url 1))) Spec.mock_params
    (World [] ∅)
  = (World [EvGet (Request (Url (JStr (Spec.mock_url 1))) Spec.mock_params false);
            EvGet (Request (Url (JStr (Spec.mock_url 2))) None false);
            EvGet (Request (Url (JStr (Spec.mock_url 3))) None false)] ∅,
     Val [JInt 11; JInt 12; JInt 21]).
Proof.
  apply (C3_get_all_concatenates Spec.wide_server (World [] ∅) Spec.mock_params
           (Spec.ServedPage (Spec.mock_url 1) (JList [JInt 11; JInt 12])
              [ Spec.LinkValue (Spec.mock_url 1) [Spec.Rel true "current"];
                Spec.LinkValue (Spec.mock_url 2)
                  [Spec.Rel false "next"; Spec.Other "type=json"];
                Spec.LinkValue (Spec.mock_url 3) [Spec.Rel true "last"] ])
           (tl Spec.wide_pages) 4).
  - exact wide_pages_served.
  - simpl. lia.
Defined.

(** C3 as the specification states it fails.  In each of the three runs
    every body is a list of records or an object holding a named list of
    them, and the first page carries no Link header or one that names a
    URL with the relation [next].  A link value with the relation types
    [next] and [last] is not followed: the run ends after the first page.
    A URL with a comma in it is cut at the comma: the second request goes
    to what follows the comma, and the run ends with the error of that
    request.  A list held under another key than [items] gives no
    record. *)
Lemma C3_pages_not_concatenated :
  (Spec.two_rel_server [] (Request (Url (JStr (Spec.mock_url 1))) None false)
   = Some (Response 200 [("Link" : str, Spec.two_rel_link)]
             (Some (JList [JInt 11; JInt 12])) [] true)
   ∧ Spec.two_rel_server [EvGet (Request (Url (JStr (Spec.mock_url 1))) None false)]
       (Request (Url (JStr (Spec.mock_url 2))) None false)
     = Some (Response 200 [] (Some (JList [JInt 21])) [] true)
   ∧ get_all Spec.two_rel_server 9 (Url (JStr (Spec.mock_url 1))) None (World [] ∅)
     = (World [EvGet (Request (Url (JStr (Spec.mock_url 1))) None false)] ∅,
        Val [JInt 11; JInt 12]))
  ∧ (Spec.comma_server [] (Request (Url (JStr (Spec.mock_url 1))) None false)
     = Some (Response 200 [("Link" : str, Spec.comma_link)]
               (Some (JList [JInt 11; JInt 12])) [] true)
     ∧ Spec.comma_server [EvGet (Request (Url (JStr (Spec.mock_url 1))) None false)]
         (Request (Url (JStr Spec.comma_url)) None false)
       = Some (Response 200 [] (Some (JList [JInt 21])) [] true)
     ∧ get_all Spec.comma_server 9 (Url (JStr (Spec.mock_url 1))) None (World [] ∅)
       = (World [EvGet (Request (Url (JStr (Spec.mock_url 1))) None false);
                 EvGet (Request (Url (JStr ("2&page=2" : str))) None false)] ∅,
          Exc NetworkError))
  ∧ (Spec.keyed_server [] (Request (Url (JStr (Spec.mock_url 1))) None false)
     = Some (Response 200 []
               (Some (JObj [("courses" : str, JList [JInt 11; JInt 12])]))
               [] true)
     ∧ get_all Spec.keyed_server 9 (Url (JStr (Spec.mock_url 1))) None (World [] ∅)
       = (World [EvGet (Request (Url (JStr (Spec.mock_url 1))) None false)] ∅,
          Val [])).
Proof.
  split; [|split]; repeat (split; [vm_compute; reflexivity|]);
    vm_compute; reflexivity.
Qed.

(** ** Termination of [get_all] *)

Section Chain.

Variable srv : server.

Lemma get_page_ok u params results w resp :
  srv (trace w) (Request u params false) = Some resp ->
  Spec.page_ok resp = true ->
  ∃ results',
    get_page srv u params results w
    = (World (trace w ++ [EvGet (Request u params false)]) (fs w),
       Val (results', Spec.next_of_reply resp)).
Proof.
  intros Hsrv Hok. rewrite get_page_unfold, Hsrv. cbn zeta.
  unfold Spec.page_ok in Hok. apply andb_prop in Hok as [Hst Hbody].
  apply negb_true_iff in Hst. rewrite Hst.
  destruct (json_body resp) as [[]|]; try done; eauto.
Qed.

Lemma get_page_broken u params results w :
  match srv (trace w) (Request u params false) with
  | Some resp => Spec.page_ok resp = false
  | None => True
  end ->
  ∃ e, get_page srv u params results w
       = (World (trace w ++ [EvGet (Request u params false)]) (fs w), Exc e).
Proof.
  intros H. rewrite get_page_unfold. cbn zeta.
  destruct (srv (trace w) (Request u params false)) as [resp|]; [|eauto].
  unfold Spec.page_ok in H.
  destruct ((400 <=? status_code resp) && (status_code resp <? 600)); [eauto|].
  destruct (json_body resp) as [[]|]; try done; eauto.
Qed.

Lemma get_all_loop_ends fuel :
  ∀ url params results w,
    (get_all_loop srv fuel url params results w).2 ≠ OutOfFuel ->
    Spec.chain_ends srv (trace w) url params.
Proof.
  induction fuel as [|fuel IH]; intros url params results w H; [done|].
  cbn [get_all_loop] in H.
  destruct (url_truthy url) eqn:Ht; [|by apply Spec.chain_stop].
  destruct url as [u|]; [|done].
  destruct (srv (trace w) (Request u params false)) as [resp|] eqn:Hsrv.
  - destruct (Spec.page_ok resp) eqn:Hok.
    + destruct (get_page_ok u params results w resp Hsrv Hok) as [r' E].
      rewrite (bind_val _ _ _ _ _ E) in H.
      apply IH in H. by eapply Spec.chain_next.
    + apply Spec.chain_broken; [done|]. by rewrite Hsrv.
  - apply Spec.chain_broken; [done|]. by rewrite Hsrv.
Qed.

Lemma chain_ends_get_all_loop tr url params :
  Spec.chain_ends srv tr url params ->
  ∀ w results, trace w = tr ->
    ∃ fuel, (get_all_loop srv fuel url params results w).2 ≠ OutOfFuel.
Proof.
  induction 1 as [tr url params Ht|tr u params Ht Hb|tr u params resp Ht Hsrv Hok _ IH];
    intros w results <-.
  - exists 1%nat. cbn [get_all_loop]. rewrite Ht. by destruct url.
  - exists 1%nat. cbn [get_all_loop]. rewrite Ht.
    destruct (get_page_broken u params results w Hb) as [e E].
    by rewrite (bind_exc _ _ _ _ _ E).
  - destruct (get_page_ok u params results w resp Hsrv Hok) as [r' E].
    destruct (IH (World (trace w ++ [EvGet (Request u params false)]) (fs w))
                r' eq_refl) as [fuel Hf].
    exists (S fuel). cbn [get_all_loop]. rewrite Ht.
    by rewrite (bind_val _ _ _ _ _ E).
Qed.

End Chain.

Lemma get_all_loop_S srv fuel u params results :
  get_all_loop srv (S fuel) (Some u) params results
  = if url_truthy (Some u)
    then '(results', next_url) ← get_page srv u params results;
         get_all_loop srv fuel next_url None results'
    else mret results.
Proof. reflexivity. Qed.

Lemma loop_server_next st body chunks ok :
  Spec.next_of_reply
    (Response st [("Link" : str, Spec.render_link [(Spec.loop_url, "next" : str)])]
       body chunks ok)
  = Some (Url (JStr Spec.loop_url)).
Proof. reflexivity. Qed.

Lemma loop_server_diverges fuel :
  ∀ params results w,
    (get_all_loop Spec.loop_server fuel (Some (Url (JStr Spec.loop_url)))
       params results w).2 = OutOfFuel.
Proof.
  induction fuel as [|fuel IH]; intros params results w; [done|].
  cbn [get_all_loop].
  assert (url_truthy (Some (Url (JStr Spec.loop_url))) = true) as -> by reflexivity.
  destruct (get_page_ok Spec.loop_server (Url (JStr Spec.loop_url)) params
              results w _ eq_refl eq_refl) as [r' E].
  rewrite (bind_val _ _ _ _ _ E), loop_server_next. apply IH.
Qed.

Lemma counting_server_pages (m : nat) :
  ∀ tr f params results,
    ∃ tr' results',
      get_all_loop (Spec.counting_server (length tr + S m)) (S (S m))
        (Some (Url (JStr Spec.loop_url))) params results (World tr f)
      = (World tr' f, Val results')
      ∧ length tr' = (length tr + S m)%nat
      ∧ length results' = (length results + S m)%nat.
Proof.
  induction m as [|m IH]; intros tr f params results.
  - exists (tr ++ [EvGet (Request (Url (JStr Spec.loop_url)) params false)]),
      (results ++ [JInt (Z.of_nat (length tr))]).
    rewrite !length_app. split; [|done].
    cbn [get_all_loop].
    assert (url_truthy (Some (Url (JStr Spec.loop_url))) = true) as -> by reflexivity.
    rewrite (bind_val _ _ (World tr f)
               (World (tr ++ [EvGet (Request (Url (JStr Spec.loop_url)) params false)]) f)
               (results ++ [JInt (Z.of_nat (length tr))], None)); [done|].
    rewrite get_page_unfold. cbn [trace fs]. unfold Spec.counting_server.
    replace (length tr + 1 <? length tr + 1)%nat with false
      by (symmetry; apply Nat.ltb_ge; lia).
    reflexivity.
  - destruct (IH (tr ++ [EvGet (Request (Url (JStr Spec.loop_url)) params false)])
                f None (results ++ [JInt (Z.of_nat (length tr))]))
      as (tr' & results' & E & Ht & Hr).
    exists tr', results'. rewrite !length_app in Ht, Hr. simpl in Ht, Hr.
    split; [|lia].
    replace (length (tr ++ [EvGet (Request (Url (JStr Spec.loop_url)) params false)])
             + S m)%nat
      with (length tr + S (S m))%nat in E by (rewrite length_app; simpl; lia).
    rewrite get_all_loop_S.
    assert (url_truthy (Some (Url (JStr Spec.loop_url))) = true) as -> by reflexivity.
    rewrite (bind_val _ _ (World tr f)
               (World (tr ++ [EvGet (Request (Url (JStr Spec.loop_url)) params false)]) f)
               (results ++ [JInt (Z.of_nat (length tr))],
                Some (Url (JStr Spec.loop_url)))); [exact E|].
    rewrite get_page_unfold. cbn [trace fs]. unfold Spec.counting_server.
    replace (length tr + 1 <? length tr + S (S m))%nat with true
      by (symmetry; apply Nat.ltb_lt; lia).
    reflexivity.
Qed.

(** C9.  [get_all] comes to an end, with a result or an exception, exactly
    when the chain of [next] links does; no number of pages is too many; and
    against a remote side whose pages name themselves as the next one no
    amount of fuel is enough. *)
Theorem C9_get_all_unbounded :
  (∀ (srv : server) (w : world) (url : endpoint) params,
      (∃ fuel, (get_all srv fuel url params w).2 ≠ OutOfFuel)
      <-> Spec.chain_ends srv (trace w) (Some url) params)
  ∧ (∀ n : nat,
        ∃ fuel w' results,
          get_all (Spec.counting_server (S n)) fuel (Url (JStr Spec.loop_url))
            None (World [] ∅) = (w', Val results)
          ∧ length (trace w') = S n ∧ length results = S n)
  ∧ (∀ (fuel : nat) (w : world) params,
        (get_all Spec.loop_server fuel (Url (JStr Spec.loop_url)) params w).2
        = OutOfFuel).
Proof.
  split; [|split].
  - intros srv w url params. unfold get_all. split.
    + intros [fuel H]. by eapply get_all_loop_ends.
    + intros H. by eapply chain_ends_get_all_loop.
  - intros n.
    destruct (counting_server_pages n [] ∅ None []) as (tr' & r' & E & Ht & Hr).
    exists (S (S n)), (World tr' ∅), r'. by rewrite <- E.
  - intros fuel w params. apply loop_server_diverges.
Qed.

Lemma mock_chain_ends :
  Spec.chain_ends Spec.mock_server [] (Some (Url (JStr (Spec.mock_url 1))))
    Spec.mock_params.
Proof.
  eapply Spec.chain_next; [reflexivity..|].
  eapply Spec.chain_next; [reflexivity..|].
  eapply Spec.chain_next; [reflexivity..|].
  by apply Spec.chain_stop.
Qed.

Lemma C9_get_all_unbounded_witness :
  ∃ fuel,
    (get_all Spec.mock_server fuel (Url (JStr (Spec.mock_url 1)))
       Spec.mock_params (World [] ∅)).2 ≠ OutOfFuel.
Proof.
  apply (proj2 (proj1 C9_get_all_unbounded Spec.mock_server (World [] ∅)
                  (Url (JStr (Spec.mock_url 1))) Spec.mock_params)).
  exact mock_chain_ends.
Defined.

(** ** [download_to] *)

Section Download.

Variable srv : server.

Lemma session_get_some r w resp :
  srv (trace w) r = Some resp ->
  session_get srv r w = (World (trace w ++ [EvGet r]) (fs w), Val resp).
Proof. unfold session_get. by intros ->. Qed.

Lemma session_get_none r w :
  srv (trace w) r = None ->
  session_get srv r w = (World (trace w ++ [EvGet r]) (fs w), Exc NetworkError).
Proof. unfold session_get. by intros ->. Qed.

Lemma raise_for_status_ok resp w :
  Spec.error_status resp = false -> raise_for_status resp w = (w, Val tt).
Proof. unfold raise_for_status, Spec.error_status. by intros ->. Qed.

Lemma raise_for_status_error resp w :
  Spec.error_status resp = true ->
  raise_for_status resp w = (w, Exc (HTTPError (status_code resp))).
Proof. unfold raise_for_status, Spec.error_status. by intros ->. Qed.

(** Writing never touches the trace. *)
Lemma silent_bind {A B} (m : M A) (k : A -> M B) :
  Spec.silent m -> (∀ a, Spec.silent (k a)) -> Spec.silent (x ← m; k x).
Proof.
  intros Hm Hk w. munfold. specialize (Hm w).
  destruct (m w) as [w' [a| |]]; cbn in *; try done.
  by rewrite Hk.
Qed.

Lemma silent_ret {A} (a : A) : Spec.silent (mret a).
Proof. done. Qed.

Lemma silent_raise {A} e : Spec.silent (@raise A e).
Proof. done. Qed.

Lemma silent_get_fs : Spec.silent get_fs.
Proof. done. Qed.

Lemma silent_set_fs f : Spec.silent (set_fs f).
Proof. done. Qed.

Lemma silent_for_each {A B} (body : B -> A -> M B) (l : list A) :
  (∀ b a, Spec.silent (body b a)) -> ∀ b, Spec.silent (for_each body b l).
Proof.
  intros Hbody. induction l as [|a l IH]; intros b; cbn [for_each].
  - apply silent_ret.
  - by apply silent_bind.
Qed.

Lemma silent_write_chunk target u chunk : Spec.silent (write_chunk target u chunk).
Proof.
  unfold write_chunk. destruct chunk; [apply silent_ret|].
  apply silent_bind; [apply silent_get_fs|]. intros f.
  destruct (f !! target) as [[|]|];
    auto using silent_set_fs, silent_raise.
Qed.

Lemma silent_stream_to target resp : Spec.silent (stream_to target resp).
Proof.
  unfold stream_to. apply silent_bind.
  { unfold int_header_or_0.
    destruct (headers_get "Content-Length" (headers resp)) as [[|c s]|];
      try apply silent_ret.
    destruct (Py.int (c :: s)); [apply silent_ret|apply silent_raise]. }
  intros _. apply silent_bind.
  { unfold open_wb. apply silent_bind; [apply silent_get_fs|]. intros f.
    destruct (f !! target) as [[|]|], (f !! parent target) as [[|]|];
      auto using silent_set_fs, silent_raise. }
  intros _. apply silent_bind.
  { apply silent_for_each. intros. apply silent_write_chunk. }
  intros _. destruct (stream_ok resp); [apply silent_ret|apply silent_raise].
Qed.


(** The chunks arrive in the file in order. *)
Lemma write_chunks target chunks :
  ∀ old w,
    fs w !! target = Some (File old) ->
    for_each (write_chunk target) tt chunks w
    = (World (trace w) (<[target := File (old ++ concat chunks)]> (fs w)),
       Val tt).
Proof.
  induction chunks as [|c chunks IH]; intros old w Hold.
  - cbn. rewrite app_nil_r, insert_id by done. by destruct w.
  - cbn [for_each concat]. destruct c as [|b c].
    + munfold. cbn. by apply IH.
    + munfold. cbn [write_chunk]. munfold. rewrite Hold.
      rewrite (IH (old ++ b :: c)) by apply lookup_insert_eq.
      cbn [trace fs]. by rewrite insert_insert_eq, <- app_assoc.
Qed.

Lemma stream_to_success target resp w :
  Spec.length_ok resp = true -> Spec.writable (fs w) target = true ->
  stream_ok resp = true ->
  stream_to target resp w
  = (World (trace w) (<[target := File (concat (content resp))]> (fs w)),
     Val tt).
Proof.
  intros Hlen Hw Hok. unfold stream_to.
  assert (∃ n, int_header_or_0 (headers_get "Content-Length" (headers resp)) w
               = (w, Val n)) as [n E].
  { unfold Spec.length_ok in Hlen. unfold int_header_or_0.
    destruct (headers_get "Content-Length" (headers resp)) as [[|c s]|];
      [by exists 0| |by exists 0].
    apply bool_decide_eq_true in Hlen as [n ->]. by exists n. }
  rewrite (bind_val _ _ _ _ _ E).
  assert (open_wb target w
          = (World (trace w) (<[target := File []]> (fs w)), Val tt)) as E2.
  { unfold open_wb, Spec.writable in *. munfold.
    destruct (fs w !! target) as [[|]|], (fs w !! parent target) as [[|]|];
      done. }
  rewrite (bind_val _ _ _ _ _ E2).
  rewrite (bind_val _ _ _ _ _
             (write_chunks target (content resp) [] _ (lookup_insert_eq _ _ _))).
  rewrite Hok. cbn [trace fs]. by rewrite insert_insert_eq.
Qed.


Lemma download_to_429_refused url target w resp e :
  srv (trace w) (Spec.download_request url) = Some resp ->
  status_code resp = 429 ->
  Spec.retry_after_error
    (Py.int (default ("3" : str) (headers_get "Retry-After" (headers resp))))
  = Some e ->
  download_to srv url target w
  = (World (trace w ++ [EvGet (Spec.download_request url)]) (fs w), Exc e).
Proof.
  intros Hsrv Hst He. unfold download_to.
  rewrite (bind_val _ _ _ _ _ (session_get_some _ _ _ Hsrv)).
  rewrite Hst. cbn [Z.eqb Pos.eqb]. unfold int_of_json, json_int.
  unfold Spec.retry_after_error in He.
  destruct (Py.int _) as [secs|]; munfold; [|by injection He as <-].
  unfold sleep. munfold.
  destruct ((secs <? - sleep_max) || (sleep_max <? secs));
    [by injection He as <-|].
  destruct (secs <? 0); [by injection He as <-|done].
Qed.

End Download.




(** ** The download loop of [main] *)

Section DownloadLoop.

Variable srv : server.

Lemma extending_silent {A} (m : M A) : Spec.silent m -> Spec.extending m.
Proof. intros H w. exists []. by rewrite app_nil_r. Qed.

Lemma extending_bind {A B} (m : M A) (k : A -> M B) :
  Spec.extending m -> (∀ a, Spec.extending (k a)) ->
  Spec.extending (x ← m; k x).
Proof.
  intros Hm Hk w. munfold. destruct (Hm w) as [evs E].
  destruct (m w) as [w' [a| |]]; cbn in *; [|by exists evs..].
  destruct (Hk a w') as [evs' E']. exists (evs ++ evs').
  by rewrite E', E, app_assoc.
Qed.

Lemma extending_session_get r : Spec.extending (session_get srv r).
Proof.
  intros w. exists [EvGet r]. unfold session_get.
  by destruct (srv (trace w) r).
Qed.

Lemma extending_raise_for_status resp : Spec.extending (raise_for_status resp).
Proof.
  apply extending_silent. intros w. unfold raise_for_status.
  by destruct ((400 <=? status_code resp) && (status_code resp <? 600)).
Qed.

Lemma extending_sleep secs : Spec.extending (sleep secs).
Proof.
  intros w. unfold sleep.
  destruct ((secs <? - sleep_max) || (sleep_max <? secs));
    [by exists []; rewrite app_nil_r|].
  destruct (secs <? 0); [by exists []; rewrite app_nil_r|].
  by exists [EvSleep secs].
Qed.

(** Whatever its outcome, [download_to] starts with its request. *)
Lemma download_to_requests url target w :
  ∃ evs, trace (download_to srv url target w).1
         = trace w ++ EvGet (Spec.download_request url) :: evs.
Proof.
  unfold download_to. munfold. unfold session_get at 1.
  destruct (srv (trace w) (Request (Url url) None true)) as [resp|];
    [|by exists []].
  cbn [trace fs].
  match goal with
  | |- ∃ evs, trace (?m ?w').1 = _ =>
      assert (Spec.extending m) as Hext
  end.
  { destruct (status_code resp =? 429).
    - apply (extending_bind (int_of_json _)); [by apply extending_silent|].
      intros secs. apply (extending_bind (sleep secs)); [apply extending_sleep|].
      intros _. apply (extending_bind (session_get srv _));
        [apply extending_session_get|].
      intros r2. apply (extending_bind (raise_for_status r2));
        [apply extending_raise_for_status|].
      intros _. apply extending_silent, silent_stream_to.
    - apply (extending_bind (raise_for_status resp));
        [apply extending_raise_for_status|].
      intros _. apply extending_silent, silent_stream_to. }
  destruct (Hext (World (trace w ++ [EvGet (Request (Url url) None true)]) (fs w)))
    as [evs E].
  exists evs. rewrite E. cbn [trace]. by rewrite <- app_assoc.
Qed.

(** A first reply that is neither 429 nor an error is streamed to the
    target. *)
Lemma download_to_ok url target w resp :
  srv (trace w) (Spec.download_request url) = Some resp ->
  status_code resp ≠ 429 -> Spec.error_status resp = false ->
  Spec.length_ok resp = true -> Spec.writable (fs w) target = true ->
  stream_ok resp = true ->
  download_to srv url target w
  = (World (trace w ++ [EvGet (Spec.download_request url)])
       (<[target := File (concat (content resp))]> (fs w)),
     Val tt).
Proof.
  intros Hsrv Hst Herr Hlen Hw Hok. unfold download_to.
  rewrite (bind_val _ _ _ _ _ (session_get_some srv _ _ _ Hsrv)).
  replace (status_code resp =? 429) with false by lia.
  rewrite (bind_val _ _ _ _ _ (raise_for_status_ok _ _ Herr)).
  by rewrite stream_to_success.
Qed.

Lemma synced_test (f : gmap path node) (target : path) (size : Z) :
  bool_decide (is_Some (f !! target)) && negb (size =? 0)
  && bool_decide (st_size <$> f !! target = Some size) = true
  <-> Spec.already_synced f target size.
Proof.
  unfold Spec.already_synced. rewrite !andb_true_iff, !bool_decide_eq_true.
  rewrite negb_true_iff, Z.eqb_neq. split.
  - intros [[[n Hn] Hs] E]. exists n. rewrite Hn in E.
    by injection E as <-.
  - intros (n & -> & Hs & <-). eauto.
Qed.

(** [download_one] once the metadata is resolved. *)
Lemma download_one_resolved mod_dir fid downloaded skipped w fr meta name size :
  srv (trace w) (Spec.meta_request fid) = Some fr ->
  status_code fr ≠ 403 -> Spec.error_status fr = false ->
  json_body fr = Some (JObj meta) ->
  Spec.meta_name fid meta = JStr name ->
  truthy (Spec.meta_url meta) = true ->
  Spec.meta_size meta = Val size ->
  download_one srv mod_dir (downloaded, skipped) fid w
  = let target := path_div mod_dir (sanitize name) in
    let w1 := World (trace w ++ [EvGet (Spec.meta_request fid)]) (fs w) in
    if bool_decide (is_Some (fs w !! target)) && negb (size =? 0)
       && bool_decide (st_size <$> fs w !! target = Some size)
    then (w1, Val (downloaded, skipped + 1))
    else match download_to srv (Spec.meta_url meta) target w1 with
         | (w2, Val _) => (w2, Val (downloaded + 1, skipped))
         | (w2, Exc e) =>
             if is_RequestException e
             then (World (trace w2 ++ [EvPrint (MsgFailed name e)]) (fs w2),
                   Val (downloaded, skipped))
             else (w2, Exc e)
         | (w2, OutOfFuel) => (w2, OutOfFuel)
         end.
Proof.
  intros Hsrv H403 Herr Hbody Hname Hurl Hsize.
  unfold download_one.
  rewrite (bind_val _ _ _ _ _ (session_get_some srv _ _ _ Hsrv)).
  replace (status_code fr =? 403) with false by lia.
  rewrite (bind_val _ _ _ _ _ (raise_for_status_ok _ _ Herr)).
  unfold resp_json. rewrite Hbody.
  unfold Spec.meta_name, Spec.meta_url, Spec.meta_size in *.
  munfold. cbn [py_get]. munfold. unfold int_of_json. rewrite Hsize.
  cbn zeta in *. rewrite Hurl, Hname. cbn [negb expect_str]. munfold.
  cbn [fs trace].
  destruct (bool_decide (is_Some (fs w !! path_div mod_dir (sanitize name)))
            && negb (size =? 0)
            && bool_decide (st_size <$> fs w !! path_div mod_dir (sanitize name)
                            = Some size)); [done|].
  destruct (download_to srv _ _ _) as [w2 [[]|e|]]; try done.
Qed.

End DownloadLoop.



(** ** The identifier harvester *)

Arguments pystr : simpl never.
Arguments find_file_ids_in_html : simpl never.

Lemma value_of_bind {A B} (m : M A) (k : A -> M B) w :
  value_of ((x ← m; k x) w)
  = match m w with
    | (w', Val a) => value_of (k a w')
    | _ => None
    end.
Proof. munfold. by destruct (m w) as [w' [a| |]]. Qed.

Lemma additive_ret : Spec.additive (fun ids => mret ids).
Proof. exists (Some ∅). intros ids w. cbn. f_equal. set_solver. Qed.

Lemma additive_raise e : Spec.additive (fun _ => raise e).
Proof. by exists None. Qed.

Lemma additive_add (x : gset Z) : Spec.additive (fun ids => mret (ids ∪ x)).
Proof. by exists (Some x). Qed.

Lemma additive_for_each {A} (body : gset Z -> A -> M (gset Z)) (l : list A) :
  (∀ a, Spec.additive (fun ids => body ids a)) ->
  Spec.additive (fun ids => for_each body ids l).
Proof.
  intros Hbody. induction l as [|a l [c2 IH]]; [apply additive_ret|].
  destruct (Hbody a) as [c1 H1].
  exists (c1 ≫= fun x => (fun y => x ∪ y) <$> c2). intros ids w.
  cbn [for_each]. rewrite value_of_bind. specialize (H1 ids w).
  unfold value_of in H1 at 1.
  destruct (body ids a w) as [w' [ids'| |]]; cbn in H1;
    destruct c1 as [x|]; try done.
  injection H1 as ->. rewrite IH. cbn. destruct c2 as [y|]; [|done].
  cbn. f_equal. set_solver.
Qed.

Section Harvest.

Variable srv : server.
Hypothesis srv_stateless : Spec.stateless srv.

Lemma session_get_stateless r w :
  session_get srv r w
  = (World (trace w ++ [EvGet r]) (fs w),
     match srv [] r with Some resp => Val resp | None => Exc NetworkError end).
Proof.
  unfold session_get. rewrite (srv_stateless (trace w) [] r).
  by destruct (srv [] r).
Qed.

Lemma additive_file_items items : Spec.additive (harvest_file_items items).
Proof.
  apply (additive_for_each _ items). intros it.
  destruct it as [| | | | |kv]; try apply additive_raise.
  cbn [py_get]. munfold.
  destruct (json_is_str "File" (default JNull (dict_get "type" kv)));
    [|apply additive_ret].
  destruct (truthy (default JNull (dict_get "content_id" kv)));
    [|apply additive_ret].
  unfold int_of_json.
  destruct (json_int (default JNull (dict_get "content_id" kv))) as [n|e|];
    cbn.
  - exists (Some {[n]}). intros ids w. cbn. f_equal. set_solver.
  - destruct e; (apply additive_ret || by exists None).
  - by exists None.
Qed.

Lemma additive_page_items course_id items :
  Spec.additive (harvest_page_items srv course_id items).
Proof.
  apply (additive_for_each _ items). intros it.
  destruct it as [| | | | |kv]; try apply additive_raise.
  cbn [py_get]. munfold.
  destruct (json_is_str "Page" (default JNull (dict_get "type" kv)));
    [|apply additive_ret].
  destruct (truthy (default JNull (dict_get "page_url" kv)));
    [|apply additive_ret]. cbn [negb].
  set (req := Request _ None false).
  destruct (srv [] req) as [pr|] eqn:Hsrv.
  2: { exists None. intros ids w. by rewrite session_get_stateless, Hsrv. }
  destruct (status_code pr =? 403) eqn:H403.
  { exists (Some ∅). intros ids w. rewrite session_get_stateless, Hsrv, H403.
    cbn. f_equal. set_solver. }
  unfold raise_for_status, resp_json.
  destruct ((400 <=? status_code pr) && (status_code pr <? 600)) eqn:Herr.
  { exists None. intros ids w.
    by rewrite session_get_stateless, Hsrv, H403, Herr. }
  destruct (json_body pr) as [[| | | | |page]|] eqn:Hbody.
  1-5,7: exists None; intros ids w;
    by rewrite session_get_stateless, Hsrv, H403, Herr, Hbody.
  destruct (if truthy (default JNull (dict_get "body" page))
            then default JNull (dict_get "body" page) else JStr [])
    as [| | |body| |] eqn:Hb.
  1-3,5-6: exists None; intros ids w;
    rewrite session_get_stateless, Hsrv, H403, Herr, Hbody; cbn;
    by rewrite Hb.
  exists (Some (find_file_ids_in_html (widen body))). intros ids w.
  rewrite session_get_stateless, Hsrv, H403, Herr, Hbody. cbn.
  by rewrite Hb.
Qed.

Lemma additive_attachment att :
  Spec.additive (fun ids =>
    fid ← py_get att "id";
    match fid with
    | JInt n => mret ({[n]} ∪ ids)
    | JBool b => mret ({[Z.b2z b]} ∪ ids)
    | _ => mret ids
    end).
Proof.
  destruct att as [| | | | |kv]; try apply additive_raise.
  cbn [py_get]. munfold.
  destruct (default JNull (dict_get "id" kv)) as [|b|n| | |];
    try apply additive_ret.
  - exists (Some {[Z.b2z b]}). intros ids w. cbn. f_equal. set_solver.
  - exists (Some {[n]}). intros ids w. cbn. f_equal. set_solver.
Qed.

Lemma additive_assignment_items course_id items :
  Spec.additive (harvest_assignment_items srv course_id items).
Proof.
  apply (additive_for_each _ items). intros it.
  destruct it as [| | | | |kv]; try apply additive_raise.
  cbn [py_get]. munfold.
  destruct (json_is_str "Assignment" (default JNull (dict_get "type" kv)));
    [|apply additive_ret].
  destruct (truthy (default JNull (dict_get "content_id" kv)));
    [|apply additive_ret]. cbn [negb].
  set (req := Request _ None false).
  destruct (srv [] req) as [ar|] eqn:Hsrv.
  2: { exists None. intros ids w. by rewrite session_get_stateless, Hsrv. }
  destruct (status_code ar =? 403) eqn:H403.
  { exists (Some ∅). intros ids w. rewrite session_get_stateless, Hsrv, H403.
    cbn. f_equal. set_solver. }
  unfold raise_for_status, resp_json.
  destruct ((400 <=? status_code ar) && (status_code ar <? 600)) eqn:Herr.
  { exists None. intros ids w.
    by rewrite session_get_stateless, Hsrv, H403, Herr. }
  destruct (json_body ar) as [[| | | | |adata]|] eqn:Hbody.
  1-5,7: exists None; intros ids w;
    by rewrite session_get_stateless, Hsrv, H403, Herr, Hbody.
  set (a := if truthy (default JNull (dict_get "attachments" adata))
            then default JNull (dict_get "attachments" adata) else JList []).
  assert (∀ atts, Spec.additive (fun ids =>
            for_each (fun ids att =>
              fid ← py_get att "id";
              match fid with
              | JInt n => mret ({[n]} ∪ ids)
              | JBool b => mret ({[Z.b2z b]} ∪ ids)
              | _ => mret ids
              end) ids atts)) as Hatts.
  { intros atts. apply (additive_for_each _ atts). apply additive_attachment. }
  assert (∀ atts, iterate a = mret atts ->
          Spec.additive (fun ids w =>
            match session_get srv req w with
            | (w', Val _) =>
                for_each (fun ids att =>
                  fid ← py_get att "id";
                  match fid with
                  | JInt n => mret ({[n]} ∪ ids)
                  | JBool b => mret ({[Z.b2z b]} ∪ ids)
                  | _ => mret ids
                  end) ids atts w'
            | (w', Exc e) => (w', Exc e)
            | (w', OutOfFuel) => (w', OutOfFuel)
            end)) as Hgo.
  { intros atts _. destruct (Hatts atts) as [c Hc]. exists c. intros ids w.
    rewrite session_get_stateless, Hsrv. apply Hc. }
  destruct a as [|b|n|s|l|kv'] eqn:Ha; subst a.
  1-3: exists None; intros ids w;
    rewrite session_get_stateless, Hsrv, H403, Herr, Hbody; cbn;
    by rewrite Ha.
  all: match goal with
       | |- Spec.additive ?f =>
           destruct (Hgo _ eq_refl) as [c Hc]; exists c; intros ids w;
           rewrite <- (Hc ids w);
           rewrite session_get_stateless, Hsrv, H403, Herr, Hbody; cbn;
           by rewrite Ha
       end.
Qed.

Lemma additive_strategy course_id items s :
  Spec.additive (run_strategy srv course_id items s).
Proof.
  destruct s; [apply additive_file_items|apply additive_page_items
              |apply additive_assignment_items].
Qed.

(** The set that comes out does not depend on the order of the loops. *)
Lemma harvest_order_irrelevant course_id items (order1 order2 : list strategy) :
  order1 ≡ₚ order2 ->
  ∀ ids w1 w2,
    value_of (for_each (fun ids s => run_strategy srv course_id items s ids)
                ids order1 w1)
    = value_of (for_each (fun ids s => run_strategy srv course_id items s ids)
                  ids order2 w2).
Proof.
  set (body := fun ids s => run_strategy srv course_id items s ids).
  assert (∀ l, Spec.additive (fun ids => for_each body ids l)) as Hl.
  { intros l. apply additive_for_each. intros s.
    apply additive_strategy. }
  assert (∀ l ids w w', value_of (for_each body ids l w)
                        = value_of (for_each body ids l w')) as Hw.
  { intros l ids w w'. destruct (Hl l) as [c Hc]. by rewrite !Hc. }
  assert (∀ s (k : gset Z -> M (gset Z)) ids w,
            ∃ c w', (∀ ids0 w0, value_of (run_strategy srv course_id items s ids0 w0)
                                = (fun x => ids0 ∪ x) <$> c)
                    ∧ value_of ((x ← body ids s; k x) w)
                      = match c with
                        | Some x => value_of (k (ids ∪ x) w')
                        | None => None
                        end) as Hstep.
  { intros s k ids w.
    destruct (additive_strategy course_id items s) as [c Hc].
    rewrite value_of_bind. unfold body. pose proof (Hc ids w) as H.
    unfold value_of in H at 1.
    destruct (run_strategy srv course_id items s ids w) as [w' [a| |]];
      cbn in H; destruct c as [x|]; try done.
    - injection H as ->. by exists (Some x), w'.
    - by exists None, w'.
    - by exists None, w'. }
  assert (∀ c c' : option (gset Z),
            (∀ ids0 (w0 : world), (fun x => ids0 ∪ x) <$> c
                                  = (fun x => ids0 ∪ x) <$> c') ->
            match c, c' with
            | Some x, Some y => ∀ ids0 : gset Z, ids0 ∪ x = ids0 ∪ y
            | None, None => True
            | _, _ => False
            end) as Hsame.
  { intros [x|] [y|] H; try done.
    - intros ids0. specialize (H ids0 (World [] ∅)). by injection H.
    - by specialize (H ∅ (World [] ∅)).
    - by specialize (H ∅ (World [] ∅)). }
  induction 1 as [|s l l' _ IH|s t l|l l' l'' _ IH1 _ IH2]; intros ids w1 w2.
  - done.
  - cbn [for_each].
    destruct (Hstep s (fun x => for_each body x l) ids w1) as (c1 & w1' & Hc1 & ->).
    destruct (Hstep s (fun x => for_each body x l') ids w2) as (c2 & w2' & Hc2 & ->).
    assert (Hcc := Hsame c1 c2 (fun ids0 w0 => eq_trans (eq_sym (Hc1 ids0 w0))
                                                 (Hc2 ids0 w0))).
    destruct c1 as [x|], c2 as [y|]; try done.
    rewrite (Hcc ids). apply IH.
  - cbn [for_each].
    destruct (Hstep t (fun x => y ← body x s; for_each body y l) ids w1)
      as (ct & w1' & Hct & ->).
    destruct (Hstep s (fun x => y ← body x t; for_each body y l) ids w2)
      as (cs & w2' & Hcs & ->).
    destruct ct as [y|].
    + destruct (Hstep s (fun x => for_each body x l) (ids ∪ y) w1')
        as (cs' & w1'' & Hcs' & ->).
      assert (Hcc := Hsame cs cs' (fun ids0 w0 => eq_trans (eq_sym (Hcs ids0 w0))
                                                    (Hcs' ids0 w0))).
      destruct cs as [x|], cs' as [x'|]; try done.
      destruct (Hstep t (fun x => for_each body x l) (ids ∪ x) w2')
        as (ct' & w2'' & Hct' & ->).
      assert (Hcc' := Hsame (Some y) ct'
                        (fun ids0 w0 => eq_trans (eq_sym (Hct ids0 w0))
                                         (Hct' ids0 w0))).
      destruct ct' as [y'|]; [|done].
      rewrite <- (Hcc (ids ∪ y)), <- (Hcc' (ids ∪ x)).
      replace (ids ∪ x ∪ y) with (ids ∪ y ∪ x) by set_solver. apply Hw.
    + destruct cs as [x|]; [|done].
      destruct (Hstep t (fun x => for_each body x l) (ids ∪ x) w2')
        as (ct' & w2'' & Hct' & ->).
      assert (Hcc' := Hsame None ct'
                        (fun ids0 w0 => eq_trans (eq_sym (Hct ids0 w0))
                                         (Hct' ids0 w0))).
      by destruct ct'.
  - by rewrite (IH1 ids w1 w1).
Qed.

End Harvest.

Lemma scenario_stateless : Spec.stateless Spec.scenario_server.
Proof. by intros tr tr' r. Qed.

(** C1.  On the module of the scenario, a File item 501, a Page item whose
    body links files 502 and 503 and an Assignment item with an attachment
    504, the harvester returns the set of these four identifiers.  As long
    as the replies of the remote side do not depend on the order of the
    requests, running the three loops in any order gives the same set, or
    fails in every order. *)
Theorem C1_harvest_union :
  value_of (harvest Spec.scenario_server 42 Spec.scenario_items (World [] ∅))
  = Some ({[501; 502; 503; 504]} : gset Z)
  ∧ ∀ (srv : server) (course_id : Z) (items : list json)
      (order1 order2 : list strategy) (w1 w2 : world),
      Spec.stateless srv -> order1 ≡ₚ order2 ->
      value_of (harvest_in_order srv order1 course_id items w1)
      = value_of (harvest_in_order srv order2 course_id items w2).
Proof.
  split.
  - vm_compute. reflexivity.
  - intros srv course_id items order1 order2 w1 w2 Hsrv Hperm.
    by apply harvest_order_irrelevant.
Qed.

Lemma C1_harvest_union_witness :
  value_of (harvest_in_order Spec.scenario_server
              [AssignmentItems; FileItems; PageItems] 42 Spec.scenario_items
              (World [] ∅))
  = value_of (harvest Spec.scenario_server 42 Spec.scenario_items (World [] ∅)).
Proof.
  apply (proj2 C1_harvest_union Spec.scenario_server 42 Spec.scenario_items
           [AssignmentItems; FileItems; PageItems]
           [FileItems; PageItems; AssignmentItems]).
  - exact scenario_stateless.
  - apply (Permutation_cons_append [FileItems; PageItems] AssignmentItems).
Defined.

(** ** Errors in the module loop *)

Section Errors.

Variable srv : server.

(** The loop over File items asks nothing of the network and, on items
    that are objects, raises nothing. *)
Lemma harvest_file_items_total items ids w :
  forallb Spec.is_object items = true ->
  ∃ ids', harvest_file_items items ids w = (w, Val ids').
Proof.
  unfold harvest_file_items. revert ids.
  induction items as [|it items IH]; intros ids Hobj; [by exists ids|].
  cbn [forallb] in Hobj. apply andb_prop in Hobj as [Hit Hobj].
  destruct it as [| | | | |kv]; try done.
  cbn [for_each py_get]. munfold.
  destruct (json_is_str "File" (default JNull (dict_get "type" kv)));
    [|by apply IH].
  destruct (truthy (default JNull (dict_get "content_id" kv)));
    [|by apply IH].
  unfold int_of_json.
  destruct (json_int (default JNull (dict_get "content_id" kv))) as [n|e|] eqn:E.
  - by apply IH.
  - destruct e; try (by apply IH);
      destruct (default JNull (dict_get "content_id" kv)) as [| | |s| |];
      try done; cbn in E; by destruct (Py.int s).
  - destruct (default JNull (dict_get "content_id" kv)) as [| | |s| |];
      try done; cbn in E; by destruct (Py.int s).
Qed.

(** An error status other than 403 on a page leaves the harvest by an
    exception. *)
Lemma harvest_page_error course_id kv items w pr :
  forallb Spec.is_object items = true ->
  json_is_str "Page" (default JNull (dict_get "type" kv)) = true ->
  truthy (default JNull (dict_get "page_url" kv)) = true ->
  srv (trace w)
    (Request (PageOf course_id (default JNull (dict_get "page_url" kv)))
       None false) = Some pr ->
  status_code pr ≠ 403 -> Spec.error_status pr = true ->
  harvest srv course_id (JObj kv :: items) w
  = (World (trace w
              ++ [EvGet (Request
                           (PageOf course_id
                              (default JNull (dict_get "page_url" kv)))
                           None false)]) (fs w),
     Exc (HTTPError (status_code pr))).
Proof.
  intros Hobj Hty Hslug Hsrv H403 Herr.
  unfold harvest, harvest_in_order. cbn [for_each run_strategy].
  destruct (harvest_file_items_total (JObj kv :: items) ∅ w) as [ids E];
    [done|].
  rewrite (bind_val _ _ _ _ _ E).
  match goal with
  | |- (x ← ?m; _) w = _ =>
      assert (m w = (World (trace w
                              ++ [EvGet (Request
                                           (PageOf course_id
                                              (default JNull (dict_get "page_url" kv)))
                                           None false)]) (fs w),
                     Exc (HTTPError (status_code pr)))) as E2
  end.
  { unfold harvest_page_items. cbn [for_each py_get]. munfold.
    rewrite Hty, Hslug. cbn [negb].
    unfold session_get. rewrite Hsrv.
    replace (status_code pr =? 403) with false by lia.
    unfold raise_for_status. unfold Spec.error_status in Herr.
    by rewrite Herr. }
  by rewrite (bind_exc _ _ _ _ _ E2).
Qed.

Variable new_dir_size : Z.

(** Nothing between the harvest and the end of the run catches an
    exception. *)
Lemma harvest_error_ends_run fuel course_id modules base grand choice choices
    w w1 mod_dir it items w2 e :
  open_module srv new_dir_size fuel course_id modules base choice w
  = (w1, Val (mod_dir, it :: items)) ->
  harvest srv course_id (it :: items) w1 = (w2, Exc e) ->
  for_each (process_module srv new_dir_size fuel course_id modules base)
    grand (choice :: choices) w
  = (w2, Exc e).
Proof.
  intros Hopen Hharvest.
  assert (process_module srv new_dir_size fuel course_id modules base grand
            choice w = (w2, Exc e)) as E.
  { unfold process_module. rewrite (bind_val _ _ _ _ _ Hopen).
    by rewrite (bind_exc _ _ _ _ _ Hharvest). }
  cbn [for_each]. by rewrite (bind_exc _ _ _ _ _ E).
Qed.

(** A download that fails with a [RequestException] is reported and the
    loop goes on with the counters as they were. *)
Lemma failed_download_continues mod_dir fid fids downloaded skipped w fr meta
    name size w2 e :
  srv (trace w) (Spec.meta_request fid) = Some fr ->
  status_code fr ≠ 403 -> Spec.error_status fr = false ->
  json_body fr = Some (JObj meta) ->
  Spec.meta_name fid meta = JStr name ->
  truthy (Spec.meta_url meta) = true ->
  Spec.meta_size meta = Val size ->
  ¬ Spec.already_synced (fs w) (path_div mod_dir (sanitize name)) size ->
  download_to srv (Spec.meta_url meta) (path_div mod_dir (sanitize name))
    (World (trace w ++ [EvGet (Spec.meta_request fid)]) (fs w))
  = (w2, Exc e) ->
  is_RequestException e = true ->
  for_each (download_one srv mod_dir) (downloaded, skipped) (fid :: fids) w
  = for_each (download_one srv mod_dir) (downloaded, skipped) fids
      (World (trace w2 ++ [EvPrint (MsgFailed name e)]) (fs w2)).
Proof.
  intros Hsrv H403 Herr Hbody Hname Hurl Hsize Hns Hdl He.
  assert (download_one srv mod_dir (downloaded, skipped) fid w
          = (World (trace w2 ++ [EvPrint (MsgFailed name e)]) (fs w2),
             Val (downloaded, skipped))) as E.
  { rewrite (download_one_resolved srv mod_dir fid downloaded skipped w fr meta
               name size) by done. cbn zeta.
    rewrite <- synced_test in Hns. apply not_true_is_false in Hns.
    by rewrite Hns, Hdl, He. }
  cbn [for_each]. by rewrite (bind_val _ _ _ _ _ E).
Qed.

End Errors.

(** C5, as the code has it.  A [RequestException] raised by [download_to]
    for one file is caught and reported, the file is counted neither as
    downloaded nor as skipped, and the loop goes on with the next file.  An
    error status other than 403 on a page of a module is not caught: the
    harvest ends with [HTTPError], and an exception of the harvest ends the
    loop over the selected modules with that exception. *)
Theorem C5_download_errors_isolated :
  (∀ (srv : server) (mod_dir : path) (fid : Z) (fids : list Z)
      (downloaded skipped : Z) (w : world) (fr : response)
      (meta : list (str * json)) (name : str) (size : Z) (w2 : world) (e : exn),
      srv (trace w) (Spec.meta_request fid) = Some fr ->
      status_code fr ≠ 403 -> Spec.error_status fr = false ->
      json_body fr = Some (JObj meta) ->
      Spec.meta_name fid meta = JStr name ->
      truthy (Spec.meta_url meta) = true ->
      Spec.meta_size meta = Val size ->
      ¬ Spec.already_synced (fs w) (path_div mod_dir (sanitize name)) size ->
      download_to srv (Spec.meta_url meta) (path_div mod_dir (sanitize name))
        (World (trace w ++ [EvGet (Spec.meta_request fid)]) (fs w))
      = (w2, Exc e) ->
      is_RequestException e = true ->
      for_each (download_one srv mod_dir) (downloaded, skipped) (fid :: fids) w
      = for_each (download_one srv mod_dir) (downloaded, skipped) fids
          (World (trace w2 ++ [EvPrint (MsgFailed name e)]) (fs w2)))
  ∧ (∀ (srv : server) (course_id : Z) (kv : list (str * json))
        (items : list json) (w : world) (pr : response),
        forallb Spec.is_object items = true ->
        json_is_str "Page" (default JNull (dict_get "type" kv)) = true ->
        truthy (default JNull (dict_get "page_url" kv)) = true ->
        srv (trace w)
          (Request (PageOf course_id (default JNull (dict_get "page_url" kv)))
             None false) = Some pr ->
        status_code pr ≠ 403 -> Spec.error_status pr = true ->
        harvest srv course_id (JObj kv :: items) w
        = (World (trace w
                    ++ [EvGet (Request
                                 (PageOf course_id
                                    (default JNull (dict_get "page_url" kv)))
                                 None false)]) (fs w),
           Exc (HTTPError (status_code pr))))
  ∧ (∀ (srv : server) (new_dir_size : Z) (fuel : nat) (course_id : Z)
        (modules : list json) (base : path) (grand : Z * Z) (choice : Z)
        (choices : list Z) (w w1 : world) (mod_dir : path) (it : json)
        (items : list json) (w2 : world) (e : exn),
        open_module srv new_dir_size fuel course_id modules base choice w
        = (w1, Val (mod_dir, it :: items)) ->
        harvest srv course_id (it :: items) w1 = (w2, Exc e) ->
        for_each (process_module srv new_dir_size fuel course_id modules base)
          grand (choice :: choices) w
        = (w2, Exc e)).
Proof.
  split; [|split].
  - intros. by eapply failed_download_continues.
  - intros. by apply harvest_page_error.
  - intros. by eapply harvest_error_ends_run.
Qed.

(** ** Two runs *)

(** C5 as the specification states it fails.  Modules 1 and 2 are
    selected; the page of module 1 is answered with status 500.  The run
    ends there with [HTTPError]: the items of module 2 are never asked for
    and its directory is never created, although module 2 selected alone
    is processed to the end with its file downloaded. *)
Lemma C5_page_error_aborts_run :
  let run choices :=
    run_modules Spec.broken_page_server 4096 8 42 Spec.run_modules_list
      Spec.course_dir choices (World [] ∅) in
  (run [1; 2]).2 = Exc (HTTPError 500)
  ∧ trace (run [1; 2]).1
    = [EvPrint (MsgModule "Week 1" 1);
       EvPrint (MsgSavingTo (Spec.course_dir ++ ["Week 1" : str]));
       EvGet (Request (ModuleItems 42 (JInt 10)) Spec.items_params false);
       EvGet (Request (PageOf 42 (JStr "week-1-overview")) None false)]
  ∧ fs (run [1; 2]).1 !! (Spec.course_dir ++ ["Week 2" : str]) = None
  ∧ (run [2]).2 = Val (1, 0)
  ∧ fs (run [2]).1 !! (Spec.course_dir ++ ["Week 2" : str; "Week 1_ Intro_Notes" : str])
    = Some (File (concat Spec.retry_body)).
Proof. repeat split; vm_compute; reflexivity. Qed.

(** The file of module 1 cannot be fetched; the failure is printed, the
    module ends with nothing downloaded, and module 2 is processed. *)
Lemma flaky_run :
  let r := run_modules Spec.flaky_server 4096 8 42 Spec.run_modules_list
             Spec.course_dir [1; 2] (World [] ∅) in
  r.2 = Val (1, 0)
  ∧ List.filter (fun ev => match ev with EvPrint _ => true | _ => false end)
      (trace r.1)
    = [EvPrint (MsgModule "Week 1" 1);
       EvPrint (MsgSavingTo (Spec.course_dir ++ ["Week 1" : str]));
       EvPrint (MsgFailed "Week 1: Intro/Notes. " NetworkError);
       EvPrint (MsgModuleDone 0 0);
       EvPrint (MsgModule "Week 2" 2);
       EvPrint (MsgSavingTo (Spec.course_dir ++ ["Week 2" : str]));
       EvPrint (MsgModuleDone 1 0);
       EvPrint (MsgAllDone 1 0);
       EvPrint (MsgSavedUnder Spec.course_dir)]
  ∧ fs r.1 !! (Spec.course_dir ++ ["Week 2" : str; "b.pdf" : str])
    = Some (File (concat Spec.retry_body)).
Proof. repeat split; vm_compute; reflexivity. Qed.

Lemma C5_download_errors_isolated_witness :
  for_each (download_one Spec.flaky_server Spec.retry_dir) (0, 0) [501; 502]
    Spec.retry_world
  = for_each (download_one Spec.flaky_server Spec.retry_dir) (0, 0) [502]
      (World [EvGet (Spec.meta_request 501);
              EvGet (Spec.download_request Spec.file_url);
              EvPrint (MsgFailed "Week 1: Intro/Notes. " NetworkError)]
         (fs Spec.retry_world)).
Proof.
  apply (proj1 C5_download_errors_isolated Spec.flaky_server Spec.retry_dir 501
           [502] 0 0 Spec.retry_world
           (Response 200 [] (Some (Spec.file_meta (JInt 6))) [] true)
           Spec.file_members_6 "Week 1: Intro/Notes. " 6
           (World [EvGet (Spec.meta_request 501);
                   EvGet (Spec.download_request Spec.file_url)]
              (fs Spec.retry_world))
           NetworkError).
  - reflexivity.
  - discriminate.
  - reflexivity.
  - reflexivity.
  - reflexivity.
  - reflexivity.
  - reflexivity.
  - intros (n & Hn & _). vm_compute in Hn. discriminate.
  - reflexivity.
  - reflexivity.
Defined.

(** * Further properties of the code *)

(** ** The Link header parser *)

Lemma next_of_app (a b : list (str * str)) :
  Spec.next_of (a ++ b)
  = match Spec.next_of b with
    | Some u => Some u
    | None => Spec.next_of a
    end.
Proof.
  unfold Spec.next_of. rewrite fold_left_app.
  set (f := fun (acc : option str) (e : str * str) =>
              if bool_decide (e.2 = ("next" : str)) then Some e.1 else acc).
  generalize (fold_left f a None) as acc.
  induction b as [|e b IH]; intros acc; [done|].
  cbn [fold_left]. rewrite (IH (f acc e)), (IH (f None e)).
  destruct (fold_left f b None) as [u|]; [done|].
  unfold f. by case_bool_decide.
Qed.

Lemma next_of_no_next (entries : list (str * str)) :
  Ext.no_next entries = true -> Spec.next_of entries = None.
Proof.
  induction entries as [|e entries IH] using rev_ind; [done|].
  unfold Ext.no_next. rewrite forallb_app. intros [H1 H2]%andb_prop.
  rewrite next_of_app, IH by done. cbn in *.
  rewrite andb_true_r in H2. apply negb_true_iff in H2.
  unfold Spec.next_of. cbn. by rewrite H2.
Qed.

(** X1.  Parsing a rendered Link header gives back the URL of its [next]
    entry: the entries before it, whatever their relation, and the entries
    after it that carry another relation do not matter; a header without a
    [next] entry gives no URL. *)
Theorem X1_next_link_round_trip :
  (∀ (before after : list (str * str)) (u : str),
      Spec.plain_entries (before ++ (u, "next" : str) :: after) = true ->
      Ext.no_next after = true ->
      next_link (Spec.render_link (before ++ (u, "next" : str) :: after))
      = Some u)
  ∧ (∀ entries : list (str * str),
        Spec.plain_entries entries = true -> Ext.no_next entries = true ->
        next_link (Spec.render_link entries) = None).
Proof.
  split.
  - intros before after u Hplain Hafter.
    rewrite next_link_render by done.
    change ((u, "next" : str) :: after) with ([(u, "next" : str)] ++ after).
    rewrite !next_of_app, next_of_no_next by done. reflexivity.
  - intros entries Hplain Hno. rewrite next_link_render by done.
    by apply next_of_no_next.
Qed.

Lemma X1_next_link_round_trip_witness :
  next_link
    (Spec.render_link
       [(Spec.mock_url 1, "current" : str); (Spec.mock_url 9, "next" : str);
        (Spec.mock_url 2, "next" : str); (Spec.mock_url 3, "last" : str)])
  = Some (Spec.mock_url 2).
Proof.
  apply (proj1 X1_next_link_round_trip
           [(Spec.mock_url 1, "current" : str); (Spec.mock_url 9, "next" : str)]
           [(Spec.mock_url 3, "last" : str)] (Spec.mock_url 2));
    vm_compute; reflexivity.
Defined.

(** ** [get_all] when a page fails *)

Section GetAllFails.

Variable srv : server.

(** The loop after a run of pages that are served well. *)
Lemma get_all_loop_until (pages : list Spec.page) :
  ∀ (fuel : nat) params results w (next : str),
    Ext.serves_until srv (trace w) params pages next ->
    (length pages <= fuel)%nat ->
    get_all_loop srv fuel (Some (Url (JStr (Ext.first_url pages next))))
      params results w
    = get_all_loop srv (fuel - length pages) (Some (Url (JStr next)))
        (Ext.params_after params pages)
        (results ++ concat (map Spec.pg_records pages))
        (World (trace w ++ Ext.page_requests params pages) (fs w)).
Proof.
  induction pages as [|p pages IH]; intros fuel params results w next Hs Hf.
  - cbn. rewrite Nat.sub_0_r, !app_nil_r. by destruct w.
  - destruct Hs as (Hurl & (resp & Hsrv & Hreply) & Hnext & Hrest).
    destruct fuel as [|fuel]; [simpl in Hf; lia|].
    cbn [Ext.first_url]. rewrite get_all_loop_S.
    unfold url_truthy, truthy. rewrite bool_decide_false by done. cbn [negb].
    rewrite (bind_val _ _ _ _ _ (get_page_reply srv p params results w resp
                                   Hsrv Hreply)).
    rewrite Hnext. cbn [fmap option_fmap option_map].
    change (match pages with [] => next | q :: _ => Spec.pg_url q end)
      with (Ext.first_url pages next).
    rewrite (IH fuel None (results ++ Spec.pg_records p)
               (World (trace w ++ [EvGet (Spec.page_request p params)]) (fs w))
               next Hrest) by (simpl in Hf; lia).
    cbn [trace fs length Nat.sub map concat Ext.params_after].
    f_equal; [by destruct pages|by rewrite app_assoc|].
    f_equal. rewrite <- app_assoc. f_equal. by destruct pages.
Qed.

End GetAllFails.

(** X2.  When the pages of a collection are served well up to some point
    and the request for the page that follows fails, by the network or
    with an error status (403 included), [get_all] ends with that failure:
    the records of the pages already fetched are not returned, and no
    request is made after the failing one. *)
Theorem X2_get_all_fails_whole (srv : server) (w : world)
    (params : option (list (str * json))) (pages : list Spec.page)
    (next : str) (fuel : nat) :
  Ext.serves_until srv (trace w) params pages next ->
  next ≠ [] ->
  (length pages < fuel)%nat ->
  let tr := trace w ++ Ext.page_requests params pages in
  let req := Request (Url (JStr next)) (Ext.params_after params pages) false in
  match srv tr req with
  | None =>
      get_all srv fuel (Url (JStr (Ext.first_url pages next))) params w
      = (World (tr ++ [EvGet req]) (fs w), Exc NetworkError)
  | Some resp =>
      Spec.error_status resp = true ->
      get_all srv fuel (Url (JStr (Ext.first_url pages next))) params w
      = (World (tr ++ [EvGet req]) (fs w), Exc (HTTPError (status_code resp)))
  end.
Proof.
  intros Hs Hnext Hf tr req. unfold get_all.
  rewrite (get_all_loop_until srv pages fuel params [] w next Hs) by lia.
  destruct (fuel - length pages)%nat as [|fuel'] eqn:E; [lia|].
  rewrite get_all_loop_S. unfold url_truthy, truthy.
  rewrite bool_decide_false by done. cbn [negb].
  fold tr. subst req.
  destruct (srv tr (Request (Url (JStr next)) (Ext.params_after params pages) false))
    as [resp|] eqn:Hsrv.
  - intros Herr. apply bind_exc. rewrite get_page_unfold. cbn [trace fs].
    rewrite Hsrv. cbn zeta. unfold Spec.error_status in Herr. by rewrite Herr.
  - apply bind_exc. rewrite get_page_unfold. cbn [trace fs].
    by rewrite Hsrv.
Qed.

Lemma broken_mock_served :
  Ext.serves_until Ext.broken_mock_server [] Spec.mock_params
    (take 2 Spec.mock_pages) (Spec.mock_url 3).
Proof.
  cbn [take Spec.mock_pages Ext.serves_until].
  repeat match goal with
         | |- _ ∧ _ => split
         | |- ∃ resp, _ = Some resp ∧ _ => eexists; split; [vm_compute; reflexivity|]
         | |- Spec.page_reply _ _ => unfold Spec.page_reply
         | |- ∃ body, _ = Some body ∧ _ => eexists; split; [reflexivity|]
         | |- Spec.holds_records (JList _) _ => by left
         | |- Spec.holds_records (JObj _) _ => right; eexists; split; reflexivity
         | |- _ ∨ _ => left; vm_compute; reflexivity
         | |- _ ≠ [] => discriminate
         | |- True => exact I
         | |- _ = _ => vm_compute; reflexivity
         end.
Qed.

Lemma X2_get_all_fails_whole_witness :
  get_all Ext.broken_mock_server 5 (Url (JStr (Spec.mock_url 1)))
    Spec.mock_params (World [] ∅)
  = (World [EvGet (Request (Url (JStr (Spec.mock_url 1))) Spec.mock_params false);
            EvGet (Request (Url (JStr (Spec.mock_url 2))) None false);
            EvGet (Request (Url (JStr (Spec.mock_url 3))) None false)] ∅,
     Exc (HTTPError 503)).
Proof.
  pose proof (X2_get_all_fails_whole Ext.broken_mock_server (World [] ∅)
                Spec.mock_params (take 2 Spec.mock_pages) (Spec.mock_url 3) 5
                broken_mock_served ltac:(discriminate) ltac:(simpl; lia)) as H.
  cbv zeta in H.
  change (Ext.broken_mock_server _ _) with (Some (Response 503 [] None [] true)) in H.
  cbv iota in H. exact (H eq_refl).
Defined.

(** ** [download_to] on its first reply *)

Section DownloadFirst.

Variable srv : server.

Lemma stream_to_writable target resp w :
  Spec.length_ok resp = true -> Spec.writable (fs w) target = true ->
  stream_to target resp w
  = (World (trace w) (<[target := File (concat (content resp))]> (fs w)),
     if stream_ok resp then Val tt else Exc NetworkError).
Proof.
  intros Hlen Hw. unfold stream_to.
  assert (∃ n, int_header_or_0 (headers_get "Content-Length" (headers resp)) w
               = (w, Val n)) as [n E].
  { unfold Spec.length_ok in Hlen. unfold int_header_or_0.
    destruct (headers_get "Content-Length" (headers resp)) as [[|c s]|];
      [by exists 0| |by exists 0].
    apply bool_decide_eq_true in Hlen as [n ->]. by exists n. }
  rewrite (bind_val _ _ _ _ _ E).
  assert (open_wb target w
          = (World (trace w) (<[target := File []]> (fs w)), Val tt)) as E2.
  { unfold open_wb, Spec.writable in *. munfold.
    destruct (fs w !! target) as [[|]|], (fs w !! parent target) as [[|]|];
      done. }
  rewrite (bind_val _ _ _ _ _ E2).
  rewrite (bind_val _ _ _ _ _
             (write_chunks target (content resp) [] _ (lookup_insert_eq _ _ _))).
  cbn [trace fs]. rewrite insert_insert_eq.
  by destruct (stream_ok resp).
Qed.

Lemma stream_to_refused target resp w :
  Spec.length_ok resp = false ∨ Spec.writable (fs w) target = false ->
  ∃ e, stream_to target resp w = (w, Exc e) ∧ is_RequestException e = false.
Proof.
  intros H. unfold stream_to, int_header_or_0, Spec.length_ok in *.
  destruct (headers_get "Content-Length" (headers resp)) as [[|c s]|] eqn:Hh.
  2: { destruct (Py.int (c :: s)) as [n|] eqn:Hn.
       2: { exists ValueError. by munfold. }
       destruct H as [H|H];
         [by rewrite bool_decide_true in H by by exists n|].
       munfold. unfold open_wb, Spec.writable in *. munfold.
       exists OSError.
       destruct (fs w !! target) as [[|]|], (fs w !! parent target) as [[|]|];
         done. }
  all: destruct H as [H|H]; [done|]; munfold;
    unfold open_wb, Spec.writable in *; munfold; exists OSError;
    destruct (fs w !! target) as [[|]|], (fs w !! parent target) as [[|]|];
    done.
Qed.

End DownloadFirst.

(** X3.  A download that is refused changes no file.  When the request
    fails in the network, when the first reply has an error status other
    than 429, when its Content-Length is no number, or when the target
    cannot be opened for writing, [download_to] ends with an exception
    after that one request, and the file system, the previous content of
    the target included, is as before. *)
Theorem X3_download_refused_keeps_files (srv : server) (w : world) (url : json)
    (target : path) :
  let req := Spec.download_request url in
  let w1 := World (trace w ++ [EvGet req]) (fs w) in
  match srv (trace w) req with
  | None => download_to srv url target w = (w1, Exc NetworkError)
  | Some resp =>
      status_code resp ≠ 429 ->
      (Spec.error_status resp = true ->
       download_to srv url target w = (w1, Exc (HTTPError (status_code resp))))
      ∧ (Spec.error_status resp = false ->
         Spec.length_ok resp = false ∨ Spec.writable (fs w) target = false ->
         ∃ e, download_to srv url target w = (w1, Exc e)
              ∧ is_RequestException e = false)
  end.
Proof.
  intros req w1. unfold download_to. fold req. unfold Spec.download_request in req.
  destruct (srv (trace w) req) as [resp|] eqn:Hsrv.
  - intros H429.
    rewrite (bind_val _ _ _ _ _ (session_get_some srv _ _ _ Hsrv)).
    replace (status_code resp =? 429) with false by lia. fold w1. split.
    + intros Herr.
      by rewrite (bind_exc _ _ _ _ _ (raise_for_status_error _ _ Herr)).
    + intros Herr Href.
      rewrite (bind_val _ _ _ _ _ (raise_for_status_ok _ _ Herr)).
      destruct (stream_to_refused target resp w1 Href) as (e & E & He). eauto.
  - by rewrite (bind_exc _ _ _ _ _ (session_get_none srv _ _ Hsrv)).
Qed.

Lemma X3_download_refused_keeps_files_witness :
  ∃ e, download_to Spec.broken_page_server (JStr "https://files.example.edu/f/1")
         Spec.course_dir Spec.synced_world
       = (World [EvGet (Spec.download_request
                          (JStr "https://files.example.edu/f/1"))]
            (fs Spec.synced_world), Exc e)
       ∧ is_RequestException e = false.
Proof.
  pose proof (X3_download_refused_keeps_files Spec.broken_page_server
                Spec.synced_world (JStr "https://files.example.edu/f/1")
                Spec.course_dir) as H.
  cbv zeta in H.
  change (Spec.broken_page_server _ _)
    with (Some (Response 200 [] None Spec.retry_body true)) in H.
  cbv iota in H.
  destruct H as [_ H]; [discriminate|].
  apply H; [reflexivity|]. right. vm_compute. reflexivity.
Defined.

(** X4.  There is no temporary file: when the stream of a download breaks,
    the target holds the chunks received so far in place of its previous
    content.  The loop over the files reports the failure, counts the file
    neither as downloaded nor as skipped, and goes on. *)
Theorem X4_broken_stream_leaves_partial_file (srv : server) (w : world)
    (mod_dir : path) (fid : Z) (downloaded skipped : Z) (fr resp : response)
    (meta : list (str * json)) (name : str) (size : Z) :
  srv (trace w) (Spec.meta_request fid) = Some fr ->
  status_code fr ≠ 403 -> Spec.error_status fr = false ->
  json_body fr = Some (JObj meta) ->
  Spec.meta_name fid meta = JStr name ->
  truthy (Spec.meta_url meta) = true ->
  Spec.meta_size meta = Val size ->
  let target := path_div mod_dir (sanitize name) in
  let tr1 := trace w ++ [EvGet (Spec.meta_request fid)] in
  ¬ Spec.already_synced (fs w) target size ->
  srv tr1 (Spec.download_request (Spec.meta_url meta)) = Some resp ->
  status_code resp ≠ 429 -> Spec.error_status resp = false ->
  Spec.length_ok resp = true -> Spec.writable (fs w) target = true ->
  stream_ok resp = false ->
  download_one srv mod_dir (downloaded, skipped) fid w
  = (World (tr1 ++ [EvGet (Spec.download_request (Spec.meta_url meta));
                    EvPrint (MsgFailed name NetworkError)])
       (<[target := File (concat (content resp))]> (fs w)),
     Val (downloaded, skipped)).
Proof.
  intros Hsrv H403 Herr Hbody Hname Hurl Hsize target tr1 Hns Hsrv2 H429 Herr2
    Hlen Hw Hok.
  rewrite (download_one_resolved srv mod_dir fid downloaded skipped w fr meta
             name size) by done. cbn zeta. fold target tr1.
  rewrite <- synced_test in Hns. apply not_true_is_false in Hns. rewrite Hns.
  unfold download_to.
  rewrite (bind_val _ _ _ _ _ (session_get_some srv _ (World tr1 (fs w)) _ Hsrv2)).
  replace (status_code resp =? 429) with false by lia.
  rewrite (bind_val _ _ _ _ _ (raise_for_status_ok _ _ Herr2)).
  rewrite stream_to_writable by done. rewrite Hok. cbn [is_RequestException trace fs].
  by rewrite <- app_assoc.
Qed.

Lemma X4_broken_stream_leaves_partial_file_witness :
  download_one Ext.breaking_server Spec.retry_dir (0, 0) 501 Spec.retry_world
  = (World [EvGet (Spec.meta_request 501);
            EvGet (Spec.download_request Spec.file_url);
            EvPrint (MsgFailed "Week 1: Intro/Notes. " NetworkError)]
       (<[Spec.retry_dir ++ ["Week 1_ Intro_Notes" : str]
          := File [Byte.x25; Byte.x50; Byte.x44]]> (fs Spec.retry_world)),
     Val (0, 0)).
Proof.
  apply (X4_broken_stream_leaves_partial_file Ext.breaking_server
           Spec.retry_world Spec.retry_dir 501 0 0
           (Response 200 [] (Some (Spec.file_meta (JInt 6))) [] true)
           (Response 200 [] None [[Byte.x25; Byte.x50]; [Byte.x44]] false)
           Spec.file_members_6 "Week 1: Intro/Notes. " 6);
    try reflexivity; try discriminate.
  intros (n & Hn & _). vm_compute in Hn. discriminate.
Defined.

(** X5.  A 429 reply whose Retry-After header is not an integer, a date for
    instance, or is a negative one, makes [download_to] raise [ValueError]
    before it sleeps or asks again; a number of seconds that [time.sleep]
    cannot take makes it raise [OverflowError] in the same way.  Neither is
    a [RequestException]: the loop over the files does not catch it, and
    the files that follow are not processed. *)
Theorem X5_retry_after_must_be_seconds (srv : server) (w : world)
    (mod_dir : path) (fid : Z) (fids : list Z) (downloaded skipped : Z)
    (fr resp : response) (meta : list (str * json)) (name : str) (size : Z)
    (e : exn) :
  srv (trace w) (Spec.meta_request fid) = Some fr ->
  status_code fr ≠ 403 -> Spec.error_status fr = false ->
  json_body fr = Some (JObj meta) ->
  Spec.meta_name fid meta = JStr name ->
  truthy (Spec.meta_url meta) = true ->
  Spec.meta_size meta = Val size ->
  let target := path_div mod_dir (sanitize name) in
  let tr1 := trace w ++ [EvGet (Spec.meta_request fid)] in
  let w2 := World (tr1 ++ [EvGet (Spec.download_request (Spec.meta_url meta))])
              (fs w) in
  ¬ Spec.already_synced (fs w) target size ->
  srv tr1 (Spec.download_request (Spec.meta_url meta)) = Some resp ->
  status_code resp = 429 ->
  match Py.int (default ("3" : str) (headers_get "Retry-After" (headers resp))) with
  | Some secs =>
      (secs < 0 ∨ sleep_max < secs)
      ∧ e = (if (secs <? - sleep_max) || (sleep_max <? secs)
             then OverflowError else ValueError)
  | None => e = ValueError
  end ->
  is_RequestException e = false
  ∧ download_to srv (Spec.meta_url meta) target (World tr1 (fs w))
    = (w2, Exc e)
  ∧ for_each (download_one srv mod_dir) (downloaded, skipped) (fid :: fids) w
    = (w2, Exc e).
Proof.
  intros Hsrv H403 Herr Hbody Hname Hurl Hsize target tr1 w2 Hns Hsrv2 H429 Hra.
  assert (Spec.retry_after_error
            (Py.int (default ("3" : str)
                       (headers_get "Retry-After" (headers resp)))) = Some e)
    as He.
  { unfold Spec.retry_after_error.
    destruct (Py.int _) as [secs|]; [|by subst e].
    destruct Hra as [Hsecs ->].
    destruct ((secs <? - sleep_max) || (sleep_max <? secs)) eqn:Hfit; [done|].
    by replace (secs <? 0) with true by (unfold sleep_max in *; lia). }
  assert (is_RequestException e = false) as Hno.
  { unfold Spec.retry_after_error in He.
    destruct (Py.int _) as [secs|]; [|by injection He as <-].
    destruct ((secs <? - sleep_max) || (sleep_max <? secs));
      [by injection He as <-|].
    destruct (secs <? 0); [by injection He as <-|done]. }
  assert (download_to srv (Spec.meta_url meta) target (World tr1 (fs w))
          = (w2, Exc e)) as E
    by (by apply (download_to_429_refused srv _ target (World tr1 (fs w)) resp)).
  split; [exact Hno|]. split; [exact E|].
  cbn [for_each]. apply bind_exc.
  rewrite (download_one_resolved srv mod_dir fid downloaded skipped w fr meta
             name size) by done. cbn zeta. fold target tr1.
  rewrite <- synced_test in Hns. apply not_true_is_false in Hns.
  by rewrite Hns, E, Hno.
Qed.

Lemma X5_retry_after_must_be_seconds_witness :
  for_each (download_one Ext.dated_retry_server Spec.retry_dir) (0, 0)
    [501; 502] Spec.retry_world
  = (World [EvGet (Spec.meta_request 501);
            EvGet (Spec.download_request Spec.file_url)]
       (fs Spec.retry_world), Exc ValueError).
Proof.
  apply (X5_retry_after_must_be_seconds Ext.dated_retry_server Spec.retry_world
           Spec.retry_dir 501 [502] 0 0
           (Response 200 [] (Some (Spec.file_meta (JInt 6))) [] true)
           (Response 429 [("Retry-After" : str, Ext.retry_date)] None [] true)
           Spec.file_members_6 "Week 1: Intro/Notes. " 6 ValueError);
    try reflexivity; try discriminate.
  intros (n & Hn & _). vm_compute in Hn. discriminate.
Defined.

(** ** The download loop: files passed over, counters, order *)

Ltac munfold_in H :=
  unfold mbind, M_bind, mret, M_ret, raise, out_of_fuel, emit, print,
    get_fs, set_fs, try_except in H.

Section LoopExtra.

Variable srv : server.

(** [download_one] up to the test of the URL. *)
Lemma download_one_meta mod_dir fid downloaded skipped w fr meta :
  srv (trace w) (Spec.meta_request fid) = Some fr ->
  status_code fr ≠ 403 -> Spec.error_status fr = false ->
  json_body fr = Some (JObj meta) ->
  let w1 := World (trace w ++ [EvGet (Spec.meta_request fid)]) (fs w) in
  match Spec.meta_size meta with
  | Val _ =>
      truthy (Spec.meta_url meta) = false ->
      download_one srv mod_dir (downloaded, skipped) fid w
      = (w1, Val (downloaded, skipped))
  | Exc e =>
      download_one srv mod_dir (downloaded, skipped) fid w = (w1, Exc e)
  | OutOfFuel => True
  end.
Proof.
  intros Hsrv H403 Herr Hbody w1. unfold download_one.
  rewrite (bind_val _ _ _ _ _ (session_get_some srv _ _ _ Hsrv)).
  replace (status_code fr =? 403) with false by lia.
  rewrite (bind_val _ _ _ _ _ (raise_for_status_ok _ _ Herr)).
  unfold resp_json. rewrite Hbody.
  unfold Spec.meta_url, Spec.meta_size in *.
  munfold. cbn [py_get]. munfold. unfold int_of_json.
  destruct (json_int _) as [size|e|]; [|done..].
  cbn zeta. by intros ->.
Qed.

End LoopExtra.

(** X6.  Files that are passed over in silence.  A 403 reply to the
    metadata request, or metadata that names no download URL, ends the step
    after that one request: nothing is downloaded, nothing printed, and the
    file is counted neither as downloaded nor as skipped.  The size is read
    before the URL is looked at, so a size that [int()] rejects raises even
    for a file without URL. *)
Theorem X6_files_passed_over (srv : server) (w : world) (mod_dir : path)
    (fid downloaded skipped : Z) (fr : response) :
  srv (trace w) (Spec.meta_request fid) = Some fr ->
  let w1 := World (trace w ++ [EvGet (Spec.meta_request fid)]) (fs w) in
  (status_code fr = 403 ->
   download_one srv mod_dir (downloaded, skipped) fid w
   = (w1, Val (downloaded, skipped)))
  ∧ ∀ meta : list (str * json),
      status_code fr ≠ 403 -> Spec.error_status fr = false ->
      json_body fr = Some (JObj meta) ->
      match Spec.meta_size meta with
      | Val _ =>
          truthy (Spec.meta_url meta) = false ->
          download_one srv mod_dir (downloaded, skipped) fid w
          = (w1, Val (downloaded, skipped))
      | Exc e =>
          download_one srv mod_dir (downloaded, skipped) fid w = (w1, Exc e)
      | OutOfFuel => True
      end.
Proof.
  intros Hsrv w1. split.
  - intros H403. unfold download_one.
    rewrite (bind_val _ _ _ _ _ (session_get_some srv _ _ _ Hsrv)).
    by rewrite H403.
  - intros meta H403 Herr Hbody.
    by apply (download_one_meta srv mod_dir fid downloaded skipped w fr meta).
Qed.

Lemma X6_files_passed_over_witness :
  download_one Ext.locked_server Spec.retry_dir (3, 4) 501 Spec.retry_world
  = (World [EvGet (Spec.meta_request 501)] (fs Spec.retry_world), Val (3, 4))
  ∧ download_one Ext.locked_server Spec.retry_dir (3, 4) 502 Spec.retry_world
    = (World [EvGet (Spec.meta_request 502)] (fs Spec.retry_world), Val (3, 4))
  ∧ download_one Ext.locked_server Spec.retry_dir (3, 4) 503 Spec.retry_world
    = (World [EvGet (Spec.meta_request 503)] (fs Spec.retry_world),
       Exc ValueError).
Proof.
  split; [|split].
  - apply (proj1 (X6_files_passed_over Ext.locked_server Spec.retry_world
                    Spec.retry_dir 501 3 4 (Response 403 [] None [] true)
                    eq_refl)).
    reflexivity.
  - apply (proj2 (X6_files_passed_over Ext.locked_server Spec.retry_world
                    Spec.retry_dir 502 3 4
                    (Response 200 [] (Some (JObj Ext.no_url_members)) [] true)
                    eq_refl) Ext.no_url_members);
      [discriminate|reflexivity..].
  - apply (proj2 (X6_files_passed_over Ext.locked_server Spec.retry_world
                    Spec.retry_dir 503 3 4
                    (Response 200 [] (Some (JObj Ext.bad_size_members)) [] true)
                    eq_refl) Ext.bad_size_members);
      [discriminate|reflexivity..].
Defined.

(** *** The counters *)

Lemma yields_ret {A} (Q : A -> Prop) a : Q a -> Ext.yields Q (mret a).
Proof. intros H w w' b [= _ <-]. done. Qed.

Lemma yields_raise {A} (Q : A -> Prop) e : Ext.yields Q (raise e).
Proof. by intros w w' b. Qed.

Lemma yields_bind {A B} (Q : B -> Prop) (m : M A) (k : A -> M B) :
  (∀ a, Ext.yields Q (k a)) -> Ext.yields Q (x ← m; k x).
Proof.
  intros Hk w w' b. munfold. destruct (m w) as [w1 [a| |]]; [|done..].
  apply Hk.
Qed.

Lemma yields_try {A} (Q : A -> Prop) (body : M A) handles handler :
  Ext.yields Q body -> (∀ e, Ext.yields Q (handler e)) ->
  Ext.yields Q (try_except body handles handler).
Proof.
  intros Hb Hh w w' a. unfold try_except.
  destruct (body w) as [w1 [b|e|]] eqn:E; [|destruct (handles e)|]; try done.
  - intros [= <- <-]. by eapply Hb.
  - apply Hh.
Qed.

Lemma download_one_counted srv mod_dir counts fid :
  Ext.yields (Ext.counted_once counts) (download_one srv mod_dir counts fid).
Proof.
  destruct counts as [d s]. unfold download_one.
  apply yields_bind. intros fr.
  destruct (status_code fr =? 403); [apply yields_ret; by left|].
  repeat (cbv zeta; apply yields_bind; intros ?).
  match goal with |- Ext.yields _ (if ?b then _ else _) => destruct b end;
    [apply yields_ret; by left|].
  repeat (cbv zeta; apply yields_bind; intros ?).
  match goal with |- Ext.yields _ (if ?b then _ else _) => destruct b end.
  - apply yields_ret. right. by right.
  - apply yields_try.
    + apply yields_bind. intros _. apply yields_ret. right. by left.
    + intros e. apply yields_bind. intros _. apply yields_ret. by left.
Qed.

Lemma download_loop_counted srv mod_dir (fids : list Z) :
  ∀ d0 s0 w w' d s,
    for_each (download_one srv mod_dir) (d0, s0) fids w = (w', Val (d, s)) ->
    d0 <= d ∧ s0 <= s ∧ (d - d0) + (s - s0) <= Z.of_nat (length fids).
Proof.
  induction fids as [|fid fids IH]; intros d0 s0 w w' d s H.
  - cbn in H. injection H as _ <- <-. simpl. lia.
  - cbn [for_each] in H. munfold_in H.
    destruct (download_one srv mod_dir (d0, s0) fid w) as [w1 [[d1 s1]| |]] eqn:E;
      [|done..].
    apply download_one_counted in E. apply IH in H.
    cbn [length]. destruct E as [E|[E|E]]; injection E as -> ->; lia.
Qed.

(** X7.  Whenever the loop over the files of a module comes to its end,
    its two counters are not negative and their sum is at most the number
    of file identifiers: every file is counted at most once, as downloaded
    or as skipped. *)
Theorem X7_counters_bounded (srv : server) (mod_dir : path) (ids : gset Z)
    (w w' : world) (downloaded skipped : Z) :
  download_files srv mod_dir ids w = (w', Val (downloaded, skipped)) ->
  0 <= downloaded ∧ 0 <= skipped
  ∧ downloaded + skipped <= Z.of_nat (size ids).
Proof.
  intros H. unfold download_files in H. apply download_loop_counted in H.
  assert (length (sorted ids) = size ids) as E.
  { unfold sorted. by rewrite merge_sort_Permutation. }
  rewrite E in H. lia.
Qed.

Lemma flaky_run_counts :
  (download_files Spec.flaky_server Spec.retry_dir {[501; 502]}
     Spec.retry_world).2 = Val (1, 0).
Proof. vm_compute. reflexivity. Qed.

Lemma X7_counters_bounded_witness :
  0 <= 1 ∧ 0 <= 0 ∧ 1 + 0 <= Z.of_nat (size ({[501; 502]} : gset Z)).
Proof.
  pose proof flaky_run_counts as E.
  destruct (download_files Spec.flaky_server Spec.retry_dir {[501; 502]}
              Spec.retry_world) as [w' o] eqn:H.
  cbn [snd] in E. subst o.
  exact (X7_counters_bounded _ _ _ _ _ _ _ H).
Defined.

(** *** The order of the metadata requests *)

Lemma meta_fids_app (a b : list event) :
  Ext.meta_fids (a ++ b) = Ext.meta_fids a ++ Ext.meta_fids b.
Proof. unfold Ext.meta_fids. apply flat_map_app. Qed.

Lemma no_meta_silent {A} (m : M A) : Spec.silent m -> Ext.no_meta m.
Proof. intros H w. exists []. by rewrite app_nil_r. Qed.

Lemma no_meta_ret {A} (a : A) : Ext.no_meta (mret a).
Proof. by apply no_meta_silent. Qed.

Lemma no_meta_raise {A} e : Ext.no_meta (@raise A e).
Proof. by apply no_meta_silent. Qed.

Lemma no_meta_bind {A B} (m : M A) (k : A -> M B) :
  Ext.no_meta m -> (∀ a, Ext.no_meta (k a)) -> Ext.no_meta (x ← m; k x).
Proof.
  intros Hm Hk w. munfold. destruct (Hm w) as (evs & E & Hevs).
  destruct (m w) as [w' [a| |]]; cbn in *; [|by exists evs..].
  destruct (Hk a w') as (evs' & E' & Hevs'). exists (evs ++ evs').
  by rewrite E', E, app_assoc, meta_fids_app, Hevs, Hevs'.
Qed.

Lemma no_meta_try {A} (body : M A) handles handler :
  Ext.no_meta body -> (∀ e, Ext.no_meta (handler e)) ->
  Ext.no_meta (try_except body handles handler).
Proof.
  intros Hb Hh w. unfold try_except. destruct (Hb w) as (evs & E & Hevs).
  destruct (body w) as [w' [a|e|]]; cbn in *; [by exists evs| |by exists evs].
  destruct (handles e); [|by exists evs].
  destruct (Hh e w') as (evs' & E' & Hevs'). exists (evs ++ evs').
  by rewrite E', E, app_assoc, meta_fids_app, Hevs, Hevs'.
Qed.

Lemma no_meta_print msg : Ext.no_meta (print msg).
Proof. intros w. by exists [EvPrint msg]. Qed.

Lemma no_meta_download_to srv url target :
  Ext.no_meta (download_to srv url target).
Proof.
  assert (Ext.no_meta (session_get srv (Request (Url url) None true))) as Hget.
  { intros w. exists [EvGet (Request (Url url) None true)].
    unfold session_get. by destruct (srv (trace w) _). }
  assert (∀ resp, Ext.no_meta (raise_for_status resp)) as Hraise.
  { intros resp. apply no_meta_silent. intros w. unfold raise_for_status.
    by destruct ((400 <=? status_code resp) && (status_code resp <? 600)). }
  unfold download_to. apply no_meta_bind; [exact Hget|]. intros resp.
  destruct (status_code resp =? 429).
  - apply no_meta_bind; [by apply no_meta_silent|]. intros secs.
    apply no_meta_bind.
    { intros w. unfold sleep.
      destruct ((secs <? - sleep_max) || (sleep_max <? secs));
        [exists []; by rewrite app_nil_r|].
      destruct (secs <? 0).
      - exists []. by rewrite app_nil_r.
      - by exists [EvSleep secs]. }
    intros _. apply no_meta_bind; [exact Hget|]. intros r2.
    apply no_meta_bind; [apply Hraise|]. intros _.
    apply no_meta_silent, silent_stream_to.
  - apply no_meta_bind; [apply Hraise|]. intros _.
    apply no_meta_silent, silent_stream_to.
Qed.

Lemma first_request {A} srv r (k : response -> M A) w :
  (∀ resp, Ext.no_meta (k resp)) ->
  ∃ evs, trace ((resp ← session_get srv r; k resp) w).1
         = trace w ++ EvGet r :: evs
         ∧ Ext.meta_fids evs = [].
Proof.
  intros Hk. munfold. unfold session_get.
  destruct (srv (trace w) r) as [resp|]; [|by exists []].
  destruct (Hk resp (World (trace w ++ [EvGet r]) (fs w))) as (evs & E & Hevs).
  exists evs. split; [|done]. rewrite E. cbn [trace]. by rewrite <- app_assoc.
Qed.

(** One step of the loop asks for the metadata of its file, once and
    first. *)
Lemma download_one_requests srv mod_dir counts fid w :
  ∃ evs, trace (download_one srv mod_dir counts fid w).1
         = trace w ++ EvGet (Spec.meta_request fid) :: evs
         ∧ Ext.meta_fids evs = [].
Proof.
  destruct counts as [d s]. unfold download_one.
  apply first_request. intros fr.
  destruct (status_code fr =? 403); [apply no_meta_ret|].
  apply (no_meta_bind (raise_for_status fr)).
  { apply no_meta_silent. intros w0. unfold raise_for_status.
    by destruct ((400 <=? status_code fr) && (status_code fr <? 600)). }
  intros _. apply (no_meta_bind (resp_json fr)).
  { apply no_meta_silent. intros w0. unfold resp_json.
    by destruct (json_body fr). }
  intros meta.
  assert (∀ k, Ext.no_meta (py_get meta k)) as Hget.
  { intros k. apply no_meta_silent. intros w0. by destruct meta. }
  repeat (cbv zeta; apply no_meta_bind; [by (apply Hget || apply no_meta_silent)|];
          intros ?).
  match goal with |- Ext.no_meta (if ?b then _ else _) => destruct b end;
    [apply no_meta_ret|].
  apply no_meta_bind.
  { apply no_meta_silent. intros w0. unfold expect_str.
    by match goal with |- context [match ?v with _ => _ end] => destruct v end. }
  intros name. apply no_meta_bind; [by apply no_meta_silent|]. intros f.
  match goal with |- Ext.no_meta (if ?b then _ else _) => destruct b end;
    [apply no_meta_ret|].
  apply no_meta_try.
  - apply no_meta_bind; [apply no_meta_download_to|]. intros _.
    apply no_meta_ret.
  - intros e. apply no_meta_bind; [apply no_meta_print|]. intros _.
    apply no_meta_ret.
Qed.

Lemma download_loop_requests srv mod_dir (fids : list Z) :
  ∀ counts w,
    ∃ evs, trace (for_each (download_one srv mod_dir) counts fids w).1
           = trace w ++ evs
           ∧ Ext.meta_fids evs `prefix_of` fids
           ∧ (∀ v, (for_each (download_one srv mod_dir) counts fids w).2 = Val v ->
                   Ext.meta_fids evs = fids).
Proof.
  induction fids as [|fid fids IH]; intros counts w.
  - exists []. cbn. by rewrite app_nil_r.
  - cbn [for_each]. munfold.
    destruct (download_one_requests srv mod_dir counts fid w) as (evs & E & Hevs).
    destruct (download_one srv mod_dir counts fid w) as [w1 [counts1|e|]];
      cbn [fst] in E.
    + destruct (IH counts1 w1) as (evs' & E' & Hpre & Hall).
      exists (EvGet (Spec.meta_request fid) :: evs ++ evs').
      rewrite E', E, <- app_assoc. split; [done|].
      change (EvGet (Spec.meta_request fid) :: evs ++ evs')
        with ([EvGet (Spec.meta_request fid)] ++ evs ++ evs').
      rewrite !meta_fids_app, Hevs. cbn [Ext.meta_fids flat_map app].
      split; [by apply prefix_cons|]. intros v Hv. f_equal. by eapply Hall.
    + exists (EvGet (Spec.meta_request fid) :: evs). split; [done|].
      change (EvGet (Spec.meta_request fid) :: evs)
        with ([EvGet (Spec.meta_request fid)] ++ evs).
      rewrite meta_fids_app, Hevs. cbn. split; [|done].
      apply prefix_cons, prefix_nil.
    + exists (EvGet (Spec.meta_request fid) :: evs). split; [done|].
      change (EvGet (Spec.meta_request fid) :: evs)
        with ([EvGet (Spec.meta_request fid)] ++ evs).
      rewrite meta_fids_app, Hevs. cbn. split; [|done].
      apply prefix_cons, prefix_nil.
Qed.

(** X8.  The files of a module are taken in ascending order of their
    identifiers, each one once: the metadata requests the loop adds to the
    trace are, in order, a prefix of the sorted identifiers, and all of them
    when the loop comes to its end. *)
Theorem X8_files_in_ascending_order (srv : server) (mod_dir : path)
    (ids : gset Z) (w : world) :
  StronglySorted Z.le (sorted ids) ∧ NoDup (sorted ids)
  ∧ (∀ n, n ∈ sorted ids <-> n ∈ ids)
  ∧ ∃ evs, trace (download_files srv mod_dir ids w).1 = trace w ++ evs
           ∧ Ext.meta_fids evs `prefix_of` sorted ids
           ∧ (∀ v, (download_files srv mod_dir ids w).2 = Val v ->
                   Ext.meta_fids evs = sorted ids).
Proof.
  assert (sorted ids ≡ₚ elements ids) as Hperm
    by apply merge_sort_Permutation.
  split; [|split; [|split]].
  - apply StronglySorted_merge_sort; apply _.
  - rewrite Hperm. apply NoDup_elements.
  - intros n. rewrite Hperm. apply elem_of_elements.
  - apply download_loop_requests.
Qed.

(** ** The harvest: locked items, direct File items, the file system *)

Section HarvestExtra.

Variable srv : server.

Lemma harvest_page_403 course_id kv items ids w pr :
  json_is_str "Page" (default JNull (dict_get "type" kv)) = true ->
  truthy (default JNull (dict_get "page_url" kv)) = true ->
  srv (trace w)
    (Request (PageOf course_id (default JNull (dict_get "page_url" kv)))
       None false) = Some pr ->
  status_code pr = 403 ->
  harvest_page_items srv course_id (JObj kv :: items) ids w
  = harvest_page_items srv course_id items ids
      (World (trace w
                ++ [EvGet (Request
                             (PageOf course_id
                                (default JNull (dict_get "page_url" kv)))
                             None false)]) (fs w)).
Proof.
  intros Hty Hslug Hsrv H403. unfold harvest_page_items.
  cbn [for_each py_get]. munfold. rewrite Hty, Hslug. cbn [negb].
  unfold session_get. rewrite Hsrv, H403. reflexivity.
Qed.

Lemma harvest_assignment_403 course_id kv items ids w ar :
  json_is_str "Assignment" (default JNull (dict_get "type" kv)) = true ->
  truthy (default JNull (dict_get "content_id" kv)) = true ->
  srv (trace w)
    (Request (AssignmentOf course_id (default JNull (dict_get "content_id" kv)))
       None false) = Some ar ->
  status_code ar = 403 ->
  harvest_assignment_items srv course_id (JObj kv :: items) ids w
  = harvest_assignment_items srv course_id items ids
      (World (trace w
                ++ [EvGet (Request
                             (AssignmentOf course_id
                                (default JNull (dict_get "content_id" kv)))
                             None false)]) (fs w)).
Proof.
  intros Hty Hcid Hsrv H403. unfold harvest_assignment_items.
  cbn [for_each py_get]. munfold. rewrite Hty, Hcid. cbn [negb].
  unfold session_get. rewrite Hsrv, H403. reflexivity.
Qed.

Lemma harvest_page_no_slug course_id kv items ids w :
  json_is_str "Page" (default JNull (dict_get "type" kv)) = true ->
  truthy (default JNull (dict_get "page_url" kv)) = false ->
  harvest_page_items srv course_id (JObj kv :: items) ids w
  = harvest_page_items srv course_id items ids w.
Proof.
  intros Hty Hslug. unfold harvest_page_items.
  cbn [for_each py_get]. munfold. by rewrite Hty, Hslug.
Qed.

End HarvestExtra.

(** X9.  Locked items.  A page or an assignment that is answered with
    status 403 adds nothing to the set of identifiers, and the loop goes on
    with the items that follow; a page item without slug is passed over
    without any request. *)
Theorem X9_locked_items_passed_over (srv : server) (course_id : Z)
    (kv : list (str * json)) (items : list json) (ids : gset Z) (w : world) :
  (∀ pr,
      json_is_str "Page" (default JNull (dict_get "type" kv)) = true ->
      truthy (default JNull (dict_get "page_url" kv)) = true ->
      srv (trace w)
        (Request (PageOf course_id (default JNull (dict_get "page_url" kv)))
           None false) = Some pr ->
      status_code pr = 403 ->
      harvest_page_items srv course_id (JObj kv :: items) ids w
      = harvest_page_items srv course_id items ids
          (World (trace w
                    ++ [EvGet (Request
                                 (PageOf course_id
                                    (default JNull (dict_get "page_url" kv)))
                                 None false)]) (fs w)))
  ∧ (json_is_str "Page" (default JNull (dict_get "type" kv)) = true ->
     truthy (default JNull (dict_get "page_url" kv)) = false ->
     harvest_page_items srv course_id (JObj kv :: items) ids w
     = harvest_page_items srv course_id items ids w)
  ∧ (∀ ar,
        json_is_str "Assignment" (default JNull (dict_get "type" kv)) = true ->
        truthy (default JNull (dict_get "content_id" kv)) = true ->
        srv (trace w)
          (Request (AssignmentOf course_id
                      (default JNull (dict_get "content_id" kv)))
             None false) = Some ar ->
        status_code ar = 403 ->
        harvest_assignment_items srv course_id (JObj kv :: items) ids w
        = harvest_assignment_items srv course_id items ids
            (World (trace w
                      ++ [EvGet (Request
                                   (AssignmentOf course_id
                                      (default JNull (dict_get "content_id" kv)))
                                   None false)]) (fs w))).
Proof.
  split; [|split].
  - intros pr ????. by apply (harvest_page_403 _ _ _ _ _ _ pr).
  - intros. by apply harvest_page_no_slug.
  - intros ar ????. by apply (harvest_assignment_403 _ _ _ _ _ _ ar).
Qed.

Lemma X9_locked_items_passed_over_witness :
  harvest_page_items Ext.locked_module_server 42 Ext.locked_items ∅ (World [] ∅)
  = harvest_page_items Ext.locked_module_server 42 (tl Ext.locked_items) ∅
      (World [EvGet (Request (PageOf 42 (JStr "locked")) None false)] ∅).
Proof.
  apply (proj1 (X9_locked_items_passed_over Ext.locked_module_server 42
                  [("type" : str, JStr "Page"); ("page_url" : str, JStr "locked")]
                  (tl Ext.locked_items) ∅ (World [] ∅))
           (Response 403 [] None [] true));
    reflexivity.
Defined.

(** *** Direct File items *)





Section Grows.

Variable srv : server.



End Grows.



(** ** Listing and harvesting leave the file system alone *)

Lemma keeps_fs_ret {A} (a : A) : Ext.keeps_fs (mret a).
Proof. done. Qed.

Lemma keeps_fs_raise {A} e : Ext.keeps_fs (@raise A e).
Proof. done. Qed.

Lemma keeps_fs_bind {A B} (m : M A) (k : A -> M B) :
  Ext.keeps_fs m -> (∀ a, Ext.keeps_fs (k a)) -> Ext.keeps_fs (x ← m; k x).
Proof.
  intros Hm Hk w. munfold. specialize (Hm w).
  destruct (m w) as [w' [a| |]]; cbn in *; try done.
  by rewrite Hk.
Qed.

Lemma keeps_fs_for_each {A B} (body : B -> A -> M B) (l : list A) :
  (∀ b a, Ext.keeps_fs (body b a)) -> ∀ b, Ext.keeps_fs (for_each body b l).
Proof.
  intros Hbody. induction l as [|a l IH]; intros b; cbn [for_each].
  - apply keeps_fs_ret.
  - by apply keeps_fs_bind.
Qed.

Lemma keeps_fs_py_get d k : Ext.keeps_fs (py_get d k).
Proof. by destruct d. Qed.

Lemma keeps_fs_raise_for_status resp : Ext.keeps_fs (raise_for_status resp).
Proof. unfold raise_for_status. by destruct (_ && _). Qed.

Lemma keeps_fs_resp_json resp : Ext.keeps_fs (resp_json resp).
Proof. unfold resp_json. by destruct (json_body resp). Qed.

Lemma keeps_fs_expect_str v : Ext.keeps_fs (expect_str v).
Proof. by destruct v. Qed.

Lemma keeps_fs_iterate v : Ext.keeps_fs (iterate v).
Proof. by destruct v. Qed.

Lemma keeps_fs_int_of_json v : Ext.keeps_fs (int_of_json v).
Proof. done. Qed.

Lemma keeps_fs_extend_results results data :
  Ext.keeps_fs (extend_results results data).
Proof.
  destruct data as [| | | | |kv]; try done.
  cbn [extend_results]. by destruct (dict_get "items" kv) as [[]|].
Qed.

Lemma keeps_fs_try {A} (body : M A) handles handler :
  Ext.keeps_fs body -> (∀ e, Ext.keeps_fs (handler e)) ->
  Ext.keeps_fs (try_except body handles handler).
Proof.
  intros Hb Hh w. unfold try_except. specialize (Hb w).
  destruct (body w) as [w1 [b|e|]]; [done|destruct (handles e)|done]; [|done].
  cbn in Hb. by rewrite Hh.
Qed.

Create HintDb keeps_fs.

#[local] Hint Resolve keeps_fs_ret keeps_fs_raise keeps_fs_py_get
  keeps_fs_raise_for_status keeps_fs_resp_json keeps_fs_expect_str
  keeps_fs_iterate keeps_fs_int_of_json keeps_fs_extend_results : keeps_fs.

Section KeepsFs.

Variable srv : server.

Lemma keeps_fs_session_get r : Ext.keeps_fs (session_get srv r).
Proof. intros w. unfold session_get. by destruct (srv (trace w) r). Qed.

Lemma keeps_fs_get_page url params results :
  Ext.keeps_fs (get_page srv url params results).
Proof.
  unfold get_page.
  apply keeps_fs_bind; [apply keeps_fs_session_get|]. intros resp.
  repeat (apply keeps_fs_bind; [auto with keeps_fs|]; intros ?).
  apply keeps_fs_ret.
Qed.

Lemma keeps_fs_get_all_loop fuel :
  ∀ url params results,
    Ext.keeps_fs (get_all_loop srv fuel url params results).
Proof.
  induction fuel as [|fuel IH]; intros url params results; cbn [get_all_loop].
  - done.
  - destruct url as [u|]; [|apply keeps_fs_ret].
    destruct (url_truthy (Some u)); [|apply keeps_fs_ret].
    apply keeps_fs_bind; [apply keeps_fs_get_page|].
    intros [results' next_url]. apply IH.
Qed.

Lemma keeps_fs_harvest_file_items items ids :
  Ext.keeps_fs (harvest_file_items items ids).
Proof.
  unfold harvest_file_items. apply keeps_fs_for_each. clear. intros ids it.
  apply keeps_fs_bind; [auto with keeps_fs|]. intros ty.
  destruct (json_is_str _ _); [|apply keeps_fs_ret].
  apply keeps_fs_bind; [auto with keeps_fs|]. intros cid.
  destruct (truthy cid); [|apply keeps_fs_ret].
  apply keeps_fs_try; [|intros; apply keeps_fs_ret].
  apply keeps_fs_bind; auto with keeps_fs.
Qed.

Lemma keeps_fs_harvest_page_items course_id items ids :
  Ext.keeps_fs (harvest_page_items srv course_id items ids).
Proof.
  unfold harvest_page_items. apply keeps_fs_for_each. clear ids items.
  intros ids it.
  apply keeps_fs_bind; [auto with keeps_fs|]. intros ty.
  destruct (json_is_str _ _); [|apply keeps_fs_ret].
  apply keeps_fs_bind; [auto with keeps_fs|]. intros slug.
  destruct (negb _); [apply keeps_fs_ret|].
  apply keeps_fs_bind; [apply keeps_fs_session_get|]. intros pr.
  destruct (_ =? _); [apply keeps_fs_ret|].
  repeat (apply keeps_fs_bind; [auto with keeps_fs|]; intros ?).
  apply keeps_fs_ret.
Qed.

Lemma keeps_fs_harvest_assignment_items course_id items ids :
  Ext.keeps_fs (harvest_assignment_items srv course_id items ids).
Proof.
  unfold harvest_assignment_items. apply keeps_fs_for_each. clear ids items.
  intros ids it.
  apply keeps_fs_bind; [auto with keeps_fs|]. intros ty.
  destruct (json_is_str _ _); [|apply keeps_fs_ret].
  apply keeps_fs_bind; [auto with keeps_fs|]. intros aid.
  destruct (negb _); [apply keeps_fs_ret|].
  apply keeps_fs_bind; [apply keeps_fs_session_get|]. intros ar.
  destruct (_ =? _); [apply keeps_fs_ret|].
  repeat (apply keeps_fs_bind; [auto with keeps_fs|]; intros ?).
  apply keeps_fs_for_each. clear. intros ids att.
  apply keeps_fs_bind; [auto with keeps_fs|]. intros fid.
  destruct fid; apply keeps_fs_ret.
Qed.

End KeepsFs.

Lemma harvest_keeps_fs (srv : server) :
  (∀ fuel url params, Ext.keeps_fs (get_all srv fuel url params))
  ∧ (∀ order course_id items,
        Ext.keeps_fs (harvest_in_order srv order course_id items))
  ∧ (∀ course_id items, Ext.keeps_fs (harvest srv course_id items)).
Proof.
  assert (∀ order course_id items,
             Ext.keeps_fs (harvest_in_order srv order course_id items)) as H.
  { intros order course_id items. unfold harvest_in_order.
    apply keeps_fs_for_each. intros ids [].
    - apply keeps_fs_harvest_file_items.
    - apply keeps_fs_harvest_page_items.
    - apply keeps_fs_harvest_assignment_items. }
  split; [|split].
  - intros fuel url params. apply keeps_fs_get_all_loop.
  - exact H.
  - intros course_id items. apply H.
Qed.

(** X11.  Listing and harvesting never write.  Whatever the server
    answers, and whether they return or raise, [get_all] and the harvest of
    a module (in any order of its three loops) leave the file system as
    they found it. *)
Theorem X11_listing_never_writes (srv : server) :
  (∀ fuel url params w, fs (get_all srv fuel url params w).1 = fs w)
  ∧ (∀ order course_id items w,
        fs (harvest_in_order srv order course_id items w).1 = fs w)
  ∧ (∀ course_id items w, fs (harvest srv course_id items w).1 = fs w).
Proof.
  destruct (harvest_keeps_fs srv) as (H1 & H2 & H3).
  split; [|split]; intros.
  - apply H1.
  - apply H2.
  - apply H3.
Qed.

(** ** The selection indexes the list of modules *)

Lemma parse_choices_range (raw : ustr) (maxnum n : Z) :
  n ∈ parse_choices raw maxnum -> 1 <= n <= maxnum.
Proof.
  rewrite parse_choices_selection. unfold Spec.selection.
  rewrite first_occurrences_elem, list_elem_of_In, filter_In.
  unfold Spec.in_range. rewrite andb_true_iff, !Z.leb_le. tauto.
Qed.

Lemma parse_choices_NoDup (raw : ustr) (maxnum : Z) :
  NoDup (parse_choices raw maxnum).
Proof.
  rewrite parse_choices_selection. apply first_occurrences_NoDup.
Qed.

Lemma parse_choices_length (raw : ustr) (n : nat) :
  (length (parse_choices raw (Z.of_nat n)) <= n)%nat.
Proof.
  assert (parse_choices raw (Z.of_nat n) ⊆+ Z.of_nat <$> seq 1 n) as H.
  { apply NoDup_submseteq; [apply parse_choices_NoDup|].
    intros x Hx%parse_choices_range. apply list_elem_of_fmap.
    exists (Z.to_nat x). split; [lia|]. apply elem_of_seq. lia. }
  apply submseteq_length in H. by rewrite length_fmap, length_seq in H.
Qed.

Lemma py_index_in_range {A} (l : list A) (i : Z) (w : world) :
  0 <= i < Z.of_nat (length l) ->
  ∃ x, l !! Z.to_nat i = Some x ∧ py_index l i w = (w, Val x).
Proof.
  intros Hi. unfold py_index.
  destruct (l !! Z.to_nat i) as [x|] eqn:E.
  - exists x. split; [done|].
    replace (i <? 0) with false by lia. rewrite E.
    by replace ((0 <=? i) && (i <? Z.of_nat (length l))) with true by lia.
  - apply lookup_ge_None in E. lia.
Qed.

(** X12.  The selection and the list of modules.  With [maxnum] the length
    of the list of modules, as [main] calls it, every number that
    [parse_choices] returns lies between 1 and that length and picks a
    module of the list: [modules[choice - 1]] raises no [IndexError] and
    never counts from the end of the list.  No
    more modules are selected than there are, and none for an empty list. *)
Theorem X12_choices_index_modules (raw : ustr) (modules : list json) :
  (∀ choice w,
      choice ∈ parse_choices raw (Z.of_nat (length modules)) ->
      1 <= choice <= Z.of_nat (length modules)
      ∧ ∃ m, modules !! Z.to_nat (choice - 1) = Some m
             ∧ py_index modules (choice - 1) w = (w, Val m))
  ∧ (length (parse_choices raw (Z.of_nat (length modules))) <= length modules)%nat
  ∧ (modules = [] -> parse_choices raw (Z.of_nat (length modules)) = []).
Proof.
  split; [|split].
  - intros choice w Hc%parse_choices_range. split; [done|].
    apply py_index_in_range. lia.
  - apply parse_choices_length.
  - intros ->. pose proof (parse_choices_length raw 0) as H.
    cbn [length] in *. by destruct (parse_choices raw _); [|cbn in H; lia].
Qed.

Lemma X12_choices_index_modules_witness :
  ∃ m, [JInt 10; JInt 20; JInt 30] !! Z.to_nat (3 - 1) = Some m
       ∧ py_index [JInt 10; JInt 20; JInt 30] (3 - 1) (World [] ∅)
         = (World [] ∅, Val m).
Proof.
  apply (proj1 (X12_choices_index_modules "3,1-2,9" [JInt 10; JInt 20; JInt 30])
           3 (World [] ∅)).
  vm_compute. apply list_elem_of_here.
Defined.

(** ** Nothing is ever deleted *)

Lemma same_kind_refl n : Ext.same_kind n n.
Proof. by destruct n. Qed.

Lemma same_kind_trans a b c :
  Ext.same_kind a b -> Ext.same_kind b c -> Ext.same_kind a c.
Proof. destruct a, b, c; cbn; intros; try done; congruence. Qed.

Lemma fs_le_refl f : Ext.fs_le f f.
Proof. intros p n H. exists n. split; [done|apply same_kind_refl]. Qed.

Lemma fs_le_trans f g h : Ext.fs_le f g -> Ext.fs_le g h -> Ext.fs_le f h.
Proof.
  intros Hfg Hgh p n H. apply Hfg in H as (n1 & H1 & K1).
  apply Hgh in H1 as (n2 & H2 & K2). exists n2. split; [done|].
  by eapply same_kind_trans.
Qed.

Lemma fs_le_insert f k n :
  (∀ old, f !! k = Some old -> Ext.same_kind old n) ->
  Ext.fs_le f (<[k := n]> f).
Proof.
  intros Hk p m Hp. destruct (decide (p = k)) as [->|Hne].
  - exists n. rewrite lookup_insert_eq. split; [done|by apply Hk].
  - exists m. rewrite lookup_insert_ne by done. split; [done|apply same_kind_refl].
Qed.

Lemma never_deletes_keeps {A} (m : M A) : Ext.keeps_fs m -> Ext.never_deletes m.
Proof. intros H w. rewrite H. apply fs_le_refl. Qed.

Lemma never_deletes_bind {A B} (m : M A) (k : A -> M B) :
  Ext.never_deletes m -> (∀ a, Ext.never_deletes (k a)) ->
  Ext.never_deletes (x ← m; k x).
Proof.
  intros Hm Hk w. munfold. specialize (Hm w).
  destruct (m w) as [w' [a| |]]; cbn in *; try done.
  eapply fs_le_trans; [exact Hm|apply Hk].
Qed.

Lemma never_deletes_for_each {A B} (body : B -> A -> M B) (l : list A) :
  (∀ b a, Ext.never_deletes (body b a)) ->
  ∀ b, Ext.never_deletes (for_each body b l).
Proof.
  intros Hbody. induction l as [|a l IH]; intros b; cbn [for_each].
  - apply never_deletes_keeps, keeps_fs_ret.
  - by apply never_deletes_bind.
Qed.

Lemma never_deletes_try {A} (body : M A) handles handler :
  Ext.never_deletes body -> (∀ e, Ext.never_deletes (handler e)) ->
  Ext.never_deletes (try_except body handles handler).
Proof.
  intros Hb Hh w. unfold try_except. specialize (Hb w).
  destruct (body w) as [w1 [b|e|]]; [done|destruct (handles e)|done]; [|done].
  cbn in Hb. eapply fs_le_trans; [exact Hb|apply Hh].
Qed.

Lemma never_deletes_open_wb target : Ext.never_deletes (open_wb target).
Proof.
  intros w. unfold open_wb. munfold.
  destruct (fs w !! target) as [[b|sz]|] eqn:E;
    [| apply fs_le_refl |];
    (destruct (fs w !! parent target) as [[b'|sz']|]; cbn [fst fs];
     [apply fs_le_refl| |apply fs_le_refl]);
    apply fs_le_insert; intros old Hold; by simplify_eq.
Qed.

Lemma never_deletes_write_chunk target u chunk :
  Ext.never_deletes (write_chunk target u chunk).
Proof.
  intros w. unfold write_chunk. destruct chunk as [|c chunk]; [apply fs_le_refl|].
  munfold. destruct (fs w !! target) as [[b|sz]|] eqn:E; cbn [fst fs];
    [|apply fs_le_refl..].
  apply fs_le_insert. intros old Hold. by simplify_eq.
Qed.

Lemma keeps_fs_int_header_or_0 v : Ext.keeps_fs (int_header_or_0 v).
Proof.
  unfold int_header_or_0. destruct v as [[|c s]|]; try done.
  by destruct (Py.int (c :: s)).
Qed.

Lemma keeps_fs_sleep secs : Ext.keeps_fs (sleep secs).
Proof. unfold sleep. by destruct (_ || _), (secs <? 0). Qed.

Lemma keeps_fs_print msg : Ext.keeps_fs (print msg).
Proof. done. Qed.

Lemma never_deletes_stream_to target resp :
  Ext.never_deletes (stream_to target resp).
Proof.
  unfold stream_to.
  apply never_deletes_bind;
    [apply never_deletes_keeps, keeps_fs_int_header_or_0|]. intros _.
  apply never_deletes_bind; [apply never_deletes_open_wb|]. intros _.
  apply never_deletes_bind.
  { apply never_deletes_for_each. intros. apply never_deletes_write_chunk. }
  intros _. apply never_deletes_keeps. by destruct (stream_ok resp).
Qed.

Section NeverDeletes.

Variable srv : server.
Variable new_dir_size : Z.

Lemma never_deletes_download_to url target :
  Ext.never_deletes (download_to srv url target).
Proof.
  unfold download_to.
  apply never_deletes_bind;
    [apply never_deletes_keeps, keeps_fs_session_get|]. intros resp.
  destruct (_ =? _).
  - apply never_deletes_bind;
      [apply never_deletes_keeps, keeps_fs_int_of_json|]. intros secs.
    apply never_deletes_bind; [apply never_deletes_keeps, keeps_fs_sleep|].
    intros _.
    apply never_deletes_bind;
      [apply never_deletes_keeps, keeps_fs_session_get|]. intros r2.
    apply never_deletes_bind;
      [apply never_deletes_keeps, keeps_fs_raise_for_status|]. intros _.
    apply never_deletes_stream_to.
  - apply never_deletes_bind;
      [apply never_deletes_keeps, keeps_fs_raise_for_status|]. intros _.
    apply never_deletes_stream_to.
Qed.

Lemma never_deletes_download_one mod_dir counts fid :
  Ext.never_deletes (download_one srv mod_dir counts fid).
Proof.
  destruct counts as [d s]. unfold download_one.
  apply never_deletes_bind;
    [apply never_deletes_keeps, keeps_fs_session_get|]. intros fr.
  destruct (_ =? _); [apply never_deletes_keeps, keeps_fs_ret|].
  repeat (cbv zeta; apply never_deletes_bind;
          [apply never_deletes_keeps; solve [auto with keeps_fs]|]; intros ?).
  cbv zeta. destruct (negb _); [apply never_deletes_keeps, keeps_fs_ret|].
  apply never_deletes_bind;
    [apply never_deletes_keeps; auto with keeps_fs|]. intros name.
  apply never_deletes_bind; [by apply never_deletes_keeps|]. intros f.
  destruct (_ && _); [apply never_deletes_keeps, keeps_fs_ret|].
  apply never_deletes_try.
  - apply never_deletes_bind; [apply never_deletes_download_to|].
    intros _. apply never_deletes_keeps, keeps_fs_ret.
  - intros e. apply never_deletes_keeps. by apply keeps_fs_bind.
Qed.

Lemma never_deletes_download_files mod_dir ids :
  Ext.never_deletes (download_files srv mod_dir ids).
Proof.
  unfold download_files. apply never_deletes_for_each.
  intros. apply never_deletes_download_one.
Qed.

Lemma never_deletes_mkdir_step (p : path) (n : nat) :
  Ext.never_deletes
    (f ← get_fs;
     match f !! take n p with
     | Some (File _) => raise OSError
     | Some (Dir _) => mret tt
     | None => set_fs (<[take n p := Dir new_dir_size]> f)
     end).
Proof.
  intros w. munfold.
  destruct (fs w !! take n p) as [[b|sz]|] eqn:E; cbn [fst fs];
    [apply fs_le_refl..|].
  apply fs_le_insert. intros old Hold.
  by pose proof (eq_trans (eq_sym E) Hold).
Qed.

Lemma never_deletes_mkdir_p p : Ext.never_deletes (mkdir_p new_dir_size p).
Proof.
  unfold mkdir_p. apply never_deletes_for_each. intros u n.
  apply never_deletes_mkdir_step.
Qed.

Lemma never_deletes_open_module fuel course_id modules base_out_dir choice :
  Ext.never_deletes
    (open_module srv new_dir_size fuel course_id modules base_out_dir choice).
Proof.
  unfold open_module.
  apply never_deletes_bind.
  { apply never_deletes_keeps. intros w. unfold py_index.
    destruct (_ && _); [|done]. by destruct (modules !! _). }
  intros mod_.
  repeat (cbv zeta; apply never_deletes_bind;
          [apply never_deletes_keeps; solve [auto with keeps_fs]|]; intros ?).
  cbv zeta. apply never_deletes_bind; [apply never_deletes_mkdir_p|]. intros _.
  do 2 (apply never_deletes_bind;
        [apply never_deletes_keeps, keeps_fs_print|]; intros _).
  apply never_deletes_bind;
    [apply never_deletes_keeps, keeps_fs_get_all_loop|]. intros items.
  apply never_deletes_keeps, keeps_fs_ret.
Qed.

Lemma never_deletes_process_module fuel course_id modules base_out_dir grand
    choice :
  Ext.never_deletes
    (process_module srv new_dir_size fuel course_id modules base_out_dir grand
       choice).
Proof.
  unfold process_module.
  apply never_deletes_bind; [apply never_deletes_open_module|].
  intros [mod_dir items]. destruct items as [|it items].
  { apply never_deletes_keeps. by apply keeps_fs_bind. }
  apply never_deletes_bind.
  { apply never_deletes_keeps.
    apply (proj2 (proj2 (harvest_keeps_fs srv))). }
  intros file_ids. destruct (bool_decide _).
  { apply never_deletes_keeps. by apply keeps_fs_bind. }
  apply never_deletes_bind; [apply never_deletes_download_files|].
  intros [downloaded skipped]. apply never_deletes_keeps. by apply keeps_fs_bind.
Qed.

End NeverDeletes.

(** X13.  Nothing is ever deleted.  Whatever the server answers and
    whether the run comes to its end or is ended by an exception, every
    entry of the file system before a download, before the creation of a
    directory and before the loop over the selected modules is still there
    afterwards: a directory as it was, a file as a file, its contents
    possibly replaced. *)
Theorem X13_nothing_deleted (srv : server) (new_dir_size : Z) :
  (∀ url target, Ext.never_deletes (download_to srv url target))
  ∧ (∀ p, Ext.never_deletes (mkdir_p new_dir_size p))
  ∧ (∀ mod_dir ids, Ext.never_deletes (download_files srv mod_dir ids))
  ∧ (∀ fuel course_id modules base_out_dir choices,
        Ext.never_deletes
          (run_modules srv new_dir_size fuel course_id modules base_out_dir
             choices)).
Proof.
  split; [|split; [|split]].
  - apply never_deletes_download_to.
  - apply never_deletes_mkdir_p.
  - apply never_deletes_download_files.
  - intros. unfold run_modules. apply never_deletes_bind.
    + apply never_deletes_for_each. intros. apply never_deletes_process_module.
    + intros totals. apply never_deletes_keeps.
      do 2 (apply keeps_fs_bind; [done|]; intros _). done.
Qed.

(** ** The directory of a selected module *)

Lemma fs_le_dir f f' p sz :
  Ext.fs_le f f' -> f !! p = Some (Dir sz) -> f' !! p = Some (Dir sz).
Proof.
  intros Hle Hp. apply Hle in Hp as (n' & -> & K).
  destruct n'; cbn in K; [done|by subst].
Qed.

Lemma fs_le_dirs_to f f' p :
  Ext.fs_le f f' -> Ext.dirs_to f p -> Ext.dirs_to f' p.
Proof.
  intros Hle Hd n. destruct (Hd n) as [sz Hsz]. exists sz.
  by eapply fs_le_dir.
Qed.

Section ModuleDir.

Variable srv : server.
Variable new_dir_size : Z.

Lemma mkdir_p_steps (p : path) (l : list nat) :
  ∀ w w',
    for_each (fun (_ : unit) n =>
                f ← get_fs;
                match f !! take n p with
                | Some (File _) => raise OSError
                | Some (Dir _) => mret tt
                | None => set_fs (<[take n p := Dir new_dir_size]> f)
                end) tt l w = (w', Val tt) ->
    ∀ n, n ∈ l -> ∃ sz, fs w' !! take n p = Some (Dir sz).
Proof.
  induction l as [|n0 l IH]; intros w w' H n Hn.
  - by apply elem_of_nil in Hn.
  - cbn [for_each] in H.
    set (body := fun (_ : unit) n => _) in *.
    destruct (body tt n0 w) as [w1 o] eqn:E1.
    assert (∃ sz, fs w1 !! take n0 p = Some (Dir sz) ∧ o = Val tt) as (sz0 & H0 & ->).
    { unfold body in E1. munfold_in E1.
      destruct (fs w !! take n0 p) as [[b|sz]|] eqn:E0.
      - injection E1 as <- <-. rewrite (bind_exc _ _ _ w OSError) in H; [done|].
        unfold body. munfold. by rewrite E0.
      - injection E1 as <- <-. by exists sz.
      - injection E1 as <- <-. exists new_dir_size. cbn [fs].
        by rewrite lookup_insert_eq. }
    rewrite (bind_val _ _ _ _ _ E1) in H.
    apply elem_of_cons in Hn as [->|Hn].
    + exists sz0. eapply fs_le_dir; [|exact H0].
      pose proof (never_deletes_for_each body l) as Hl.
      specialize (Hl (fun _ a => never_deletes_mkdir_step new_dir_size p a) tt w1).
      by rewrite H in Hl.
    + by eapply IH.
Qed.

Lemma mkdir_p_val (p : path) (w w' : world) (u : unit) :
  mkdir_p new_dir_size p w = (w', Val u) -> Ext.dirs_to (fs w') p.
Proof.
  destruct u. intros H n. unfold mkdir_p in H.
  destruct (decide (n <= length p)%nat) as [Hn|Hn].
  - eapply mkdir_p_steps; [exact H|]. apply elem_of_seq. lia.
  - rewrite take_ge by lia. rewrite <- (take_ge p (length p)) by lia.
    eapply mkdir_p_steps; [exact H|]. apply elem_of_seq. lia.
Qed.

Lemma open_module_val fuel course_id modules base_out_dir choice w w1 mod_dir
    items :
  open_module srv new_dir_size fuel course_id modules base_out_dir choice w
  = (w1, Val (mod_dir, items)) ->
  ∃ mod_ title,
    py_index modules (choice - 1) w = (w, Val mod_)
    ∧ Ext.module_title mod_ choice = Some title
    ∧ mod_dir = path_div base_out_dir (sanitize title)
    ∧ Ext.dirs_to (fs w1) mod_dir.
Proof.
  unfold open_module. intros H.
  destruct (py_index modules (choice - 1) w) as [w0 [mod_| |]] eqn:Ei;
    [|by rewrite (bind_exc _ _ _ _ _ Ei) in H
     |by rewrite (bind_out_of_fuel _ _ _ _ Ei) in H].
  assert (w0 = w) as ->.
  { unfold py_index in Ei. destruct (_ && _); [|by injection Ei].
    destruct (modules !! _); by injection Ei. }
  rewrite (bind_val _ _ _ _ _ Ei) in H.
  destruct mod_ as [| | | | |kv]; try done.
  cbn [py_get] in H. munfold_in H. cbv zeta in H.
  exists (JObj kv). cbn [Ext.module_title].
  destruct (if truthy (default JNull (dict_get "name" kv))
            then default JNull (dict_get "name" kv)
            else JStr (("Module " : str) ++ Py.str_of_Z choice))
    as [| | |title| |]; try done.
  cbn [expect_str] in H. munfold_in H.
  destruct (mkdir_p new_dir_size (path_div base_out_dir (sanitize title)) w)
    as [w2 [[]| |]] eqn:Em; [|done..].
  apply mkdir_p_val in Em. cbn [fs trace] in H.
  destruct (get_all srv fuel _ _ _) as [w3 [its| |]] eqn:Eg; [|done..].
  injection H as <- <- <-.
  exists title. repeat split; try done.
  pose proof (proj1 (harvest_keeps_fs srv) fuel
                (ModuleItems course_id (default JNull (dict_get "id" kv)))
                (Some [("per_page" : str, JInt 100)])) as Hk.
  match type of Eg with get_all _ _ _ _ ?w' = _ => specialize (Hk w') end.
  rewrite Eg in Hk. cbn [fst fs] in Hk. by rewrite Hk.
Qed.

Lemma never_deletes_module_rest course_id grand mod_dir (items : list json) :
  Ext.never_deletes
    (match items with
     | [] => _ ← print MsgNoItems; mret grand
     | _ :: _ =>
         file_ids ← harvest srv course_id items;
         if bool_decide (file_ids = ∅) then _ ← print MsgNoFiles; mret grand
         else
           '(downloaded, skipped) ← download_files srv mod_dir file_ids;
           _ ← print (MsgModuleDone downloaded skipped);
           mret (grand.1 + downloaded, grand.2 + skipped)
     end).
Proof.
  destruct items as [|it items].
  { apply never_deletes_keeps. by apply keeps_fs_bind. }
  apply never_deletes_bind.
  { apply never_deletes_keeps.
    apply (proj2 (proj2 (harvest_keeps_fs srv))). }
  intros file_ids. destruct (bool_decide _).
  { apply never_deletes_keeps. by apply keeps_fs_bind. }
  apply never_deletes_bind; [apply never_deletes_download_files|].
  intros [downloaded skipped]. apply never_deletes_keeps. by apply keeps_fs_bind.
Qed.

End ModuleDir.

(** X14.  The directory of a selected module.  Whenever the body of the
    loop over the selected modules returns, the module was found in the
    list, it has a title (its name, or [Module <choice>]), and its
    directory and every directory above it exist afterwards: also when the
    module has no items, or no files, or none of its files could be
    saved. *)
Theorem X14_module_directory_created (srv : server) (new_dir_size : Z)
    (fuel : nat) (course_id : Z) (modules : list json) (base_out_dir : path)
    (grand grand' : Z * Z) (choice : Z) (w w' : world) :
  process_module srv new_dir_size fuel course_id modules base_out_dir grand
    choice w = (w', Val grand') ->
  ∃ mod_ title,
    py_index modules (choice - 1) w = (w, Val mod_)
    ∧ Ext.module_title mod_ choice = Some title
    ∧ Ext.dirs_to (fs w') (path_div base_out_dir (sanitize title)).
Proof.
  unfold process_module. intros H.
  destruct (open_module srv new_dir_size fuel course_id modules base_out_dir
              choice w) as [w1 [[mod_dir items]| |]] eqn:Eo;
    [|by rewrite (bind_exc _ _ _ _ _ Eo) in H
     |by rewrite (bind_out_of_fuel _ _ _ _ Eo) in H].
  rewrite (bind_val _ _ _ _ _ Eo) in H.
  apply open_module_val in Eo as (mod_ & title & Hi & Ht & -> & Hd).
  exists mod_, title. repeat split; try done.
  pose proof (never_deletes_module_rest srv course_id grand
                (path_div base_out_dir (sanitize title)) items w1) as Hle.
  rewrite H in Hle. by eapply fs_le_dirs_to.
Qed.

Lemma second_module_run :
  (process_module Spec.broken_page_server 4096 5 42 Spec.run_modules_list
     Spec.course_dir (0, 0) 2 (World [] ∅)).2 = Val (1, 0).
Proof. vm_compute. reflexivity. Qed.

Lemma X14_module_directory_created_witness :
  ∃ w' mod_ title,
    py_index Spec.run_modules_list (2 - 1) (World [] ∅) = (World [] ∅, Val mod_)
    ∧ Ext.module_title mod_ 2 = Some title
    ∧ Ext.dirs_to (fs w') (path_div Spec.course_dir (sanitize title)).
Proof.
  pose proof second_module_run as E.
  destruct (process_module Spec.broken_page_server 4096 5 42
              Spec.run_modules_list Spec.course_dir (0, 0) 2 (World [] ∅))
    as [w' o] eqn:H.
  cbn [snd] in E. subst o. exists w'.
  exact (X14_module_directory_created _ _ _ _ _ _ _ _ _ _ _ H).
Defined.

(** ** A second pass over a downloaded file *)

(** X15.  Resuming by skipping.  A file is downloaded in a first pass; the
    remote side gives the same metadata in a second pass.  Then the second
    pass counts the file as skipped, with the metadata request only, when
    the number of bytes received equals the reported size and that size is
    not zero; in every other case the second pass requests the contents
    again: a file whose reported size is zero, missing, or differs from
    what is delivered is transferred on every run. *)
Theorem X15_second_pass (srv : server) (w : world) (mod_dir : path) (fid : Z)
    (downloaded skipped downloaded' skipped' : Z) (fr resp : response)
    (meta : list (str * json)) (name : str) (size : Z) :
  let url := Spec.meta_url meta in
  let target := path_div mod_dir (sanitize name) in
  let w1 := World (trace w ++ [EvGet (Spec.meta_request fid)]) (fs w) in
  let w2 := World (trace w1 ++ [EvGet (Spec.download_request url)])
              (<[target := File (concat (content resp))]> (fs w)) in
  let w3 := World (trace w2 ++ [EvGet (Spec.meta_request fid)]) (fs w2) in
  srv (trace w) (Spec.meta_request fid) = Some fr ->
  srv (trace w2) (Spec.meta_request fid) = Some fr ->
  status_code fr ≠ 403 -> Spec.error_status fr = false ->
  json_body fr = Some (JObj meta) ->
  Spec.meta_name fid meta = JStr name ->
  truthy (Spec.meta_url meta) = true ->
  Spec.meta_size meta = Val size ->
  ¬ Spec.already_synced (fs w) target size ->
  srv (trace w1) (Spec.download_request url) = Some resp ->
  status_code resp ≠ 429 -> Spec.error_status resp = false ->
  Spec.length_ok resp = true -> Spec.writable (fs w) target = true ->
  stream_ok resp = true ->
  download_one srv mod_dir (downloaded, skipped) fid w
  = (w2, Val (downloaded + 1, skipped))
  ∧ (size ≠ 0 ∧ Z.of_nat (length (concat (content resp))) = size ->
     download_one srv mod_dir (downloaded', skipped') fid w2
     = (w3, Val (downloaded', skipped' + 1)))
  ∧ (¬ (size ≠ 0 ∧ Z.of_nat (length (concat (content resp))) = size) ->
     ∃ evs,
       trace (download_one srv mod_dir (downloaded', skipped') fid w2).1
       = trace w3 ++ EvGet (Spec.download_request url) :: evs).
Proof.
  intros url target w1 w2 w3 Hsrv Hsrv2 H403 Herr Hbody Hname Hurl Hsize Hns
    Hdl H429 Herr' Hlen Hw Hok.
  assert (Spec.already_synced (fs w2) target size
          <-> size ≠ 0 ∧ Z.of_nat (length (concat (content resp))) = size) as Hs.
  { unfold Spec.already_synced, w2. cbn [fs]. rewrite lookup_insert_eq. split.
    - intros (n & [= <-] & H0 & Hsz). done.
    - intros [H0 Hsz]. by exists (File (concat (content resp))). }
  split; [|split].
  - rewrite (download_one_resolved srv mod_dir fid downloaded skipped w fr meta
               name size) by done. cbn zeta. fold target w1 url.
    rewrite <- synced_test in Hns. apply not_true_is_false in Hns.
    rewrite Hns. by rewrite (download_to_ok srv url target w1 resp).
  - intros H. apply Hs, synced_test in H.
    rewrite (download_one_resolved srv mod_dir fid downloaded' skipped' w2 fr
               meta name size) by done. cbn zeta. fold target.
    by rewrite H.
  - intros H. rewrite <- Hs, <- synced_test in H. apply not_true_is_false in H.
    rewrite (download_one_resolved srv mod_dir fid downloaded' skipped' w2 fr
               meta name size) by done. cbn zeta. fold target w3 url.
    rewrite H.
    destruct (download_to_requests srv url target w3) as [evs E].
    destruct (download_to srv url target w3) as [w4 [[]|e|]]; cbn [fst] in *;
      [by exists evs| |by exists evs].
    destruct (is_RequestException e); [|by exists evs].
    exists (evs ++ [EvPrint (MsgFailed name e)]). cbn [fst trace].
    by rewrite E, <- app_assoc.
Qed.

Lemma X15_second_pass_witness :
  let target := Spec.retry_dir ++ ["Week 1_ Intro_Notes" : str] in
  let w2 := World [EvGet (Spec.meta_request 501);
                   EvGet (Spec.download_request Spec.file_url)]
              (<[target := File (concat Spec.retry_body)]> (fs Spec.retry_world)) in
  download_one (Spec.file_server (JInt 6)) Spec.retry_dir (0, 0) 501
    Spec.retry_world = (w2, Val (1, 0))
  ∧ download_one (Spec.file_server (JInt 6)) Spec.retry_dir (0, 0) 501 w2
    = (World (trace w2 ++ [EvGet (Spec.meta_request 501)]) (fs w2), Val (0, 1)).
Proof.
  intros target w2.
  pose proof (X15_second_pass (Spec.file_server (JInt 6)) Spec.retry_world
                Spec.retry_dir 501 0 0 0 0
                (Response 200 [] (Some (Spec.file_meta (JInt 6))) [] true)
                (Response 200 [] None Spec.retry_body true)
                Spec.file_members_6 "Week 1: Intro/Notes. " 6
                eq_refl eq_refl ltac:(discriminate) eq_refl eq_refl eq_refl
                eq_refl eq_refl) as H.
  destruct H as (H1 & H2 & _);
    [ intros (n & Hn & _); vm_compute in Hn; discriminate
    | reflexivity | discriminate | reflexivity | reflexivity
    | vm_compute; reflexivity | reflexivity | ].
  split; [exact H1|].
  apply H2. split; [discriminate|reflexivity].
Defined.

(** ** Targets stay inside the directory of the module *)

Lemma sanitize_length (name : str) : (length (sanitize name) <= length name)%nat.
Proof.
  rewrite sanitize_unfold.
  destruct (strip_decompose Spec.dot_or_space (Spec.replace_forbidden name))
    as (lead & trail & E & _).
  apply (f_equal length) in E. unfold Spec.replace_forbidden in E at 1.
  rewrite length_map, !length_app in E. lia.
Qed.

Lemma replace_forbidden_alike (a b : str) :
  Forall2 (fun x y => x = y ∨ (Spec.forbidden x ∧ Spec.forbidden y)) a b ->
  Spec.replace_forbidden a = Spec.replace_forbidden b.
Proof.
  induction 1 as [|x y a b Hxy _ IH]; [done|]. cbn [Spec.replace_forbidden map].
  unfold Spec.replace_forbidden in IH. rewrite IH. f_equal.
  destruct Hxy as [->|[Hx Hy]]; [done|].
  by rewrite !decide_True.
Qed.

(** X16.  The target of a file.  A sanitized name is never longer than the
    name; it is never [.] or [..] and holds no separator, so that the
    target [mod_dir / sanitize(name)] is the directory of the module itself
    (for an empty result) or an entry directly inside it.  Names that
    differ only in which illegal character stands at a position have the
    same sanitized name: their files share one target. *)
Theorem X16_target_inside_module :
  (∀ name : str, (length (sanitize name) <= length name)%nat)
  ∧ (∀ (mod_dir : path) (name : str),
        let target := path_div mod_dir (sanitize name) in
        target = mod_dir
        ∨ ∃ c : str,
            target = mod_dir ++ [c] ∧ parent target = mod_dir
            ∧ c ≠ ("." : str) ∧ c ≠ (".." : str)
            ∧ ("/"%char ∉ c) ∧ ("\"%char ∉ c))
  ∧ (∀ a b : str,
        Forall2 (fun x y => x = y ∨ (Spec.forbidden x ∧ Spec.forbidden y)) a b ->
        sanitize a = sanitize b).
Proof.
  split; [exact sanitize_length|]. split.
  - intros mod_dir name target. subst target.
    pose proof (strip_head Spec.dot_or_space (Spec.replace_forbidden name)) as Hh.
    pose proof (sanitize_clean name) as Hc.
    rewrite <- sanitize_unfold in Hh.
    destruct (sanitize name) as [|c s]; [by left|]. right.
    exists (c :: s). cbn [path_div]. split; [done|]. split.
    { unfold parent. apply removelast_last. }
    change ("." : str) with ["."%char]. change (".." : str) with ["."%char; "."%char].
    repeat split.
    + intros [= -> ->]. done.
    + intros [= -> ->]. done.
    + intros Hin. rewrite Forall_forall in Hc. apply (Hc _ Hin).
      by apply (bool_decide_unpack (Spec.forbidden "/")).
    + intros Hin. rewrite Forall_forall in Hc. apply (Hc _ Hin).
      by apply (bool_decide_unpack (Spec.forbidden "\")).
  - intros a b H. rewrite !sanitize_unfold.
    by rewrite (replace_forbidden_alike a b H).
Qed.

Lemma X16_target_inside_module_witness :
  sanitize "a:b?.pdf" = sanitize "a/b*.pdf".
Proof.
  apply (proj2 (proj2 X16_target_inside_module)).
  change ("a:b?.pdf" : str)
    with ["a"; ":"; "b"; "?"; "."; "p"; "d"; "f"]%char.
  change ("a/b*.pdf" : str)
    with ["a"; "/"; "b"; "*"; "."; "p"; "d"; "f"]%char.
  repeat (constructor 2;
          [first [ left; reflexivity
                 | right; split; apply (bool_decide_unpack (Spec.forbidden _));
                   vm_compute; exact I ]|]).
  constructor 1.
Defined.

(** ** The choice of a course *)

Lemma select_course_spec (count : Z) (lines : list ustr) :
  match select_course count lines with
  | (out, Some (idx, rest)) =>
      ∃ rejected line,
        lines = rejected ++ line :: rest
        ∧ Uni.int (Py.strip Uni.isspace line) = Some idx
        ∧ 1 <= idx <= count
        ∧ Forall (fun l => ¬ accepted count l) rejected
        ∧ out = notice_for <$> rejected
  | (out, None) =>
      Forall (fun l => ¬ accepted count l) lines
      ∧ out = notice_for <$> lines
  end.
Proof.
  induction lines as [|line rest IH]; cbn [select_course].
  - by split.
  - cbv zeta.
    destruct (Uni.int (Py.strip Uni.isspace line)) as [idx|] eqn:E.
    + destruct ((1 <=? idx) && (idx <=? count)) eqn:R.
      * exists [], line. repeat split; try done; lia.
      * assert (¬ accepted count line) as Hna.
        { intros (i & Hi & Hr). rewrite E in Hi. injection Hi as <-. lia. }
        assert (notice_for line = NotInList) as Hn
          by (unfold notice_for; by rewrite E).
        destruct (select_course count rest) as [out [[i rest']|]].
        -- destruct IH as (rejected & l & -> & Hl & Hr & Hrej & ->).
           exists (line :: rejected), l. rewrite fmap_cons, Hn.
           repeat split; try done; try lia. by constructor.
        -- destruct IH as [Hrej ->]. rewrite fmap_cons, Hn.
           split; [by constructor|done].
    + assert (¬ accepted count line) as Hna.
      { intros (i & Hi & Hr). by rewrite E in Hi. }
      assert (notice_for line = NotANumber) as Hn
        by (unfold notice_for; by rewrite E).
      destruct (select_course count rest) as [out [[i rest']|]].
      * destruct IH as (rejected & l & -> & Hl & Hr & Hrej & ->).
        exists (line :: rejected), l. rewrite fmap_cons, Hn.
        repeat split; try done; try lia. by constructor.
      * destruct IH as [Hrej ->]. rewrite fmap_cons, Hn.
        split; [by constructor|done].
Qed.

(** X17.  The choice of a course.  The loop takes the first line of the
    input that, stripped, reads as an integer from 1 to the number of
    courses; every line before it gets one notice, according to whether it
    reads as an integer at all; the lines after it are left for the
    prompts that follow.  The number taken picks a course of the list:
    [courses_sorted[idx - 1]] raises no [IndexError].  When no line is
    accepted the loop ends only with the input. *)
Theorem X17_first_accepted_line (courses : list json) (lines : list ustr)
    (w : world) :
  let count := Z.of_nat (length courses) in
  match select_course count lines with
  | (out, Some (idx, rest)) =>
      (∃ rejected line,
          lines = rejected ++ line :: rest
          ∧ Uni.int (Py.strip Uni.isspace line) = Some idx
          ∧ Forall (fun l => ¬ accepted count l) rejected
          ∧ out = notice_for <$> rejected)
      ∧ 1 <= idx <= count
      ∧ ∃ course, courses !! Z.to_nat (idx - 1) = Some course
                  ∧ py_index courses (idx - 1) w = (w, Val course)
  | (out, None) =>
      Forall (fun l => ¬ accepted count l) lines
      ∧ out = notice_for <$> lines
  end.
Proof.
  intros count. pose proof (select_course_spec count lines) as H.
  destruct (select_course count lines) as [out [[idx rest]|]]; [|done].
  destruct H as (rejected & line & -> & Hl & Hr & Hrej & ->). split.
  - by exists rejected, line.
  - split; [done|]. apply py_index_in_range. unfold count in Hr. lia.
Qed.

(** ** [normalize_domain] *)

Lemma split_hd (sep : ascii) (s : str) :
  ∃ w ws,
    Py.split sep s = w :: ws ∧ (sep ∉ w)
    ∧ (s = w ∨ ∃ t, s = w ++ sep :: t).
Proof.
  induction s as [|c s (w & ws & E & Hw & Hs)]; cbn [Py.split].
  - exists [], []. repeat split; [apply not_elem_of_nil|by left].
  - destruct (Ascii.eqb c sep) eqn:Ec.
    + apply Ascii.eqb_eq in Ec as ->. exists [], (Py.split sep s).
      repeat split; [apply not_elem_of_nil|]. right. by exists s.
    + apply Ascii.eqb_neq in Ec. rewrite E. exists (c :: w), ws.
      repeat split.
      * rewrite not_elem_of_cons. split; [congruence|done].
      * destruct Hs as [->|[t ->]]; [by left|]. right. by exists t.
Qed.

(** X18.  [normalize_domain] without a scheme.  When the stripped input
    does not hold [://], the result is the part of it before the first
    slash: it holds no slash, the stripped input is the result alone or
    the result followed by a slash and more, and an input without slash is
    only stripped. *)
Theorem X18_normalize_domain_host (netloc : str -> str) (d : str) :
  str_contains "://" (Py.strip Py.isspace d) = false ->
  ("/"%char ∉ normalize_domain netloc d)
  ∧ (Py.strip Py.isspace d = normalize_domain netloc d
     ∨ ∃ t, Py.strip Py.isspace d = normalize_domain netloc d ++ "/"%char :: t)
  ∧ ("/"%char ∉ Py.strip Py.isspace d ->
     normalize_domain netloc d = Py.strip Py.isspace d).
Proof.
  intros H. unfold normalize_domain. cbv zeta. rewrite H.
  destruct (split_hd "/" (Py.strip Py.isspace d)) as (w & ws & E & Hw & Hs).
  rewrite E. cbn [hd]. repeat split; [done|done|].
  intros Hno. destruct Hs as [->|[t Ht]]; [done|].
  rewrite Ht in Hno. exfalso. apply Hno. set_solver.
Qed.

Lemma X18_normalize_domain_host_witness :
  normalize_domain (fun d => d) "  canvas.odu.edu/courses/7 "
  = Py.strip Py.isspace ("  canvas.odu.edu/courses/7 " : str)
  ∨ ∃ t, Py.strip Py.isspace ("  canvas.odu.edu/courses/7 " : str)
         = normalize_domain (fun d => d) "  canvas.odu.edu/courses/7 "
           ++ "/"%char :: t.
Proof.
  pose proof (X18_normalize_domain_host (fun d => d)
                "  canvas.odu.edu/courses/7 ") as H.
  destruct H as (_ & [H|H] & _); [vm_compute; reflexivity| |].
  - left. by rewrite H.
  - by right.
Defined.

(** ** The two [get_all] *)

Section TwoGetAll.

Variable srv : server.

Lemma listing_get_page url params results w :
  Listing.get_page srv url params results w = get_page srv url params results w.
Proof.
  unfold Listing.get_page, get_page. munfold.
  destruct (session_get srv (Request url params false) w) as [w1 [resp| |]];
    [|done..].
  unfold raise_for_status.
  destruct (status_code resp =? 401) eqn:E1.
  { apply Z.eqb_eq in E1. rewrite E1. done. }
  destruct (status_code resp =? 403) eqn:E2.
  { apply Z.eqb_eq in E2. rewrite E2. done. }
  destruct (status_code resp =? 404) eqn:E3.
  { apply Z.eqb_eq in E3. rewrite E3. done. }
  done.
Qed.

Lemma listing_get_all_loop fuel :
  ∀ url params results w,
    Listing.get_all_loop srv fuel url params results w
    = get_all_loop srv fuel url params results w.
Proof.
  induction fuel as [|fuel IH]; intros url params results w; [done|].
  cbn [Listing.get_all_loop get_all_loop].
  destruct url as [u|]; [|done]. destruct (url_truthy (Some u)); [|done].
  munfold. rewrite listing_get_page.
  destruct (get_page srv u params results w) as [w1 [[r n]| |]]; [|done..].
  apply IH.
Qed.

End TwoGetAll.

(** X19.  The two [get_all].  The variant of the listing script tests for
    the statuses 401, 403 and 404 before it calls [raise_for_status]; these
    tests change nothing but the text of the error: for every remote side,
    URL, parameters and earlier history, the two functions make the same
    requests and end with the same records or with an [HTTPError] of the
    same status. *)
Theorem X19_listing_get_all_same (srv : server) (fuel : nat) (url : endpoint)
    (params : option (list (str * json))) (w : world) :
  Listing.get_all srv fuel url params w = get_all srv fuel url params w.
Proof. apply listing_get_all_loop. Qed.

(** ** The totals of a run *)

Section EmitsOnly.

Variable P : event -> Prop.

Lemma emits_only_silent {A} (m : M A) : Spec.silent m -> Ext.emits_only P m.
Proof. intros H w. exists []. by rewrite app_nil_r. Qed.

Lemma emits_only_keeps_trace {A} (m : M A) :
  (∀ w, (m w).1 = w) -> Ext.emits_only P m.
Proof. intros H. apply emits_only_silent. intros w. by rewrite H. Qed.

Lemma emits_only_bind {A B} (m : M A) (k : A -> M B) :
  Ext.emits_only P m -> (∀ a, Ext.emits_only P (k a)) ->
  Ext.emits_only P (x ← m; k x).
Proof.
  intros Hm Hk w. munfold. destruct (Hm w) as (evs & E & Hevs).
  destruct (m w) as [w' [a| |]]; cbn in *; [|by exists evs..].
  destruct (Hk a w') as (evs' & E' & Hevs'). exists (evs ++ evs').
  rewrite E', E, app_assoc. split; [done|by apply Forall_app].
Qed.

Lemma emits_only_try {A} (body : M A) handles handler :
  Ext.emits_only P body -> (∀ e, Ext.emits_only P (handler e)) ->
  Ext.emits_only P (try_except body handles handler).
Proof.
  intros Hb Hh w. unfold try_except. destruct (Hb w) as (evs & E & Hevs).
  destruct (body w) as [w' [a|e|]]; cbn in *; [by exists evs| |by exists evs].
  destruct (handles e); [|by exists evs].
  destruct (Hh e w') as (evs' & E' & Hevs'). exists (evs ++ evs').
  rewrite E', E, app_assoc. split; [done|by apply Forall_app].
Qed.

Lemma emits_only_for_each {A B} (body : B -> A -> M B) (l : list A) :
  (∀ b a, Ext.emits_only P (body b a)) ->
  ∀ b, Ext.emits_only P (for_each body b l).
Proof.
  intros Hbody. induction l as [|a l IH]; intros b; cbn [for_each].
  - by apply emits_only_silent.
  - by apply emits_only_bind.
Qed.

Lemma emits_only_emit ev : P ev -> Ext.emits_only P (emit ev).
Proof. intros H w. exists [ev]. split; [done|by constructor]. Qed.

Lemma emits_only_py_get d k : Ext.emits_only P (py_get d k).
Proof. apply emits_only_keeps_trace. by destruct d. Qed.

Lemma emits_only_raise_for_status resp : Ext.emits_only P (raise_for_status resp).
Proof.
  apply emits_only_keeps_trace. unfold raise_for_status. by destruct (_ && _).
Qed.

Lemma emits_only_resp_json resp : Ext.emits_only P (resp_json resp).
Proof.
  apply emits_only_keeps_trace. unfold resp_json. by destruct (json_body resp).
Qed.

Lemma emits_only_expect_str v : Ext.emits_only P (expect_str v).
Proof. apply emits_only_keeps_trace. by destruct v. Qed.

Lemma emits_only_iterate v : Ext.emits_only P (iterate v).
Proof. apply emits_only_keeps_trace. by destruct v. Qed.

Lemma emits_only_int_of_json v : Ext.emits_only P (int_of_json v).
Proof. by apply emits_only_keeps_trace. Qed.

Lemma emits_only_extend_results results data :
  Ext.emits_only P (extend_results results data).
Proof.
  apply emits_only_keeps_trace. destruct data as [| | | | |kv]; try done.
  cbn [extend_results]. by destruct (dict_get "items" kv) as [[]|].
Qed.

Lemma emits_only_ret {A} (a : A) : Ext.emits_only P (mret a).
Proof. by apply emits_only_keeps_trace. Qed.

Lemma emits_only_raise {A} e : Ext.emits_only P (@raise A e).
Proof. by apply emits_only_keeps_trace. Qed.

Hypothesis P_get : ∀ r, P (EvGet r).
Hypothesis P_sleep : ∀ secs, P (EvSleep secs).
Hypothesis P_module : ∀ title choice, P (EvPrint (MsgModule title choice)).
Hypothesis P_saving : ∀ dir, P (EvPrint (MsgSavingTo dir)).
Hypothesis P_failed : ∀ name e, P (EvPrint (MsgFailed name e)).

Variable srv : server.
Variable new_dir_size : Z.

Lemma emits_only_session_get r : Ext.emits_only P (session_get srv r).
Proof.
  intros w. exists [EvGet r]. unfold session_get.
  split; [by destruct (srv (trace w) r)|by constructor].
Qed.

Create HintDb emits.

#[local] Hint Resolve emits_only_ret emits_only_raise emits_only_py_get
  emits_only_raise_for_status emits_only_resp_json emits_only_expect_str
  emits_only_iterate emits_only_int_of_json emits_only_extend_results
  emits_only_session_get : emits.

Ltac emits_binds :=
  repeat (cbv zeta; apply emits_only_bind; [solve [auto with emits]|]; intros ?).

Lemma emits_only_get_all_loop fuel :
  ∀ url params results,
    Ext.emits_only P (get_all_loop srv fuel url params results).
Proof.
  induction fuel as [|fuel IH]; intros url params results; cbn [get_all_loop].
  - by apply emits_only_keeps_trace.
  - destruct url as [u|]; [|auto with emits].
    destruct (url_truthy (Some u)); [|auto with emits].
    apply emits_only_bind.
    + unfold get_page. emits_binds. auto with emits.
    + intros [results' next_url]. apply IH.
Qed.

Lemma emits_only_harvest course_id items :
  Ext.emits_only P (harvest srv course_id items).
Proof.
  unfold harvest, harvest_in_order. apply emits_only_for_each.
  intros ids []; cbn [run_strategy].
  - unfold harvest_file_items. apply emits_only_for_each. clear ids.
    intros ids it. emits_binds.
    destruct (json_is_str _ _); [|auto with emits]. emits_binds.
    destruct (truthy _); [|auto with emits].
    apply emits_only_try; [|auto with emits]. emits_binds. auto with emits.
  - unfold harvest_page_items. apply emits_only_for_each. clear ids.
    intros ids it. emits_binds.
    destruct (json_is_str _ _); [|auto with emits]. emits_binds.
    destruct (negb _); [auto with emits|]. emits_binds.
    destruct (_ =? _); [auto with emits|]. emits_binds. auto with emits.
  - unfold harvest_assignment_items. apply emits_only_for_each. clear ids.
    intros ids it. emits_binds.
    destruct (json_is_str _ _); [|auto with emits]. emits_binds.
    destruct (negb _); [auto with emits|]. emits_binds.
    destruct (_ =? _); [auto with emits|]. emits_binds.
    apply emits_only_for_each. intros ids' att.
    apply emits_only_bind; [auto with emits|]. intros fid.
    destruct fid; auto with emits.
Qed.

Lemma emits_only_download_to url target :
  Ext.emits_only P (download_to srv url target).
Proof.
  unfold download_to. emits_binds. destruct (_ =? _).
  - emits_binds. apply emits_only_bind.
    { unfold sleep. destruct (_ || _); [auto with emits|].
      destruct (_ <? 0); [auto with emits|].
      by apply emits_only_emit. }
    intros _. emits_binds. apply emits_only_silent, silent_stream_to.
  - emits_binds. apply emits_only_silent, silent_stream_to.
Qed.

Lemma emits_only_download_files mod_dir ids :
  Ext.emits_only P (download_files srv mod_dir ids).
Proof.
  unfold download_files. apply emits_only_for_each. intros [d s] fid.
  unfold download_one. emits_binds.
  destruct (_ =? _); [auto with emits|]. emits_binds.
  destruct (negb _); [auto with emits|]. emits_binds.
  apply emits_only_bind; [by apply emits_only_keeps_trace|]. intros f.
  destruct (_ && _); [auto with emits|].
  apply emits_only_try.
  - apply emits_only_bind; [apply emits_only_download_to|].
    intros _. auto with emits.
  - intros e. apply emits_only_bind; [by apply emits_only_emit|].
    intros _. auto with emits.
Qed.

Lemma emits_only_open_module fuel course_id modules base_out_dir choice :
  Ext.emits_only P
    (open_module srv new_dir_size fuel course_id modules base_out_dir choice).
Proof.
  unfold open_module. apply emits_only_bind.
  { apply emits_only_keeps_trace. intros w. unfold py_index.
    destruct (_ && _); [|done]. by destruct (modules !! _). }
  intros mod_. emits_binds.
  apply emits_only_bind.
  { apply emits_only_silent. unfold mkdir_p. apply silent_for_each.
    intros u n w. munfold. by destruct (fs w !! _) as [[]|]. }
  intros _.
  apply emits_only_bind; [by apply emits_only_emit|]. intros _.
  apply emits_only_bind; [by apply emits_only_emit|]. intros _.
  apply emits_only_bind; [apply emits_only_get_all_loop|]. intros items.
  auto with emits.
Qed.

End EmitsOnly.

Lemma reported_app (a b : list event) :
  (Ext.reported (a ++ b)).1 = (Ext.reported a).1 + (Ext.reported b).1
  ∧ (Ext.reported (a ++ b)).2 = (Ext.reported a).2 + (Ext.reported b).2.
Proof.
  induction a as [|ev a [IH1 IH2]]; [done|].
  cbn [app Ext.reported foldr fst snd] in *.
  fold (Ext.reported (a ++ b)) (Ext.reported a). lia.
Qed.

Lemma reported_none (evs : list event) :
  Forall (fun ev => Ext.module_done ev = (0, 0)) evs ->
  Ext.reported evs = (0, 0).
Proof.
  induction 1 as [|ev evs Hev _ IH]; [done|].
  cbn [Ext.reported foldr]. fold (Ext.reported evs). by rewrite Hev, IH.
Qed.

Section Totals.

Variable srv : server.
Variable new_dir_size : Z.

Lemma process_module_counts fuel course_id modules base_out_dir grand choice
    w w' grand' :
  process_module srv new_dir_size fuel course_id modules base_out_dir grand
    choice w = (w', Val grand') ->
  ∃ evs, trace w' = trace w ++ evs
         ∧ grand'.1 = grand.1 + (Ext.reported evs).1
         ∧ grand'.2 = grand.2 + (Ext.reported evs).2
         ∧ 0 <= (Ext.reported evs).1 ∧ 0 <= (Ext.reported evs).2.
Proof.
  unfold process_module. intros H.
  destruct (emits_only_open_module (fun ev => Ext.module_done ev = (0, 0))
              ltac:(done) ltac:(done) ltac:(done) srv new_dir_size fuel
              course_id modules base_out_dir choice w) as (evs0 & E0 & Q0).
  destruct (open_module srv new_dir_size fuel course_id modules base_out_dir
              choice w) as [w0 [[mod_dir items]| |]] eqn:Eo;
    [|by rewrite (bind_exc _ _ _ _ _ Eo) in H
     |by rewrite (bind_out_of_fuel _ _ _ _ Eo) in H].
  rewrite (bind_val _ _ _ _ _ Eo) in H. cbn [fst] in E0.
  apply reported_none in Q0.
  destruct items as [|it items].
  { munfold_in H. injection H as <- <-. exists (evs0 ++ [EvPrint MsgNoItems]).
    cbn [trace]. rewrite E0, <- app_assoc. split; [done|].
    destruct (reported_app evs0 [EvPrint MsgNoItems]) as [-> ->].
    rewrite Q0. cbn. lia. }
  destruct (emits_only_harvest (fun ev => Ext.module_done ev = (0, 0))
              ltac:(done) srv course_id (it :: items) w0) as (evs1 & E1 & Q1).
  destruct (harvest srv course_id (it :: items) w0) as [w1 [ids| |]] eqn:Eh;
    [|by rewrite (bind_exc _ _ _ _ _ Eh) in H
     |by rewrite (bind_out_of_fuel _ _ _ _ Eh) in H].
  rewrite (bind_val _ _ _ _ _ Eh) in H. cbn [fst] in E1.
  apply reported_none in Q1.
  destruct (bool_decide (ids = ∅)).
  { munfold_in H. injection H as <- <-.
    exists (evs0 ++ evs1 ++ [EvPrint MsgNoFiles]).
    cbn [trace]. rewrite E1, E0, <- !app_assoc. split; [done|].
    destruct (reported_app evs0 (evs1 ++ [EvPrint MsgNoFiles])) as [-> ->].
    destruct (reported_app evs1 [EvPrint MsgNoFiles]) as [-> ->].
    rewrite Q0, Q1. cbn. lia. }
  destruct (emits_only_download_files (fun ev => Ext.module_done ev = (0, 0))
              ltac:(done) ltac:(done) ltac:(done) srv mod_dir ids w1)
    as (evs2 & E2 & Q2).
  destruct (download_files srv mod_dir ids w1) as [w2 [[d s]| |]] eqn:Ed;
    [|by rewrite (bind_exc _ _ _ _ _ Ed) in H
     |by rewrite (bind_out_of_fuel _ _ _ _ Ed) in H].
  rewrite (bind_val _ _ _ _ _ Ed) in H. cbn [fst] in E2.
  apply reported_none in Q2.
  unfold download_files in Ed. apply download_loop_counted in Ed.
  munfold_in H. injection H as <- <-.
  exists (evs0 ++ evs1 ++ evs2 ++ [EvPrint (MsgModuleDone d s)]).
  cbn [trace]. rewrite E2, E1, E0, <- !app_assoc. split; [done|].
  destruct (reported_app evs0 (evs1 ++ evs2 ++ [EvPrint (MsgModuleDone d s)]))
    as [-> ->].
  destruct (reported_app evs1 (evs2 ++ [EvPrint (MsgModuleDone d s)]))
    as [-> ->].
  destruct (reported_app evs2 [EvPrint (MsgModuleDone d s)]) as [-> ->].
  rewrite Q0, Q1, Q2. cbn. lia.
Qed.

Lemma module_loop_counts fuel course_id modules base_out_dir choices :
  ∀ grand w w' grand',
    for_each (process_module srv new_dir_size fuel course_id modules
                base_out_dir) grand choices w = (w', Val grand') ->
    ∃ evs, trace w' = trace w ++ evs
           ∧ grand'.1 = grand.1 + (Ext.reported evs).1
           ∧ grand'.2 = grand.2 + (Ext.reported evs).2
           ∧ 0 <= (Ext.reported evs).1 ∧ 0 <= (Ext.reported evs).2.
Proof.
  induction choices as [|choice choices IH]; intros grand w w' grand' H.
  - cbn in H. injection H as <- <-. exists []. rewrite app_nil_r.
    split; [done|]. cbn. lia.
  - cbn [for_each] in H.
    destruct (process_module srv new_dir_size fuel course_id modules
                base_out_dir grand choice w) as [w1 [g1| |]] eqn:E1;
      [|by rewrite (bind_exc _ _ _ _ _ E1) in H
       |by rewrite (bind_out_of_fuel _ _ _ _ E1) in H].
    rewrite (bind_val _ _ _ _ _ E1) in H.
    apply process_module_counts in E1 as (evs1 & T1 & A1 & B1 & C1 & D1).
    apply IH in H as (evs2 & T2 & A2 & B2 & C2 & D2).
    exists (evs1 ++ evs2). rewrite T2, T1, <- app_assoc. split; [done|].
    destruct (reported_app evs1 evs2) as [-> ->]. lia.
Qed.

End Totals.

(** X20.  The totals of a run.  When the loop over the selected modules
    comes to its end, the two totals it prints last, before the line that
    names the directory, are the sums of the counts printed at the end of
    each module (a module without items or without files prints none and
    adds nothing), and neither is negative. *)
Theorem X20_totals_add_up (srv : server) (new_dir_size : Z) (fuel : nat)
    (course_id : Z) (modules : list json) (base_out_dir : path)
    (choices : list Z) (w w' : world) (totals : Z * Z) :
  run_modules srv new_dir_size fuel course_id modules base_out_dir choices w
  = (w', Val totals) ->
  ∃ evs,
    trace w' = trace w ++ evs
               ++ [EvPrint (MsgAllDone totals.1 totals.2);
                   EvPrint (MsgSavedUnder base_out_dir)]
    ∧ Ext.reported evs = totals
    ∧ 0 <= totals.1 ∧ 0 <= totals.2.
Proof.
  unfold run_modules. intros H.
  destruct (for_each (process_module srv new_dir_size fuel course_id modules
                        base_out_dir) (0, 0) choices w)
    as [w1 [t| |]] eqn:E;
    [|by rewrite (bind_exc _ _ _ _ _ E) in H
     |by rewrite (bind_out_of_fuel _ _ _ _ E) in H].
  rewrite (bind_val _ _ _ _ _ E) in H. munfold_in H. injection H as <- <-.
  apply module_loop_counts in E as (evs & T & A & B & C & D).
  exists evs. cbn [trace fst snd] in *. rewrite T, <- !app_assoc.
  split; [done|]. split; [|lia].
  destruct t as [a b], (Ext.reported evs) as [c d]. cbn in *. f_equal; lia.
Qed.

Lemma X20_totals_add_up_witness :
  ∃ w' evs,
    trace w' = trace (World [] ∅) ++ evs
               ++ [EvPrint (MsgAllDone (1, 0).1 (1, 0).2);
                   EvPrint (MsgSavedUnder Spec.course_dir)]
    ∧ Ext.reported evs = (1, 0)
    ∧ 0 <= (1, 0).1 ∧ 0 <= (1, 0).2.
Proof.
  pose proof (proj1 flaky_run) as E. cbv zeta in E.
  destruct (run_modules Spec.flaky_server 4096 8 42 Spec.run_modules_list
              Spec.course_dir [1; 2] (World [] ∅)) as [w' o] eqn:H.
  cbn [snd] in E. subst o. exists w'.
  exact (X20_totals_add_up _ _ _ _ _ _ _ _ _ _ H).
Defined.

(** ** The folder names of the listing *)

Lemma replace_char_clean (a b : ascii) (s : str) :
  a ≠ b -> a ∉ Listing.replace_char a b s.
Proof.
  intros Hab Hin. unfold Listing.replace_char in Hin.
  apply list_elem_of_fmap in Hin as (c & Hc & _).
  destruct (Ascii.eqb c a) eqn:E; [congruence|].
  apply Ascii.eqb_neq in E. congruence.
Qed.

Lemma replace_char_id (a b : ascii) (s : str) :
  a ∉ s -> Listing.replace_char a b s = s.
Proof.
  induction s as [|c s IH]; [done|]. intros Hin.
  apply not_elem_of_cons in Hin as [Hc Hs]. cbn [Listing.replace_char map].
  unfold Listing.replace_char in IH. rewrite IH by done.
  destruct (Ascii.eqb c a) eqn:E; [|done].
  apply Ascii.eqb_eq in E. congruence.
Qed.

Lemma replace_char_app (a b : ascii) (s t : str) :
  Listing.replace_char a b (s ++ t)
  = Listing.replace_char a b s ++ Listing.replace_char a b t.
Proof. apply map_app. Qed.

Lemma startswith_app (p s : str) : Py.startswith p (p ++ s) = true.
Proof.
  induction p as [|c p IH]; [by destruct s|].
  cbn [app Py.startswith]. by rewrite Ascii.eqb_refl, IH.
Qed.

Lemma folder_rel_result (rel : str) :
  "\"%char ∉ rel ->
  match Py.strip (Py.in_chars "/") rel with
  | [] => "(Root)" : str
  | rel' => rel'
  end ≠ []
  ∧ ("\"%char ∉ match Py.strip (Py.in_chars "/") rel with
                | [] => "(Root)" : str
                | rel' => rel'
                end)
  ∧ (Py.strip (Py.in_chars "/") rel = []
     ∨ head (Py.strip (Py.in_chars "/") rel) ≠ Some "/"%char
       ∧ last (Py.strip (Py.in_chars "/") rel) ≠ Some "/"%char).
Proof.
  intros Hno.
  pose proof (strip_head (Py.in_chars "/") rel) as Hh.
  pose proof (strip_last (Py.in_chars "/") rel) as Hl.
  assert ("\"%char ∉ Py.strip (Py.in_chars "/") rel) as Hs.
  { intros Hin. apply Hno.
    destruct (strip_decompose (Py.in_chars "/") rel) as (a & b & E & _).
    rewrite E. set_solver. }
  destruct (Py.strip (Py.in_chars "/") rel) as [|c s] eqn:E.
  - split; [done|]. split; [|by left].
    change ("(Root)" : str) with ["("; "R"; "o"; "o"; "t"; ")"]%char.
    intros Hin. repeat (apply elem_of_cons in Hin as [Hin|Hin]; [done|]).
    by apply elem_of_nil in Hin.
  - split; [done|]. split; [done|]. right. split.
    + cbn [head]. intros [= ->]. done.
    + rewrite <- head_reverse. unfold reverse. rewrite <- rev_alt.
      destruct (rev (c :: s)) as [|d t]; [done|].
      cbn [head]. intros [= ->]. done.
Qed.

Lemma lower_prefix_clean (p : str) :
  map Listing.lower_char p = ("course files/" : str) -> "\"%char ∉ p.
Proof.
  intros E Hin. apply list_elem_of_In, (in_map Listing.lower_char) in Hin.
  rewrite E in Hin. apply list_elem_of_In in Hin. change (Listing.lower_char "\") with "\"%char in Hin.
  change ("course files/" : str)
    with ["c"; "o"; "u"; "r"; "s"; "e"; " "; "f"; "i"; "l"; "e"; "s"; "/"]%char
    in Hin.
  repeat (apply elem_of_cons in Hin as [Hin|Hin]; [done|]).
  by apply elem_of_nil in Hin.
Qed.

(** X21.  The folder names of the listing.  The name printed for a folder
    is never empty and holds no backslash; it is [(Root)] or a name that
    neither starts nor ends with a slash.  A leading [course files/],
    written in any case, is cut off once: what is printed is the rest,
    with backslashes turned into slashes and without slashes at its
    ends. *)
Theorem X21_folder_names :
  (∀ full_name : str,
      Listing.folder_rel full_name ≠ []
      ∧ ("\"%char ∉ Listing.folder_rel full_name)
      ∧ (Listing.folder_rel full_name = ("(Root)" : str)
         ∨ head (Listing.folder_rel full_name) ≠ Some "/"%char
           ∧ last (Listing.folder_rel full_name) ≠ Some "/"%char))
  ∧ (∀ prefix rest : str,
        map Listing.lower_char prefix = ("course files/" : str) ->
        Listing.folder_rel (prefix ++ rest)
        = match Py.strip (Py.in_chars "/")
                  (Listing.replace_char "\" "/" rest) with
          | [] => "(Root)" : str
          | rel => rel
          end).
Proof.
  split.
  - intros full_name. unfold Listing.folder_rel. cbv zeta.
    set (full := Listing.replace_char "\" "/" full_name).
    assert ("\"%char ∉ full) as Hfull by (by apply replace_char_clean).
    set (rel := if Py.startswith _ _ then _ else _).
    assert ("\"%char ∉ rel) as Hrel.
    { subst rel. destruct (Py.startswith _ _); [|done].
      intros Hin. apply Hfull. rewrite <- (take_drop 13 full). set_solver. }
    destruct (folder_rel_result rel Hrel) as (H1 & H2 & H3).
    split; [done|]. split; [done|].
    destruct H3 as [->|H3]; [by left|].
    destruct (Py.strip (Py.in_chars "/") rel); [by left|by right].
  - intros prefix rest E. unfold Listing.folder_rel. cbv zeta.
    rewrite replace_char_app, (replace_char_id _ _ prefix)
      by by apply lower_prefix_clean.
    rewrite map_app, E, startswith_app.
    replace (length ("course files/" : str)) with (length prefix)
      by (by rewrite <- E, length_map).
    by rewrite drop_app_length.
Qed.

Lemma X21_folder_names_witness :
  Listing.folder_rel (("COURSE Files/" : str) ++ ("Week 1\Slides\" : str))
  = match Py.strip (Py.in_chars "/")
            (Listing.replace_char "\" "/" ("Week 1\Slides\" : str)) with
    | [] => "(Root)" : str
    | rel => rel
    end.
Proof. apply (proj2 X21_folder_names). reflexivity. Defined.
